(** * nft-tracker: the transfer-event tracking pipeline

    A shallow embedding of the Go packages [trackingService]
    (pkg/services/transferEventTracker.go) and [nftModel]
    (pkg/models/nftModel.go), together with the parts of go-ethereum
    ([common], [crypto], [accounts/abi]), of the Go standard library
    ([encoding/hex], [strconv], [math/big]) and of the MongoDB driver that
    those two packages call.

    Conventions.
    - [*big.Int] is [Z]; Go's fixed-width integers are [Z] with the
      wrap-around written out ([wrap_signed]).
    - [[]byte], [common.Hash] and [common.Address] are [list byte].
    - A Go [error] is the text it prints ([string]); [nil] is [None].
    - A function that can panic returns an [outcome]; the ethereum client,
      the clock and the database driver are the outside world and appear as
      explicit inputs ([CallEnv], [FetchEnv]).
    - A [bson.M] and a stored document are [gmap string bson].

    Left out: the construction of the tracker from the environment
    ([NewTransferEventTracker]), the read side of [nftModel]
    ([GetAllNfts], [GetWalletNfts]) and the HTTP routes. *)

From Stdlib Require Import ZArith List Strings.String Strings.Ascii Strings.Byte Lia.
From stdpp Require Import base option list strings gmap fin_maps sorting.
Import ListNotations.
Local Open Scope Z_scope.

(** ** Go basics: errors, panics, fixed-width integers *)

Definition error : Type := string.

(** [fmt.Errorf(prefix + ": %v", err)] *)
Definition Errorf (prefix : string) (cause : error) : error :=
  prefix +:+ ": " +:+ cause.

(** The result of running a Go function: it returns, or a run-time panic
    unwinds it (nothing in this program recovers). *)
Inductive outcome (A : Type) : Type :=
| Returned (a : A)
| Panicked (reason : string).
Arguments Returned {A} a.
Arguments Panicked {A} reason.

(** Two's-complement wrap-around of an integer to [bits] bits (a Go
    conversion between signed integer types). *)
Definition wrap_signed (bits : Z) (z : Z) : Z :=
  (z + 2 ^ (bits - 1)) mod 2 ^ bits - 2 ^ (bits - 1).

#[global] Instance byte_eq_dec : EqDecision byte := Byte.byte_eq_dec.

Definition Z_of_byte (b : byte) : Z := Z.of_N (Byte.to_N b).
Definition byte_of_Z (z : Z) : byte :=
  match Byte.of_N (Z.to_N (z mod 256)) with
  | Some b => b
  | None => x00
  end.

(** ** golang.org/x/crypto/sha3: legacy Keccak-256 *)
Module crypto.

Definition rotl64 (x n : Z) : Z :=
  Z.land (Z.lor (Z.shiftl x n) (Z.shiftr x (64 - n))) (Z.ones 64).
Definition not64 (x : Z) : Z := Z.lxor x (Z.ones 64).
Definition lane (st : list Z) (i : nat) : Z := nth i st 0.

Definition keccakf_rndc : list Z :=
  [0x0000000000000001; 0x0000000000008082; 0x800000000000808a; 0x8000000080008000;
   0x000000000000808b; 0x0000000080000001; 0x8000000080008081; 0x8000000000008009;
   0x000000000000008a; 0x0000000000000088; 0x0000000080008009; 0x000000008000000a;
   0x000000008000808b; 0x800000000000008b; 0x8000000000008089; 0x8000000000008003;
   0x8000000000008002; 0x8000000000000080; 0x000000000000800a; 0x800000008000000a;
   0x8000000080008081; 0x8000000000008080; 0x0000000080000001; 0x8000000080008008].
Definition keccakf_rotc : list Z :=
  [1; 3; 6; 10; 15; 21; 28; 36; 45; 55; 2; 14; 27; 41; 56; 8; 25; 43; 62; 18;
   39; 61; 20; 44].
Definition keccakf_piln : list nat :=
  [10; 7; 11; 17; 18; 3; 5; 16; 8; 21; 24; 4; 15; 23; 19; 13; 12; 2; 20; 14;
   22; 9; 6; 1]%nat.

Definition theta (st : list Z) : list Z :=
  let bc := map (fun i => Z.lxor (lane st i) (Z.lxor (lane st (i + 5))
              (Z.lxor (lane st (i + 10)) (Z.lxor (lane st (i + 15)) (lane st (i + 20))))))
              (seq 0 5) in
  let d := map (fun i => Z.lxor (lane bc ((i + 4) mod 5))
                                (rotl64 (lane bc ((i + 1) mod 5)) 1)) (seq 0 5) in
  imap (fun j x => Z.lxor x (lane d (j mod 5))) st.

Definition rho_pi (st : list Z) : list Z :=
  snd (fold_left (fun '(t, s) '(j, r) => (lane s j, <[j := rotl64 t r]> s))
         (combine keccakf_piln keccakf_rotc) (lane st 1, st)).

Definition chi (st : list Z) : list Z :=
  imap (fun j x => let row := (5 * (j / 5))%nat in
                   Z.lxor x (Z.land (not64 (lane st (row + (j + 1) mod 5)))
                                    (lane st (row + (j + 2) mod 5)))) st.

Definition iota (rc : Z) (st : list Z) : list Z :=
  <[0%nat := Z.lxor (lane st 0) rc]> st.

Definition keccakf (st : list Z) : list Z :=
  fold_left (fun s rc => iota rc (chi (rho_pi (theta s)))) keccakf_rndc st.

(** 1088-bit rate, 512-bit capacity *)
Definition rate : nat := 136.

Fixpoint le_word (bs : list Z) : Z :=
  match bs with
  | [] => 0
  | b :: r => Z.lor b (Z.shiftl (le_word r) 8)
  end.

Fixpoint chunks (fuel n : nat) (l : list Z) : list (list Z) :=
  match fuel with
  | O => []
  | S f => match l with
           | [] => []
           | _ => firstn n l :: chunks f n (skipn n l)
           end
  end.

(** Keccak's original multi-rate padding (domain byte 0x01, not SHA-3's 0x06) *)
Definition pad (msg : list Z) : list Z :=
  let q := (rate - length msg mod rate)%nat in
  if (q =? 1)%nat then msg ++ [0x81]
  else msg ++ [0x01] ++ repeat 0 (q - 2) ++ [0x80].

Definition absorb (st : list Z) (block : list Z) : list Z :=
  let ws := map le_word (chunks 17 8 block) in
  keccakf (imap (fun j x => Z.lxor x (lane ws j)) st).

Definition word_le_bytes (w : Z) : list Z :=
  map (fun k => Z.land (Z.shiftr w (8 * Z.of_nat k)) 255) (seq 0 8).

Definition Keccak256 (msg : list byte) : list byte :=
  let p := pad (map Z_of_byte msg) in
  let st := fold_left absorb (chunks (length p) rate p) (repeat 0 25) in
  map byte_of_Z (flat_map word_le_bytes (firstn 4 st)).

(** [crypto.Keccak256Hash] *)
Definition Keccak256Hash (data : list byte) : list byte := Keccak256 data.

End crypto.

(** ** encoding/hex and github.com/ethereum/go-ethereum/common *)
Module common.

Abbreviation Hash := (list byte) (only parsing).      (* [32]byte *)
Abbreviation Address := (list byte) (only parsing).   (* [20]byte *)
Definition HashLength : nat := 32.
Definition AddressLength : nat := 20.

Definition hextable : list ascii := list_ascii_of_string "0123456789abcdef".
Definition hexdigit (n : Z) : ascii := nth (Z.to_nat n) hextable "0"%char.

(** [hex.EncodeToString] *)
Fixpoint hex_Encode (bs : list byte) : string :=
  match bs with
  | [] => EmptyString
  | b :: r => String (hexdigit (Z_of_byte b / 16))
                (String (hexdigit (Z_of_byte b mod 16)) (hex_Encode r))
  end.

(** [reverseHexTable]: the value of a hexadecimal digit, either case *)
Definition fromHexChar (c : ascii) : option Z :=
  let n := Z.of_nat (nat_of_ascii c) in
  if (48 <=? n) && (n <=? 57) then Some (n - 48)
  else if (97 <=? n) && (n <=? 102) then Some (n - 97 + 10)
  else if (65 <=? n) && (n <=? 70) then Some (n - 65 + 10)
  else None.

(** [hex.DecodeString], error dropped as [Hex2Bytes] does: the bytes
    decoded before the first invalid digit are returned. *)
Fixpoint Hex2Bytes (s : string) : list byte :=
  match s with
  | String p (String q r) =>
      match fromHexChar p, fromHexChar q with
      | Some a, Some b => byte_of_Z (a * 16 + b) :: Hex2Bytes r
      | _, _ => []
      end
  | _ => []
  end.

Definition has0xPrefix (s : string) : bool :=
  match s with
  | String c0 (String c1 _) =>
      bool_decide (c0 = "0"%char) && (bool_decide (c1 = "x"%char) || bool_decide (c1 = "X"%char))
  | _ => false
  end.

Definition FromHex (s : string) : list byte :=
  let s := if has0xPrefix s then String.substring 2 (String.length s - 2) s else s in
  let s := if Nat.odd (String.length s) then String "0"%char s else s in
  Hex2Bytes s.

(** [hexutil.Encode] *)
Definition hexutil_Encode (b : list byte) : string := "0x" +:+ hex_Encode b.

(** [Address.SetBytes] on the zero address: keep the low-order 20 bytes,
    left-pad a shorter slice with zeros. *)
Definition BytesToAddress (b : list byte) : Address :=
  let b := if (AddressLength <? length b)%nat
           then skipn (length b - AddressLength) b else b in
  repeat x00 (AddressLength - length b) ++ b.

Definition HexToAddress (s : string) : Address := BytesToAddress (FromHex s).

(** [Hash.Hex] *)
Definition Hash_Hex (h : Hash) : string := hexutil_Encode h.

(** [Hash.Big]: [new(big.Int).SetBytes(h[:])], big-endian and unsigned *)
Definition SetBytes (b : list byte) : Z :=
  fold_left (fun acc x => acc * 256 + Z_of_byte x) b 0.
Definition Hash_Big (h : Hash) : Z := SetBytes h.

(** [Address.checksumHex]: EIP-55 mixed-case encoding.  The digit at
    position [i] is upper-cased when it is a letter and the [i]-th nibble
    of the Keccak-256 hash of the lower-case digits exceeds 7. *)
Definition nibble (hash : list byte) (i : nat) : Z :=
  let hb := Z_of_byte (nth (i / 2) hash x00) in
  if Nat.even i then Z.shiftr hb 4 else Z.land hb 15.

Definition checksum_char (hash : list byte) (i : nat) (c : ascii) : ascii :=
  if (57 <? Z.of_nat (nat_of_ascii c)) && (7 <? nibble hash i)
  then ascii_of_nat (nat_of_ascii c - 32)
  else c.

Definition Address_Hex (a : Address) : string :=
  let digits := list_ascii_of_string (hex_Encode a) in
  let hash := crypto.Keccak256 (map byte_of_ascii digits) in
  "0x" +:+ string_of_list_ascii (imap (checksum_char hash) digits).

End common.

(** ** github.com/ethereum/go-ethereum/accounts/abi (events only) *)
Module abi.

Inductive Type_ : Type := AddressTy | UintTy (size : nat).

Record Argument : Type :=
  { Name : string; T : Type_; Indexed : bool }.

Record Event : Type :=
  { EventName : string; Anonymous : bool; Inputs : list Argument }.

(** A parsed ABI; only its [Events] map is used here (no method is
    declared by the tracker's ABI). *)
Record ABI : Type := { Events : gmap string Event }.

Inductive value : Type :=
| VAddress (a : common.Address)
| VUint (z : Z).

(** [Arguments.NonIndexed] *)
Definition NonIndexed (args : list Argument) : list Argument :=
  filter (fun a => Indexed a = false) args.

(** [getArguments] *)
Definition getArguments (a : ABI) (name : string) : list Argument + error :=
  match Events a !! name with
  | Some ev => inl (Inputs ev)
  | None => inr ("abi: could not locate named method or event: " +:+ name)
  end.

(** [toGoType] for the static types of this ABI: one 32-byte word at
    offset [index]. *)
Definition toGoType (index : nat) (t : Type_) (output : list byte) : value + error :=
  if (length output <? index + 32)%nat
  then inr "abi: cannot marshal in to go type: length insufficient"
  else
    let word := firstn 32 (skipn index output) in
    match t with
    | AddressTy => inl (VAddress (common.BytesToAddress word))
    | UintTy _ => inl (VUint (common.SetBytes word))
    end.

(** [Arguments.UnpackValues]: the loop over the non-indexed arguments *)
Fixpoint UnpackValues_from (index : nat) (args : list Argument) (data : list byte)
  : list value + error :=
  match args with
  | [] => inl []
  | arg :: rest =>
      match toGoType (index * 32) (T arg) data with
      | inr e => inr e
      | inl v =>
          match UnpackValues_from (S index) rest data with
          | inr e => inr e
          | inl vs => inl (v :: vs)
          end
      end
  end.

(** [Arguments.Unpack] *)
Definition Unpack (args : list Argument) (data : list byte) : list value + error :=
  match data with
  | [] =>
      match NonIndexed args with
      | [] => inl []
      | _ :: _ =>
          inr "abi: attempting to unmarshal an empty string while arguments are expected"
      end
  | _ :: _ => UnpackValues_from 0 (NonIndexed args) data
  end.

End abi.

(** ** go-ethereum: [core/types.Log], [ethereum.FilterQuery] *)
Module types.

Record Log : Type :=
  { Address : common.Address;
    Topics : list common.Hash;
    Data : list byte;
    BlockNumber : Z;
    TxHash : common.Hash;
    Index : Z }.

End types.

Module ethereum.

Record FilterQuery : Type :=
  { FromBlock : Z;
    ToBlock : Z;
    Addresses : list common.Address;
    Topics : list (list common.Hash) }.

End ethereum.

(** ** The MongoDB collection behind [nftModel.collection] *)
Module mongo.

Inductive bson : Type :=
| BInt (z : Z)
| BString (s : string)
| BDateTime (t : Z)
| BObjectID (n : N).

#[global] Instance bson_eq_dec : EqDecision bson.
Proof. solve_decision. Defined.

(** The documents in insertion order, and the counter from which the
    server draws the [_id] of an inserted document. *)
Record Collection : Type :=
  { docs : list (gmap string bson); next_oid : N }.

Definition empty : Collection := {| docs := []; next_oid := 0%N |}.

(** An equality filter matches a document that carries each of its
    fields with the same value. *)
Definition matches (filter doc : gmap string bson) : bool :=
  bool_decide (map_Forall (fun k v => doc !! k = Some v) filter).

(** [$set] on the first matching document; [None] when no document
    matches. *)
Fixpoint update_first (filter set : gmap string bson) (ds : list (gmap string bson))
  : option (list (gmap string bson)) :=
  match ds with
  | [] => None
  | d :: rest =>
      if matches filter d then Some ((set ∪ d) :: rest)
      else (fun rest' => d :: rest') <$> update_first filter set rest
  end.

(** [Collection.UpdateOne(filter, {$set, $setOnInsert}, upsert)] when the
    server executes it.  On an upsert without a match the new document is
    seeded from the filter's equality fields, then both operators are
    applied and an [_id] is generated. *)
Definition UpdateOne (filter set setOnInsert : gmap string bson) (upsert : bool)
  (c : Collection) : Collection :=
  match update_first filter set (docs c) with
  | Some ds => {| docs := ds; next_oid := next_oid c |}
  | None =>
      if upsert
      then {| docs := docs c ++
                [ <["_id" := BObjectID (next_oid c)]> (set ∪ setOnInsert ∪ filter) ];
              next_oid := N.succ (next_oid c) |}
      else c
  end.

End mongo.

(** ** The process: database, log output, requests sent to the node *)

(** [log.Printf(format, args...)], kept unrendered *)
Inductive LogScalar : Type :=
| SString (s : string)
| SInt (z : Z).

Inductive LogArg : Type :=
| ArgError (e : error)
| ArgString (s : string)
| ArgInt (z : Z)
| ArgStruct (fields : list (string * LogScalar)).

Record LogLine : Type := { format : string; args : list LogArg }.

Record Sys : Type :=
  { coll : mongo.Collection;
    logged : list LogLine;
    issued : list ethereum.FilterQuery }.

Definition M (A : Type) : Type := Sys -> outcome A * Sys.

#[global] Instance M_ret : MRet M := fun A a s => (Returned a, s).
#[global] Instance M_bind : MBind M := fun A B f m s =>
  match m s with
  | (Returned a, s') => f a s'
  | (Panicked r, s') => (Panicked r, s')
  end.

Definition panic {A} (reason : string) : M A := fun s => (Panicked reason, s).

Definition lift {A} (o : outcome A) : M A := fun s => (o, s).

Definition Printf (fmt : string) (a : list LogArg) : M unit := fun s =>
  (Returned tt,
   {| coll := coll s;
      logged := logged s ++ [ {| format := fmt; args := a |} ];
      issued := issued s |}).

(** [log.Fatal], [log.Fatalf]: the line is written and the process exits
    with status 1.  For the caller this is the other way of not
    returning, so it shares [Panicked]. *)
Definition Fatalf {A} (fmt : string) (a : list LogArg) : M A := fun s =>
  (Panicked "os.Exit(1)",
   {| coll := coll s;
      logged := logged s ++ [ {| format := fmt; args := a |} ];
      issued := issued s |}).

(** What the outside world answers while one log is processed: the reading
    of [time.Now()] and whether the driver reports a failure for the
    [UpdateOne] call. *)
Record CallEnv : Type := { now : Z; updateOneErr : option error }.

(** What the node answers during one fetch: the latest header's number,
    the logs for a query, and the [CallEnv] of the i-th log processed. *)
Record FetchEnv : Type :=
  { headerByNumber : Z + error;
    filterLogs : ethereum.FilterQuery -> list types.Log + error;
    perLog : nat -> CallEnv }.

(** ** package nftModel (pkg/models/nftModel.go) *)
Module nftModel.

Record NFT : Type :=
  { ID : N;
    NftID : Z;
    OwnerAddress : string;
    ContractAddress : string;
    TokenUri : string;
    TxHash : string;
    TimeStamp : Z }.

(** The width of Go's [int] on the 64-bit targets the service is built
    for. *)
Definition intSize : Z := 64.

Definition filter_of (nft : NFT) : gmap string mongo.bson :=
  {[ "nftId" := mongo.BInt (NftID nft) ]}.

Definition set_of (nft : NFT) : gmap string mongo.bson :=
  <["ownerAddress" := mongo.BString (OwnerAddress nft)]>
  (<["contractAddress" := mongo.BString (ContractAddress nft)]>
  (<["txHash" := mongo.BString (TxHash nft)]>
  {[ "timeStamp" := mongo.BDateTime (TimeStamp nft) ]})).

Definition setOnInsert_of (nft : NFT) : gmap string mongo.bson :=
  {[ "nftId" := mongo.BInt (NftID nft) ]}.

(** The driver call of [CreateUpdateNFT].  [driverErr] is the error the
    driver reports, if any; a reported failure leaves the collection as
    it was. *)
Definition collection_UpdateOne (driverErr : option error)
  (filter set setOnInsert : gmap string mongo.bson) : M (option error) := fun s =>
  match driverErr with
  | Some e => (Returned (Some e), s)
  | None =>
      (Returned None,
       {| coll := mongo.UpdateOne filter set setOnInsert true (coll s);
          logged := logged s;
          issued := issued s |})
  end.

Definition CreateUpdateNFT (driverErr : option error) (nft : NFT) : M (option error) :=
  err ← collection_UpdateOne driverErr (filter_of nft) (set_of nft) (setOnInsert_of nft);
  match err with
  | Some e =>
      Printf "Failed to insert NFT data into MongoDB: %v" [ArgError e];;
      mret (Some e)
  | None => mret None
  end.

(** [big.Int.IsInt64] and [big.Int.Int64] *)
Definition IsInt64 (b : Z) : bool := (- 2 ^ 63 <=? b) && (b <=? 2 ^ 63 - 1).
Definition Int64 (b : Z) : Z := wrap_signed 64 b.

(** [BigIntToInt] for an [int] of [bits] bits.  [^int(0)] is the [int]
    with all bits set, that is -1. *)
Definition BigIntToInt_at (bits : Z) (b : Z) : Z * option error :=
  let out_of_range := (0, Some "big.Int value is out of int range"%string) in
  if IsInt64 b then
    let i64 := Int64 b in
    if (wrap_signed 64 (wrap_signed bits (Z.lnot 0)) <=? i64)
       || (i64 <=? wrap_signed 64 (- 2 ^ 63))
    then (wrap_signed bits i64, None)
    else out_of_range
  else out_of_range.

Definition BigIntToInt (b : Z) : Z * option error := BigIntToInt_at intSize b.

(** [CreateIndexes]: a unique index on [nftId].  [driverErr] is the
    failure the driver reports, if any; when the request reaches the
    server, the server refuses to build a unique index over documents two
    of which carry the same key (a document without the field counts as
    carrying null). *)
Definition duplicateKeyText : error := "E11000 duplicate key error"%string.

Definition CreateIndexes (driverErr : option error) : M unit := fun s =>
  match driverErr with
  | Some e => Fatalf "Failed to create index: %v" [ArgError e] s
  | None =>
      if bool_decide (NoDup ((fun d => d !! "nftId"%string) <$> mongo.docs (coll s)))
      then Printf "Unique index created on nftId" [] s
      else Fatalf "Failed to create index: %v" [ArgError duplicateKeyText] s
  end.

(** *** Reading: [Find], the cursor, [Decode] *)

(** The order in which the server compares the values of a sort key:
    a missing field (null) before numbers, numbers before strings, strings
    before object ids, object ids before dates; within a type, by value. *)
Definition bson_rank (v : option mongo.bson) : Z :=
  match v with
  | None => 0
  | Some (mongo.BInt _) => 1
  | Some (mongo.BString _) => 2
  | Some (mongo.BObjectID _) => 3
  | Some (mongo.BDateTime _) => 4
  end.

Definition bson_leb (x y : option mongo.bson) : bool :=
  match x, y with
  | Some (mongo.BInt a), Some (mongo.BInt b) => a <=? b
  | Some (mongo.BString a), Some (mongo.BString b) => String.leb a b
  | Some (mongo.BObjectID a), Some (mongo.BObjectID b) => (a <=? b)%N
  | Some (mongo.BDateTime a), Some (mongo.BDateTime b) => a <=? b
  | _, _ => bson_rank x <=? bson_rank y
  end.

(** Sorting by [{field: -1}]: an insertion sort, largest key first.  (The
    server does not promise an order among equal keys; here they keep
    the order of the collection.) *)
Fixpoint insert_desc (field : string) (x : gmap string mongo.bson)
  (l : list (gmap string mongo.bson)) : list (gmap string mongo.bson) :=
  match l with
  | [] => [x]
  | y :: rest =>
      if bson_leb (y !! field) (x !! field) then x :: y :: rest
      else y :: insert_desc field x rest
  end.

Definition sort_desc (field : string) (l : list (gmap string mongo.bson))
  : list (gmap string mongo.bson) :=
  foldr (insert_desc field) [] l.

(** [collection.Find(ctx, filter, SetSort({nftId: -1}))]: the documents
    the cursor will deliver. *)
Definition Find (filter : gmap string mongo.bson) (c : mongo.Collection)
  : list (gmap string mongo.bson) :=
  sort_desc "nftId" (List.filter (mongo.matches filter) (mongo.docs c)).

(** What the outside world answers to a read: whether [Find] fails, and
    whether the cursor fails when asked for the document after the first
    [i]. *)
Record ReadEnv : Type :=
  { findErr : option error; cursorErr : nat -> option error }.

(** The parts of the driver's struct decoder that are taken as given:
    [strings.ToLower], and what the decoder makes of a value whose BSON
    type is not the one the field is stored with. *)
Record BsonCodec : Type :=
  { ToLower : string -> string;
    decodeOther : string -> mongo.bson -> NFT -> NFT + error }.

(** The [bson] names of the fields of [NFT] *)
Definition fieldTags : list string :=
  ["_id"; "nftId"; "ownerAddress"; "contractAddress"; "tokenUri"; "txHash";
   "timestamp"]%string.

(** The field that an element of a document is decoded into: the one
    tagged with the element's key, else the one tagged with the key in
    lower case, else none (the element is skipped). *)
Definition fieldFor (codec : BsonCodec) (name : string) : option string :=
  if bool_decide (name ∈ fieldTags) then Some name
  else if bool_decide (ToLower codec name ∈ fieldTags) then Some (ToLower codec name)
  else None.

Definition setField (codec : BsonCodec) (tag : string) (v : mongo.bson) (nft : NFT)
  : NFT + error :=
  match tag, v with
  | "_id"%string, mongo.BObjectID n =>
      inl {| ID := n; NftID := NftID nft; OwnerAddress := OwnerAddress nft;
             ContractAddress := ContractAddress nft; TokenUri := TokenUri nft;
             TxHash := TxHash nft; TimeStamp := TimeStamp nft |}
  | "nftId"%string, mongo.BInt z =>
      inl {| ID := ID nft; NftID := z; OwnerAddress := OwnerAddress nft;
             ContractAddress := ContractAddress nft; TokenUri := TokenUri nft;
             TxHash := TxHash nft; TimeStamp := TimeStamp nft |}
  | "ownerAddress"%string, mongo.BString x =>
      inl {| ID := ID nft; NftID := NftID nft; OwnerAddress := x;
             ContractAddress := ContractAddress nft; TokenUri := TokenUri nft;
             TxHash := TxHash nft; TimeStamp := TimeStamp nft |}
  | "contractAddress"%string, mongo.BString x =>
      inl {| ID := ID nft; NftID := NftID nft; OwnerAddress := OwnerAddress nft;
             ContractAddress := x; TokenUri := TokenUri nft;
             TxHash := TxHash nft; TimeStamp := TimeStamp nft |}
  | "tokenUri"%string, mongo.BString x =>
      inl {| ID := ID nft; NftID := NftID nft; OwnerAddress := OwnerAddress nft;
             ContractAddress := ContractAddress nft; TokenUri := x;
             TxHash := TxHash nft; TimeStamp := TimeStamp nft |}
  | "txHash"%string, mongo.BString x =>
      inl {| ID := ID nft; NftID := NftID nft; OwnerAddress := OwnerAddress nft;
             ContractAddress := ContractAddress nft; TokenUri := TokenUri nft;
             TxHash := x; TimeStamp := TimeStamp nft |}
  | "timestamp"%string, mongo.BDateTime x =>
      inl {| ID := ID nft; NftID := NftID nft; OwnerAddress := OwnerAddress nft;
             ContractAddress := ContractAddress nft; TokenUri := TokenUri nft;
             TxHash := TxHash nft; TimeStamp := x |}
  | _, _ => decodeOther codec tag v nft
  end.

Fixpoint decodeElements (codec : BsonCodec) (elems : list (string * mongo.bson))
  (nft : NFT) : NFT + error :=
  match elems with
  | [] => inl nft
  | (name, v) :: rest =>
      match fieldFor codec name with
      | None => decodeElements codec rest nft
      | Some tag =>
          match setField codec tag v nft with
          | inl nft' => decodeElements codec rest nft'
          | inr e => inr e
          end
      end
  end.

Definition zeroNFT : NFT :=
  {| ID := 0%N; NftID := 0; OwnerAddress := ""; ContractAddress := "";
     TokenUri := ""; TxHash := ""; TimeStamp := 0 |}.

(** [cursor.Decode(&nft)] with [nft] the zero value.  The store keeps a
    document as a map; its elements are decoded in the order in which the
    map lists them. *)
Definition Decode (codec : BsonCodec) (d : gmap string mongo.bson) : NFT + error :=
  decodeElements codec (map_to_list d) zeroNFT.

(** The [for cursor.Next(ctx)] loop followed by the [cursor.Err()] check.
    A nil slice is the empty list. *)
Fixpoint drain (codec : BsonCodec) (env : ReadEnv) (i : nat)
  (pending : list (gmap string mongo.bson)) (Nfts : list NFT)
  : M (list NFT * option error) :=
  match cursorErr env i with
  | Some err =>
      Printf "Cursor error: %v" [ArgError err];;
      mret ([], Some err)
  | None =>
      match pending with
      | [] => mret (Nfts, None)
      | d :: rest =>
          match Decode codec d with
          | inr err =>
              Printf "Failed to decode document: %v" [ArgError err];;
              mret ([], Some err)
          | inl nft => drain codec env (S i) rest (Nfts ++ [nft])
          end
      end
  end.

Definition findAndDrain (codec : BsonCodec) (env : ReadEnv)
  (filter : gmap string mongo.bson) : M (list NFT * option error) := fun s =>
  match findErr env with
  | Some err =>
      (Printf "Failed to find documents: %v" [ArgError err];;
       mret ([], Some err)) s
  | None => drain codec env 0 (Find filter (coll s)) [] s
  end.

Definition GetAllNfts (codec : BsonCodec) (env : ReadEnv) : M (list NFT * option error) :=
  findAndDrain codec env ∅.

Definition GetWalletNfts (codec : BsonCodec) (env : ReadEnv) (walletAddress : string)
  : M (list NFT * option error) :=
  findAndDrain codec env {[ "ownerAddress"%string := mongo.BString walletAddress ]}.

End nftModel.

(** ** strconv.ParseInt(s, 10, 64) *)
Module strconv.

Definition digit (c : ascii) : option Z :=
  let n := Z.of_nat (nat_of_ascii c) in
  if (48 <=? n) && (n <=? 57) then Some (n - 48) else None.

(** The digits of [ParseUint], accumulated without a bound; the range
    is checked by the caller. [None] is a syntax error. *)
Fixpoint digits (acc : Z) (s : string) : option Z :=
  match s with
  | EmptyString => Some acc
  | String c r =>
      match digit c with
      | Some d => digits (acc * 10 + d) r
      | None => None
      end
  end.

Definition quote (s : string) : string :=
  let q := String (ascii_of_nat 34) EmptyString in q +:+ s +:+ q.

Definition syntaxError (s : string) : error :=
  "strconv.ParseInt: parsing " +:+ quote s +:+ ": invalid syntax".
Definition rangeError (s : string) : error :=
  "strconv.ParseInt: parsing " +:+ quote s +:+ ": value out of range".

Definition ParseInt (s0 : string) : Z + error :=
  match s0 with
  | EmptyString => inr (syntaxError s0)
  | String c r =>
      let neg := bool_decide (c = "-"%char) in
      let s := if bool_decide (c = "+"%char) || neg then r else s0 in
      match s with
      | EmptyString => inr (syntaxError s0)
      | _ =>
          match digits 0 s with
          | None => inr (syntaxError s0)
          | Some un =>
              let cutoff := 2 ^ 63 in
              if negb neg && (cutoff <=? un) then inr (rangeError s0)
              else if neg && (cutoff <? un) then inr (rangeError s0)
              else inl (if neg then - un else un)
          end
      end
  end.

End strconv.

(** ** package trackingService (pkg/services/transferEventTracker.go) *)
Module trackingService.

(** The [client] and [collection] handles of the Go struct are the
    outside world ([FetchEnv], [CallEnv]) and the [coll] of [Sys]. *)
Record TransferEventTracker : Type :=
  { contractAddrs : list common.Address }.

(** The value [abi.JSON] returns, with a nil error, for the literal
    [transferEventABI]: one event, its three inputs all indexed. *)
Definition transferEventABI : abi.ABI :=
  {| abi.Events :=
       {[ "Transfer"%string :=
            {| abi.EventName := "Transfer";
               abi.Anonymous := false;
               abi.Inputs :=
                 [ {| abi.Name := "from"; abi.T := abi.AddressTy; abi.Indexed := true |};
                   {| abi.Name := "to"; abi.T := abi.AddressTy; abi.Indexed := true |};
                   {| abi.Name := "tokenId"; abi.T := abi.UintTy 256; abi.Indexed := true |} ] |} ]} |}.

Record LogTransfer : Type :=
  { From : common.Address; To : common.Address; TokenId : option Z }.

Definition zeroAddress : common.Address := repeat x00 common.AddressLength.

(** [Arguments.Copy] into a [*LogTransfer]: with no unpacked value the
    struct is left as it is; otherwise each value is stored in the field
    named after its argument. *)
Definition copy_field (arg : abi.Argument) (v : abi.value) (ev : LogTransfer)
  : LogTransfer + error :=
  match abi.Name arg, v with
  | "from"%string, abi.VAddress a =>
      inl {| From := a; To := To ev; TokenId := TokenId ev |}
  | "to"%string, abi.VAddress a =>
      inl {| From := From ev; To := a; TokenId := TokenId ev |}
  | "tokenId"%string, abi.VUint z =>
      inl {| From := From ev; To := To ev; TokenId := Some z |}
  | _, _ => inr ("abi: field " +:+ abi.Name arg +:+ " can't be found in the given value")
  end.

Fixpoint copy_fields (args : list abi.Argument) (vs : list abi.value) (ev : LogTransfer)
  : LogTransfer + error :=
  match args, vs with
  | arg :: args', v :: vs' =>
      match copy_field arg v ev with
      | inl ev' => copy_fields args' vs' ev'
      | inr e => inr e
      end
  | _, _ => inl ev
  end.

Definition Copy (args : list abi.Argument) (vs : list abi.value) (ev : LogTransfer)
  : LogTransfer + error :=
  match vs with
  | [] =>
      match abi.NonIndexed args with
      | [] => inl ev
      | _ :: _ => inr "abi: attempting to copy no values while arguments are expected"
      end
  | _ :: _ => copy_fields (abi.NonIndexed args) vs ev
  end.

(** [ABI.UnpackIntoInterface(&transferEvent, name, data)] *)
Definition UnpackIntoInterface (a : abi.ABI) (ev : LogTransfer) (name : string)
  (data : list byte) : LogTransfer + error :=
  match abi.getArguments a name with
  | inr e => inr e
  | inl args =>
      match abi.Unpack args data with
      | inr e => inr e
      | inl unpacked => Copy args unpacked ev
      end
  end.

(** [s[i]] on a slice: a run-time panic when [i] is out of range *)
Definition index {A} (l : list A) (i : nat) : outcome A :=
  match l !! i with
  | Some x => Returned x
  | None => Panicked "runtime error: index out of range"
  end.

Definition decodeTransferLog (delog : types.Log)
  : outcome (common.Address * option Z * option error) :=
  let contractABI := transferEventABI in
  let transferEvent := {| From := zeroAddress; To := zeroAddress; TokenId := None |} in
  match UnpackIntoInterface contractABI transferEvent "Transfer" (types.Data delog) with
  | inr err =>
      Returned (zeroAddress, None,
                Some (Errorf "failed to unpack Transfer event log" err))
  | inl transferEvent =>
      match index (types.Topics delog) 1 with
      | Panicked r => Panicked r
      | Returned t1 =>
          match index (types.Topics delog) 2 with
          | Panicked r => Panicked r
          | Returned t2 =>
              match index (types.Topics delog) 3 with
              | Panicked r => Panicked r
              | Returned t3 =>
                  let transferEvent :=
                    {| From := common.HexToAddress (common.Hash_Hex t1);
                       To := To transferEvent; TokenId := TokenId transferEvent |} in
                  let transferEvent :=
                    {| From := From transferEvent;
                       To := common.HexToAddress (common.Hash_Hex t2);
                       TokenId := TokenId transferEvent |} in
                  let transferEvent :=
                    {| From := From transferEvent; To := To transferEvent;
                       TokenId := Some (common.Hash_Big t3) |} in
                  Returned (To transferEvent, TokenId transferEvent, None)
              end
          end
      end
  end.

Definition nft_arg (nft : nftModel.NFT) : LogArg :=
  ArgStruct
    [ ("NftID"%string, SInt (nftModel.NftID nft));
      ("OwnerAddress"%string, SString (nftModel.OwnerAddress nft));
      ("ContractAddress"%string, SString (nftModel.ContractAddress nft));
      ("TokenUri"%string, SString (nftModel.TokenUri nft));
      ("TxHash"%string, SString (nftModel.TxHash nft));
      ("TimeStamp"%string, SInt (nftModel.TimeStamp nft)) ].

Definition processTransferLog (env : CallEnv) (delog : types.Log) : M (option error) :=
  '(to, tokenId, err) ← lift (decodeTransferLog delog);
  match err with
  | Some e =>
      Printf "Failed to decode Transfer event log: %v" [ArgError e];;
      mret (Some (Errorf "failed to decode Transfer event log" e))
  | None =>
      match tokenId with
      | None => panic "runtime error: invalid memory address or nil pointer dereference"
      | Some tokenId =>
          let '(tokenIDInt, err) := nftModel.BigIntToInt tokenId in
          match err with
          | Some e =>
              Printf "Failed to convert tokenId to int: %v" [ArgError e];;
              mret (Some (Errorf "failed to convert tokenId to int" e))
          | None =>
              Printf "Processing log for token ID: %s, to address: %s"
                [ArgInt tokenId; ArgString (common.Address_Hex to)];;
              let nft :=
                {| nftModel.ID := 0%N;
                   nftModel.NftID := tokenIDInt;
                   nftModel.OwnerAddress := common.Address_Hex to;
                   nftModel.ContractAddress := common.Address_Hex (types.Address delog);
                   nftModel.TokenUri := "";
                   nftModel.TxHash := common.Hash_Hex (types.TxHash delog);
                   nftModel.TimeStamp := now env |} in
              Printf "NFT object to insert: %+v" [nft_arg nft];;
              err ← nftModel.CreateUpdateNFT (updateOneErr env) nft;
              match err with
              | Some e => Printf "Failed to create/update NFT: %v" [ArgError e]
              | None => mret tt
              end;;
              Printf "Successfully inserted NFT data: %+v" [nft_arg nft];;
              mret None
          end
      end
  end.

(** The [for _, delog := range logs] loops of [TrackTransferEvents] and
    [fetchNewLogs]; [failed] is the format of the line that reports a
    log whose processing returned an error.  The i-th log of the batch is
    processed under [perLog i]. *)
Fixpoint processLogs (failed : string) (env : nat -> CallEnv) (i : nat)
  (logs : list types.Log) : M unit :=
  match logs with
  | [] => mret tt
  | delog :: rest =>
      err ← processTransferLog (env i) delog;
      match err with
      | Some e => Printf failed [ArgError e]
      | None => mret tt
      end;;
      processLogs failed env (S i) rest
  end.

(** [t.client.FilterLogs(ctx, query)]: the request is recorded in
    [issued], the node's answer is returned. *)
Definition FilterLogs (env : FetchEnv) (query : ethereum.FilterQuery)
  : M (list types.Log + error) := fun s =>
  (Returned (filterLogs env query),
   {| coll := coll s; logged := logged s; issued := issued s ++ [query] |}).

Definition fetchNewLogs (t : TransferEventTracker) (env : FetchEnv)
  (transferEventHash : common.Hash) (fromBlock : Z) : M unit :=
  match headerByNumber env with
  | inr err => Printf "Failed to get latest block header: %v\n" [ArgError err]
  | inl latestBlock =>
      let query :=
        {| ethereum.FromBlock := fromBlock;
           ethereum.ToBlock := latestBlock;
           ethereum.Addresses := contractAddrs t;
           ethereum.Topics := [[transferEventHash]] |} in
      r ← FilterLogs env query;
      match r with
      | inr err => Printf "Failed to fetch new Transfer events: %v\n" [ArgError err]
      | inl logs =>
          processLogs "Failed to process new Transfer event log: %v\n" (perLog env) 0 logs
      end
  end.

(** The [for { select { ... } }] loop: one [fetchNewLogs] per tick
    delivered by [ticker.C], always from the same [latestBlock]; when the
    ticks are used up the context is done. *)
Fixpoint pollLoop (t : TransferEventTracker) (transferEventHash : common.Hash)
  (latestBlock : Z) (ticks : list FetchEnv) : M (option error) :=
  match ticks with
  | tick :: rest =>
      fetchNewLogs t tick transferEventHash latestBlock;;
      pollLoop t transferEventHash latestBlock rest
  | [] =>
      Printf "Context done, stopping event tracking" [];;
      mret (Some "context canceled"%string)
  end.

Definition transferEventSignature : list byte :=
  list_byte_of_string "Transfer(address,address,uint256)".

(** [time.NewTicker(d)] panics unless [d] is positive. *)
Definition NewTicker (d : Z) : M unit :=
if 0 <? d then mret tt else panic "non-positive interval for NewTicker".

Definition tenMinutes : Z := 10 * 60 * 1000000000.

(** [getenv] is [os.Getenv] and [ParseDuration] is [time.ParseDuration]
    (a duration is its number of nanoseconds); [startup] is what the node
    answers during the backfill; [ticks] are the ticks delivered before the
    context is cancelled, each with the node's answers at that time. *)
Definition TrackTransferEvents (t : TransferEventTracker) (getenv : string -> string)
  (ParseDuration : string -> Z + error)
  (startup : FetchEnv) (ticks : list FetchEnv) : M (option error) :=
let transferEventHash := crypto.Keccak256Hash transferEventSignature in
let fromBlockStr := getenv "FROM_BLOCK"%string in
if bool_decide (fromBlockStr = ""%string)
then mret (Some "FROM_BLOCK environment variable is not set"%string)
else
  match strconv.ParseInt fromBlockStr with
  | inr err =>
      mret (Some (Errorf "failed to parse FROM_BLOCK environment variable" err))
  | inl fromBlockInt =>
      let startBlock := fromBlockInt in
      match headerByNumber startup with
      | inr err =>
          Printf "Failed to get latest block header: %v\n" [ArgError err];;
          mret (Some err)
      | inl latestBlock =>
          let query :=
            {| ethereum.FromBlock := startBlock;
               ethereum.ToBlock := latestBlock;
               ethereum.Addresses := contractAddrs t;
               ethereum.Topics := [[transferEventHash]] |} in
          r ← FilterLogs startup query;
          match r with
          | inr err =>
              Printf "Failed to fetch historical Transfer events: %v\n" [ArgError err];;
              mret (Some err)
          | inl historicalLogs =>
              processLogs "Failed to process historical Transfer event log: %v\n"
                (perLog startup) 0 historicalLogs;;
              let interval := getenv "FETCH_INTERVAL"%string in
              let interval :=
                if bool_decide (interval = ""%string) then "10m"%string else interval in
              duration ← match ParseDuration interval with
                         | inr err =>
                             Printf "Failed to parse FETCH_INTERVAL: %v, defaulting to 10 minutes\n"
                               [ArgError err];;
                             mret tenMinutes
                         | inl d => mret d
                         end;
              NewTicker duration;;
              pollLoop t transferEventHash latestBlock ticks
          end
      end
  end.

(** What [NewTransferEventTracker] finds around it: whether
    [config.GetCollection] hands out a collection, the driver's verdict on
    the index creation, the error of [ethclient.Dial] if any, and
    [json.Unmarshal] into a slice of strings. *)
Record Bootstrap : Type :=
  { GetCollection : string -> string -> bool;
    createIndexErr : option error;
    Dial : string -> option error;
    Unmarshal : string -> list string + error }.

(** The loop over [addrStrings] *)
Fixpoint parseAddrs (addrStrings : list string) (contractAddrs : list (list byte))
  : M (list (list byte)) :=
  match addrStrings with
  | [] => mret contractAddrs
  | addr :: rest =>
      let parsedAddr := common.HexToAddress addr in
      if bool_decide (parsedAddr = zeroAddress)
      then Printf "Invalid contract address: %s" [ArgString addr];;
           parseAddrs rest contractAddrs
      else parseAddrs rest (contractAddrs ++ [parsedAddr])
  end.

Definition NewTransferEventTracker (getenv : string -> string) (boot : Bootstrap)
  : M (option TransferEventTracker * option error) :=
  let collection := GetCollection boot (getenv "DB_NAME"%string) "NFT"%string in
  (if collection then mret tt else Fatalf "Failed to get MongoDB collection" []);;
  nftModel.CreateIndexes (createIndexErr boot);;
  let rpcEndpoint := getenv "ETH_RPC_ENDPOINT"%string in
  if bool_decide (rpcEndpoint = ""%string)
  then mret (None, Some "ETH_RPC_ENDPOINT environment variable is not set"%string)
  else
    match Dial boot rpcEndpoint with
    | Some err => mret (None, Some (Errorf "error connecting to Ethereum client" err))
    | None =>
        let contractAddrsEnv := getenv "CONTRACT_ADDRESSES"%string in
        if bool_decide (contractAddrsEnv = ""%string)
        then mret (None, Some "CONTRACT_ADDRESSES environment variable is not set"%string)
        else
          match Unmarshal boot contractAddrsEnv with
          | inr err =>
              mret (None,
                    Some (Errorf "failed to parse CONTRACT_ADDRESSES environment variable"
                            err))
          | inl addrStrings =>
              contractAddrs ← parseAddrs addrStrings [];
              if bool_decide (contractAddrs = [])
              then mret (None,
                         Some "no valid contract addresses found in CONTRACT_ADDRESSES environment variable"%string)
              else mret (Some {| contractAddrs := contractAddrs |}, None)
          end
    end.

End trackingService.

(** ** package nftcontroller and net/http's response writer *)
Module nftcontroller.

(** An [http.ResponseWriter]: the header map the handler edits, the
    status and headers that went out with the first [WriteHeader] (later
    calls and later edits of the map do not reach the client), and the
    body written so far. *)
Record ResponseWriter : Type :=
  { header : gmap string (list string);
    sent : option (Z * gmap string (list string));
    body : string }.

Definition newResponse : ResponseWriter :=
  {| header := ∅; sent := None; body := "" |}.

Definition Header_Set (key value : string) (w : ResponseWriter) : ResponseWriter :=
  {| header := <[key := [value]]> (header w); sent := sent w; body := body w |}.

Definition Header_Del (key : string) (w : ResponseWriter) : ResponseWriter :=
  {| header := delete key (header w); sent := sent w; body := body w |}.

Definition WriteHeader (code : Z) (w : ResponseWriter) : ResponseWriter :=
  match sent w with
  | Some _ => w
  | None => {| header := header w; sent := Some (code, header w); body := body w |}
  end.

Definition Write (text : string) (w : ResponseWriter) : ResponseWriter :=
  let w := WriteHeader 200 w in
  {| header := header w; sent := sent w; body := body w +:+ text |}.

Definition newline : string := String (ascii_of_nat 10) EmptyString.

(** [http.Error(w, msg, code)] *)
Definition http_Error (msg : string) (code : Z) (w : ResponseWriter) : ResponseWriter :=
  let w := Header_Del "Content-Length" w in
  let w := Header_Set "Content-Type" "text/plain; charset=utf-8" w in
  let w := Header_Set "X-Content-Type-Options" "nosniff" w in
  let w := WriteHeader code w in
  Write (msg +:+ newline) w.

(** [json.NewEncoder(w).Encode(nfts)]: [Marshal] is [json.Marshal] on a
    slice of [NFT]; nothing is written when it fails. *)
Definition Encode (Marshal : list nftModel.NFT -> string + error)
  (nfts : list nftModel.NFT) (w : ResponseWriter) : ResponseWriter * option error :=
  match Marshal nfts with
  | inr err => (w, Some err)
  | inl text => (Write (text +:+ newline) w, None)
  end.

(** The common tail of the two handlers *)
Definition respond (Marshal : list nftModel.NFT -> string + error)
  (nfts : list nftModel.NFT) (w : ResponseWriter) : M ResponseWriter :=
  let w := Header_Set "Content-Type" "pkglication/json" w in
  let w := WriteHeader 200 w in
  let '(w, err) := Encode Marshal nfts w in
  match err with
  | Some e =>
      Printf "Error encoding nfts: %v" [ArgError e];;
      mret (http_Error "Error encoding NFTs" 500 w)
  | None => mret w
  end.

Definition GetAllNfts (codec : nftModel.BsonCodec) (env : nftModel.ReadEnv)
  (Marshal : list nftModel.NFT -> string + error) (w : ResponseWriter)
  : M ResponseWriter :=
  '(nfts, err) ← nftModel.GetAllNfts codec env;
  match err with
  | Some e => Printf "Error in fecthing nfts: %v" [ArgError e]
  | None => mret tt
  end;;
  respond Marshal nfts w.

(** [vars] is [mux.Vars(r)]; a variable that is not set reads as the
    empty string. *)
Definition GetWalletNfts (codec : nftModel.BsonCodec) (env : nftModel.ReadEnv)
  (Marshal : list nftModel.NFT -> string + error) (vars : gmap string string)
  (w : ResponseWriter) : M ResponseWriter :=
  let walletAddress := default ""%string (vars !! "walletAddress"%string) in
  '(nfts, err) ← nftModel.GetWalletNfts codec env walletAddress;
  match err with
  | Some e => Printf "Error in fetching nfts: %v" [ArgError e]
  | None => mret tt
  end;;
  respond Marshal nfts w.

End nftcontroller.

(** ** Observations on a run *)

Definition run {A} (m : M A) (s : Sys) : outcome A := fst (m s).
Definition exec {A} (m : M A) (s : Sys) : Sys := snd (m s).

Definition sys_of (c : mongo.Collection) : Sys :=
  {| coll := c; logged := []; issued := [] |}.

(** The block range of a request *)
Definition range_of (q : ethereum.FilterQuery) : Z * Z :=
  (ethereum.FromBlock q, ethereum.ToBlock q).

(** The value a document stores under the unique-index key *)
Definition key_of (d : gmap string mongo.bson) : option mongo.bson := d !! "nftId"%string.

(** The unique index on [nftId] that [CreateIndexes] asks for: no two
    documents with the same key. *)
Definition unique_nftId (c : mongo.Collection) : Prop :=
  NoDup (key_of <$> mongo.docs c).

(** The documents filed under token [k] *)
Definition records_for (k : Z) (c : mongo.Collection) : list (gmap string mongo.bson) :=
  filter (fun d => key_of d = Some (mongo.BInt k)) (mongo.docs c).

(** The effect of one [CreateUpdateNFT] that the driver executes *)
Definition upsert (nft : nftModel.NFT) (c : mongo.Collection) : mongo.Collection :=
  mongo.UpdateOne (nftModel.filter_of nft) (nftModel.set_of nft)
    (nftModel.setOnInsert_of nft) true c.

(** [n] calls of [CreateUpdateNFT] with the same receiver, all executed *)
Fixpoint upsertTimes (n : nat) (nft : nftModel.NFT) : M unit :=
  match n with
  | O => mret tt
  | S n' => nftModel.CreateUpdateNFT None nft;; upsertTimes n' nft
  end.

(** A sequence of [CreateUpdateNFT] calls, each with the driver's verdict *)
Fixpoint upsertAll (ops : list (option error * nftModel.NFT)) : M unit :=
  match ops with
  | [] => mret tt
  | (driverErr, nft) :: rest => nftModel.CreateUpdateNFT driverErr nft;; upsertAll rest
  end.

(** The request a fetch sends when the header lookup answers [head] *)
Definition pollQuery (t : trackingService.TransferEventTracker)
  (transferEventHash : list byte) (fromBlock head : Z) : ethereum.FilterQuery :=
  {| ethereum.FromBlock := fromBlock;
     ethereum.ToBlock := head;
     ethereum.Addresses := trackingService.contractAddrs t;
     ethereum.Topics := [[transferEventHash]] |}.

Definition tickQueries (t : trackingService.TransferEventTracker)
  (transferEventHash : list byte) (fromBlock : Z) (ticks : list FetchEnv)
  : list ethereum.FilterQuery :=
  flat_map (fun tick => match headerByNumber tick with
                        | inl head => [pollQuery t transferEventHash fromBlock head]
                        | inr _ => []
                        end) ticks.

(** The log has the four topics that [decodeTransferLog] indexes *)
Definition four_topics (delog : types.Log) : bool :=
  (4 <=? length (types.Topics delog))%nat.



(** A computation that sends no request to the node *)
Definition keeps_issued {A} (m : M A) : Prop :=
  forall s, issued (exec m s) = issued s.

(** The store after a batch in which no log panics: each log in turn,
    a failed decode, conversion or driver call leaving the store as it is. *)
Definition storeAfterLog (env : CallEnv) (delog : types.Log) (c : mongo.Collection)
  : mongo.Collection :=
  match trackingService.decodeTransferLog delog with
  | Returned (to, Some tokenId, None) =>
      match nftModel.BigIntToInt tokenId, updateOneErr env with
      | (n, None), None =>
          upsert {| nftModel.ID := 0%N;
                    nftModel.NftID := n;
                    nftModel.OwnerAddress := common.Address_Hex to;
                    nftModel.ContractAddress := common.Address_Hex (types.Address delog);
                    nftModel.TokenUri := "";
                    nftModel.TxHash := common.Hash_Hex (types.TxHash delog);
                    nftModel.TimeStamp := now env |} c
      | _, _ => c
      end
  | _ => c
  end.

Fixpoint storeAfterLogs (env : nat -> CallEnv) (i : nat) (logs : list types.Log)
  (c : mongo.Collection) : mongo.Collection :=
  match logs with
  | [] => c
  | delog :: rest => storeAfterLogs env (S i) rest (storeAfterLog (env i) delog c)
  end.

(** ** The specification's wording, for comparison with the code *)
Module Spec.

(** Sections 4.1 and 4.4: a tick asks for [cursor+1 .. head] and then
    moves the cursor to [head]; an empty range ([cursor+1 > head]) is not
    fetched. *)
Fixpoint poll_ranges (cursor : Z) (heads : list Z) : list (Z * Z) :=
  match heads with
  | [] => []
  | head :: rest =>
      if cursor + 1 <=? head
      then (cursor + 1, head) :: poll_ranges head rest
      else poll_ranges cursor rest
  end.

(** Section 4.2: the decoder's preconditions *)
Definition decode_precondition (sigHash : common.Hash) (delog : types.Log) : bool :=
  bool_decide (length (types.Topics delog) = 4%nat)
  && bool_decide (types.Topics delog !! 0%nat = Some sigHash).

(** Section 4.2: a violated precondition gives a DecodeError and no fact *)
Definition decode_rejected (r : outcome (common.Address * option Z * option error))
  : Prop :=
  exists a e, r = Returned (a, None, Some e).

(** Section 4.2: [uint256(topic)], the topic read as an unsigned
    big-endian integer: of [n] bytes, the one at place [i] weighs
    [256^(n-1-i)]. *)
Fixpoint uint256 (topic : list byte) : Z :=
  match topic with
  | [] => 0
  | b :: rest => Z_of_byte b * 256 ^ Z.of_nat (length rest) + uint256 rest
  end.

End Spec.

(** ** A small chain, for concrete runs *)
Module Sample.

(** The 32-byte big-endian word of [z] *)
Definition word32 (z : Z) : list byte :=
  map (fun k => byte_of_Z (Z.shiftr z (8 * (31 - Z.of_nat k)))) (seq 0 32).

Definition sigHash : common.Hash :=
  crypto.Keccak256Hash trackingService.transferEventSignature.

Definition contract : common.Address :=
  common.HexToAddress "0xbc4ca0eda7647a8ab7c2061c2e118a18a936f13d".
Definition ownerX : Z := 0x1111111111111111111111111111111111111111.
Definition ownerY : Z := 0x2222222222222222222222222222222222222222.
Definition ownerZ : Z := 0x3333333333333333333333333333333333333333.

Definition transfer (block idx : Z) (from to tokenId : Z) : types.Log :=
  {| types.Address := contract;
     types.Topics := [sigHash; word32 from; word32 to; word32 tokenId];
     types.Data := [];
     types.BlockNumber := block;
     types.TxHash := word32 (block * 1000 + idx);
     types.Index := idx |}.

(** A Transfer log whose token id is carried in the data, not in a
    topic (three topics), as ERC-20 tokens emit it under the same
    signature hash. *)
Definition transfer3 (block idx : Z) (from to value : Z) : types.Log :=
  {| types.Address := contract;
     types.Topics := [sigHash; word32 from; word32 to];
     types.Data := word32 value;
     types.BlockNumber := block;
     types.TxHash := word32 (block * 1000 + idx);
     types.Index := idx |}.

Definition chain : list types.Log :=
  [ transfer 101 0 0 ownerX 7; transfer 104 0 ownerX ownerY 7;
    transfer 108 0 0 ownerZ 9 ].

(** [eth_getLogs] over [chain]: block range, address set, first topic *)
Definition selects (q : ethereum.FilterQuery) (l : types.Log) : bool :=
  (ethereum.FromBlock q <=? types.BlockNumber l)
  && (types.BlockNumber l <=? ethereum.ToBlock q)
  && bool_decide (types.Address l ∈ ethereum.Addresses q)
  && match ethereum.Topics q, types.Topics l with
     | alts :: _, t0 :: _ => bool_decide (t0 ∈ alts)
     | [], _ => true
     | _ :: _, [] => false
     end.

Definition node (logs : list types.Log) (head : Z) (clock : Z) : FetchEnv :=
  {| headerByNumber := inl head;
     filterLogs := fun q => inl (List.filter (selects q) logs);
     perLog := fun i => {| now := clock + Z.of_nat i; updateOneErr := None |} |}.

(** A log like [transfer 104 0 ownerX ownerY 7] whose first topic is
    the zero hash *)
Definition otherEvent : types.Log :=
  {| types.Address := contract;
     types.Topics := [word32 0; word32 ownerX; word32 ownerY; word32 7];
     types.Data := [];
     types.BlockNumber := 104;
     types.TxHash := word32 104000;
     types.Index := 0 |}.

(** Three logs of one fetch; the second has three topics *)
Definition batch3 : list types.Log :=
  [ transfer 106 0 0 ownerX 7; transfer3 107 0 ownerX ownerY 8;
    transfer 108 0 0 ownerZ 9 ].

(** A processing step during which the database is unreachable *)
Definition storeDown : CallEnv :=
  {| now := 5000; updateOneErr := Some "server selection error: context deadline exceeded"%string |}.

Definition tracker : trackingService.TransferEventTracker :=
  {| trackingService.contractAddrs := [contract] |}.

Definition getenv (name : string) : string :=
  if bool_decide (name = "FROM_BLOCK"%string) then "100"%string else ""%string.

(** [time.ParseDuration] on the two values used in the runs below *)
Definition ParseDuration (d : string) : Z + error :=
  if bool_decide (d = "10m"%string) then inl trackingService.tenMinutes
  else if bool_decide (d = "0s"%string) then inl 0
  else inr ("time: invalid duration " +:+ strconv.quote d).

Definition nftX : nftModel.NFT :=
  {| nftModel.ID := 0%N; nftModel.NftID := 7;
     nftModel.OwnerAddress := "0x1111111111111111111111111111111111111111";
     nftModel.ContractAddress := "0xBC4CA0EdA7647A8aB7C2061c2E118A18a936f13D";
     nftModel.TokenUri := "";
     nftModel.TxHash := "0xaa"; nftModel.TimeStamp := 1000 |}.

Definition nftY : nftModel.NFT :=
  {| nftModel.ID := 0%N; nftModel.NftID := 7;
     nftModel.OwnerAddress := "0x2222222222222222222222222222222222222222";
     nftModel.ContractAddress := "0xBC4CA0EdA7647A8aB7C2061c2E118A18a936f13D";
     nftModel.TokenUri := "";
     nftModel.TxHash := "0xbb"; nftModel.TimeStamp := 2000 |}.

End Sample.

(** [delog] with another data payload *)
Definition with_Data (delog : types.Log) (data : list byte) : types.Log :=
  {| types.Address := types.Address delog;
     types.Topics := types.Topics delog;
     types.Data := data;
     types.BlockNumber := types.BlockNumber delog;
     types.TxHash := types.TxHash delog;
     types.Index := types.Index delog |}.

Arguments common.Address_Hex : simpl never.
Arguments common.Hash_Hex : simpl never.
Arguments common.HexToAddress : simpl never.
Arguments common.BytesToAddress : simpl never.
Arguments common.Hash_Big : simpl never.
Arguments crypto.Keccak256 : simpl never.
Arguments crypto.Keccak256Hash : simpl never.
Arguments nftModel.BigIntToInt : simpl never.
Arguments mongo.UpdateOne : simpl never.

(** The document an upsert inserts when no document matches *)
Definition inserted (nft : nftModel.NFT) (oid : N) : gmap string mongo.bson :=
  <["_id"%string := mongo.BObjectID oid]>
    (nftModel.set_of nft ∪ nftModel.setOnInsert_of nft ∪ nftModel.filter_of nft).

(** ** Further observations *)

(** The fields that the [$set] of [CreateUpdateNFT] writes *)
Definition setFields : list string :=
  ["ownerAddress"; "contractAddress"; "txHash"; "timeStamp"]%string.

(** The receivers of the calls that the driver executed *)
Definition executed (ops : list (option error * nftModel.NFT)) : list nftModel.NFT :=
  omap (fun op => match fst op with
                  | None => Some (snd op)
                  | Some _ => None
                  end) ops.

(** The last of [facts] that is about token [k] *)
Definition lastFact (k : Z) (facts : list nftModel.NFT) : option nftModel.NFT :=
  last (filter (fun f => nftModel.NftID f = k) facts).

(** Some document is filed under token [k] *)
Definition has_token (k : Z) (c : mongo.Collection) : bool :=
  bool_decide (Some (mongo.BInt k) ∈ key_of <$> mongo.docs c).

(** The document carries the five fields of the fact *)
Definition holds_fact (d : gmap string mongo.bson) (f : nftModel.NFT) : Prop :=
  d !! "nftId"%string = Some (mongo.BInt (nftModel.NftID f))
  /\ d !! "ownerAddress"%string = Some (mongo.BString (nftModel.OwnerAddress f))
  /\ d !! "contractAddress"%string = Some (mongo.BString (nftModel.ContractAddress f))
  /\ d !! "txHash"%string = Some (mongo.BString (nftModel.TxHash f))
  /\ d !! "timeStamp"%string = Some (mongo.BDateTime (nftModel.TimeStamp f)).

(** One executed upsert per fact, in order *)
Definition applyFacts (facts : list nftModel.NFT) (c : mongo.Collection)
  : mongo.Collection :=
  foldl (fun c f => upsert f c) c facts.

(** The receiver that [processTransferLog] builds from a log decoded to
    the address [to] and the converted token id [n] *)
Definition nftOf (env : CallEnv) (delog : types.Log) (to : list byte) (n : Z)
  : nftModel.NFT :=
  {| nftModel.ID := 0%N;
     nftModel.NftID := n;
     nftModel.OwnerAddress := common.Address_Hex to;
     nftModel.ContractAddress := common.Address_Hex (types.Address delog);
     nftModel.TokenUri := "";
     nftModel.TxHash := common.Hash_Hex (types.TxHash delog);
     nftModel.TimeStamp := now env |}.

Definition rangeErrorText : error := "big.Int value is out of int range"%string.

(** The fact that a log adds to the store, if any: none when its token id
    does not fit or the driver reports a failure (and none for a log that
    cannot be decoded). *)
Definition factOf (env : CallEnv) (delog : types.Log) : option nftModel.NFT :=
  match trackingService.decodeTransferLog delog with
  | Returned (to, Some tokenId, None) =>
      match nftModel.BigIntToInt tokenId, updateOneErr env with
      | (n, None), None => Some (nftOf env delog to n)
      | _, _ => None
      end
  | _ => None
  end.

(** The facts of a batch, in the order of its logs; the i-th log is
    processed under [env i]. *)
Fixpoint factsOf (env : nat -> CallEnv) (i : nat) (logs : list types.Log)
  : list nftModel.NFT :=
  match logs with
  | [] => []
  | delog :: rest =>
      match factOf (env i) delog with
      | Some f => f :: factsOf env (S i) rest
      | None => factsOf env (S i) rest
      end
  end.

(** Two facts that differ at most in their time stamps *)
Definition same_but_time (f f' : nftModel.NFT) : Prop :=
  nftModel.NftID f = nftModel.NftID f'
  /\ nftModel.OwnerAddress f = nftModel.OwnerAddress f'
  /\ nftModel.ContractAddress f = nftModel.ContractAddress f'
  /\ nftModel.TxHash f = nftModel.TxHash f'.

(** The [$set] of a fact applied to a document of its token *)
Definition touch (f : nftModel.NFT) (d : gmap string mongo.bson)
  : gmap string mongo.bson :=
  if decide (key_of d = Some (mongo.BInt (nftModel.NftID f)))
  then nftModel.set_of f ∪ d else d.

Definition refresh (facts : list nftModel.NFT) (d : gmap string mongo.bson)
  : gmap string mongo.bson :=
  foldl (fun d f => touch f d) d facts.

(** The documents without their time stamps *)
Definition untimed (c : mongo.Collection) : list (gmap string mongo.bson) :=
  delete "timeStamp"%string <$> mongo.docs c.

(** The store reached from the empty one by a sequence of
    [CreateUpdateNFT] calls *)
Definition storeOf (ops : list (option error * nftModel.NFT)) : Sys :=
  exec (upsertAll ops) (sys_of mongo.empty).

(** The [NFT] whose fields are those of a document written by the upsert *)
Definition docNFT (d : gmap string mongo.bson) : nftModel.NFT :=
  {| nftModel.ID := match d !! "_id"%string with
                    | Some (mongo.BObjectID n) => n
                    | _ => 0%N
                    end;
     nftModel.NftID := match d !! "nftId"%string with
                       | Some (mongo.BInt z) => z
                       | _ => 0
                       end;
     nftModel.OwnerAddress := match d !! "ownerAddress"%string with
                              | Some (mongo.BString x) => x
                              | _ => ""%string
                              end;
     nftModel.ContractAddress := match d !! "contractAddress"%string with
                                 | Some (mongo.BString x) => x
                                 | _ => ""%string
                                 end;
     nftModel.TokenUri := match d !! "tokenUri"%string with
                          | Some (mongo.BString x) => x
                          | _ => ""%string
                          end;
     nftModel.TxHash := match d !! "txHash"%string with
                        | Some (mongo.BString x) => x
                        | _ => ""%string
                        end;
     nftModel.TimeStamp := match d !! "timeStamp"%string with
                           | Some (mongo.BDateTime t) => t
                           | _ => 0
                           end |}.

(** The read finds the database and the cursor in working order *)
Definition reads_ok (env : nftModel.ReadEnv) : Prop :=
  nftModel.findErr env = None /\ forall i, nftModel.cursorErr env i = None.

(** Largest token id first, no two equal *)
Definition descending (nfts : list nftModel.NFT) : Prop :=
  Sorted (fun a b => nftModel.NftID b < nftModel.NftID a) nfts.

(** Values for concrete runs of the constructor, the reads and the handlers *)
Module Fixture.

(** Lower case on the letters A-Z *)
Definition asciiLower (c : ascii) : ascii :=
  let n := nat_of_ascii c in
  if (65 <=? n)%nat && (n <=? 90)%nat then ascii_of_nat (n + 32) else c.

Fixpoint ToLower (s : string) : string :=
  match s with
  | EmptyString => EmptyString
  | String c r => String (asciiLower c) (ToLower r)
  end.

Definition codec : nftModel.BsonCodec :=
  {| nftModel.ToLower := ToLower;
     nftModel.decodeOther := fun tag _ _ => inr ("cannot decode into " +:+ tag) |}.

Definition readEnv : nftModel.ReadEnv :=
  {| nftModel.findErr := None; nftModel.cursorErr := fun _ => None |}.

Definition dbDown : nftModel.ReadEnv :=
  {| nftModel.findErr := Some "server selection error"%string;
     nftModel.cursorErr := fun _ => None |}.

Definition getenv (name : string) : string :=
  if bool_decide (name = "ETH_RPC_ENDPOINT"%string) then "http://localhost:8545"%string
  else if bool_decide (name = "CONTRACT_ADDRESSES"%string) then "addresses"%string
  else if bool_decide (name = "DB_NAME"%string) then "nft"%string
  else ""%string.

Definition boot : trackingService.Bootstrap :=
  {| trackingService.GetCollection := fun _ _ => true;
     trackingService.createIndexErr := None;
     trackingService.Dial := fun _ => None;
     trackingService.Unmarshal := fun _ =>
       inl ["0xbc4ca0eda7647a8ab7c2061c2e118a18a936f13d"; "not an address"; "0x0"]%string |}.

(** A stand-in for [json.Marshal]: the number of records *)
Definition Marshal (nfts : list nftModel.NFT) : string + error :=
  inl (match nfts with [] => "null" | _ => "[...]" end)%string.

Definition twoFacts : list (option error * nftModel.NFT) :=
  [(None, Sample.nftX); (None, Sample.nftY)].

End Fixture.

(** A document as the upsert writes it *)
Definition written (d : gmap string mongo.bson) : Prop :=
  exists f oid, d = inserted f oid.


(** The status and headers that reach the client of the two handlers *)
Definition jsonOK : option (Z * gmap string (list string)) :=
  Some (200, {[ "Content-Type"%string := ["pkglication/json"%string] ]}).

(** The body the handlers write for a slice of records *)
Definition bodyFor (Marshal : list nftModel.NFT -> string + error)
  (nfts : list nftModel.NFT) : string :=
  match Marshal nfts with
  | inl text => text +:+ nftcontroller.newline
  | inr _ => "Error encoding NFTs" +:+ nftcontroller.newline
  end.

(** * Properties *)

(** ** Test vectors for the hashing and address code *)

Example keccak_empty :
  common.hex_Encode (crypto.Keccak256 []) =
  "c5d2460186f7233c927e7db2dcc703c0e500b653ca82273b7bfad8045d85a470"%string.
Proof. vm_compute. reflexivity. Qed.

Example transfer_signature_hash :
  common.Hash_Hex (crypto.Keccak256Hash trackingService.transferEventSignature) =
  "0xddf252ad1be2c89b69c2b068fc378daa952ba7f163c4a11628f55a4df523b3ef"%string.
Proof. vm_compute. reflexivity. Qed.

Example eip55_checksum :
  common.Address_Hex (common.HexToAddress "0x5aaeb6053f3e94c9b9a09f33669435e7ef1beaed") =
  "0x5aAeb6053F3E94C9b9A09f33669435E7Ef1BeAed"%string.
Proof. vm_compute. reflexivity. Qed.

(** ** Hexadecimal text and addresses *)

Lemma hex_byte_roundtrip (b : byte) :
  common.fromHexChar (common.hexdigit (Z_of_byte b / 16)) = Some (Z_of_byte b / 16)
  /\ common.fromHexChar (common.hexdigit (Z_of_byte b mod 16)) = Some (Z_of_byte b mod 16)
  /\ byte_of_Z (Z_of_byte b / 16 * 16 + Z_of_byte b mod 16) = b.
Proof. destruct b; vm_compute; auto. Qed.

Lemma Hex2Bytes_hex_Encode (bs : list byte) :
  common.Hex2Bytes (common.hex_Encode bs) = bs.
Proof.
  induction bs as [|b bs IH]; [reflexivity|].
  destruct (hex_byte_roundtrip b) as (Hhi & Hlo & Hb).
  cbn [common.hex_Encode common.Hex2Bytes].
  rewrite Hhi, Hlo, Hb, IH. reflexivity.
Qed.

Lemma length_hex_Encode (bs : list byte) :
  String.length (common.hex_Encode bs) = (2 * length bs)%nat.
Proof. induction bs as [|b bs IH]; cbn [common.hex_Encode String.length length]; lia. Qed.

Lemma substring_whole (s : string) : String.substring 0 (String.length s) s = s.
Proof. induction s as [|c s IH]; cbn; [reflexivity | now rewrite IH]. Qed.

Lemma FromHex_hexutil_Encode (bs : list byte) :
  common.FromHex (common.hexutil_Encode bs) = bs.
Proof.
  unfold common.FromHex, common.hexutil_Encode.
  change ("0x" +:+ common.hex_Encode bs)
    with (String "0"%char (String "x"%char (common.hex_Encode bs))).
  change (common.has0xPrefix (String "0"%char (String "x"%char (common.hex_Encode bs))))
    with true.
  cbn [String.length Nat.sub String.substring].
  rewrite Nat.sub_0_r, substring_whole, length_hex_Encode.
  replace (Nat.odd (2 * length bs)) with false.
  - apply Hex2Bytes_hex_Encode.
  - symmetry. rewrite <- Nat.negb_even, Nat.even_mul. reflexivity.
Qed.

(** [common.HexToAddress(h.Hex())] is the address in the low-order 20
    bytes of [h]. *)
Lemma HexToAddress_Hash_Hex (h : list byte) :
  common.HexToAddress (common.Hash_Hex h) = common.BytesToAddress h.
Proof. unfold common.HexToAddress, common.Hash_Hex. now rewrite FromHex_hexutil_Encode. Qed.

Lemma BytesToAddress_word (h : list byte) :
  length h = common.HashLength -> common.BytesToAddress h = drop 12 h.
Proof.
  intros Hlen. unfold common.BytesToAddress, common.AddressLength, common.HashLength in *.
  rewrite Hlen. cbn [Nat.ltb Nat.leb Nat.sub].
  rewrite length_skipn, Hlen. reflexivity.
Qed.

Lemma length_BytesToAddress (b : list byte) :
  length (common.BytesToAddress b) = common.AddressLength.
Proof.
  unfold common.BytesToAddress, common.AddressLength.
  destruct (20 <? length b)%nat eqn:E.
  - apply Nat.ltb_lt in E. rewrite length_app, repeat_length, length_skipn. lia.
  - apply Nat.ltb_ge in E. rewrite length_app, repeat_length. lia.
Qed.

Lemma Z_of_byte_range (b : byte) : 0 <= Z_of_byte b < 256.
Proof.
  destruct b; vm_compute; split; (reflexivity || discriminate).
Qed.

Lemma SetBytes_fold_range (b : list byte) (acc : Z) :
  0 <= acc ->
  0 <= fold_left (fun a x => a * 256 + Z_of_byte x) b acc
     < (acc + 1) * 256 ^ Z.of_nat (length b).
Proof.
  revert acc. induction b as [|x b IH]; intros acc Hacc.
  - cbn. lia.
  - cbn [fold_left length]. pose proof (Z_of_byte_range x) as Hx.
    specialize (IH (acc * 256 + Z_of_byte x) ltac:(lia)).
    rewrite Nat2Z.inj_succ, Z.pow_succ_r by lia.
    destruct IH as [IH1 IH2]. split; [exact IH1|].
    eapply Z.lt_le_trans; [exact IH2|].
    assert (0 <= 256 ^ Z.of_nat (length b)) by (apply Z.pow_nonneg; lia).
    nia.
Qed.

(** [Hash.Big] of a 32-byte topic is an unsigned 256-bit integer. *)
Lemma Hash_Big_range (h : list byte) :
  length h = common.HashLength -> 0 <= common.Hash_Big h < 2 ^ 256.
Proof.
  intros Hlen. unfold common.Hash_Big, common.SetBytes.
  pose proof (SetBytes_fold_range h 0 ltac:(lia)) as H.
  rewrite Hlen in H. unfold common.HashLength in H.
  change (256 ^ Z.of_nat 32) with (2 ^ 256) in H. lia.
Qed.

(** ** The decoder *)

(** Every input of the Transfer event is indexed, so unpacking the data
    payload stores nothing and cannot fail. *)
Lemma UnpackIntoInterface_Transfer (ev : trackingService.LogTransfer) (data : list byte) :
  trackingService.UnpackIntoInterface trackingService.transferEventABI ev "Transfer" data
  = inl ev.
Proof.
  unfold trackingService.UnpackIntoInterface, abi.getArguments,
    trackingService.transferEventABI.
  cbn [abi.Events]. rewrite lookup_singleton_eq. cbn [abi.Inputs].
  destruct data; reflexivity.
Qed.

Lemma index_lookup {A} (l : list A) (i : nat) (x : A) :
  l !! i = Some x -> trackingService.index l i = Returned x.
Proof. unfold trackingService.index. now intros ->. Qed.

Lemma decodeTransferLog_topics (delog : types.Log) (t1 t2 t3 : list byte) :
  types.Topics delog !! 1%nat = Some t1 ->
  types.Topics delog !! 2%nat = Some t2 ->
  types.Topics delog !! 3%nat = Some t3 ->
  trackingService.decodeTransferLog delog
  = Returned (common.BytesToAddress t2, Some (common.Hash_Big t3), None).
Proof.
  intros H1 H2 H3. unfold trackingService.decodeTransferLog.
  rewrite UnpackIntoInterface_Transfer.
  rewrite (index_lookup _ _ _ H1), (index_lookup _ _ _ H2), (index_lookup _ _ _ H3).
  cbn [trackingService.To trackingService.TokenId trackingService.From].
  now rewrite HexToAddress_Hash_Hex.
Qed.

Lemma decodeTransferLog_ge4 (delog : types.Log) :
  (4 <= length (types.Topics delog))%nat ->
  exists t2 t3,
    types.Topics delog !! 2%nat = Some t2 /\
    types.Topics delog !! 3%nat = Some t3 /\
    trackingService.decodeTransferLog delog
    = Returned (common.BytesToAddress t2, Some (common.Hash_Big t3), None).
Proof.
  intros Hlen.
  destruct (types.Topics delog) as [|t0 [|t1 [|t2 [|t3 rest]]]] eqn:E;
    cbn [length] in Hlen; try lia.
  exists t2, t3. split; [reflexivity|]. split; [reflexivity|].
  apply (decodeTransferLog_topics delog t1 t2 t3); now rewrite E.
Qed.

Lemma decodeTransferLog_lt4 (delog : types.Log) :
  (length (types.Topics delog) < 4)%nat ->
  trackingService.decodeTransferLog delog = Panicked "runtime error: index out of range".
Proof.
  intros Hlen. unfold trackingService.decodeTransferLog.
  rewrite UnpackIntoInterface_Transfer. unfold trackingService.index.
  destruct (types.Topics delog) as [|t0 [|t1 [|t2 [|t3 rest]]]];
    cbn [length] in Hlen; try lia; reflexivity.
Qed.

Lemma SetBytes_fold_uint256 (b : list byte) (acc : Z) :
  fold_left (fun a x => a * 256 + Z_of_byte x) b acc
  = acc * 256 ^ Z.of_nat (length b) + Spec.uint256 b.
Proof.
  revert acc. induction b as [|x b IH]; intros acc.
  - cbn. lia.
  - cbn [fold_left length Spec.uint256].
    rewrite IH, Nat2Z.inj_succ, Z.pow_succ_r by lia. ring.
Qed.

(** [Hash.Big] is the positional value of the bytes, first byte highest. *)
Lemma Hash_Big_uint256 (h : list byte) : common.Hash_Big h = Spec.uint256 h.
Proof.
  unfold common.Hash_Big, common.SetBytes. rewrite SetBytes_fold_uint256. lia.
Qed.

Lemma uint256_range (b : list byte) :
  0 <= Spec.uint256 b < 256 ^ Z.of_nat (length b).
Proof.
  pose proof (SetBytes_fold_range b 0 ltac:(lia)) as H.
  rewrite SetBytes_fold_uint256 in H. lia.
Qed.

Lemma byte_of_Z_of_byte (b : byte) : byte_of_Z (Z_of_byte b) = b.
Proof. destruct b; reflexivity. Qed.

Lemma byte_of_Z_add_mul (z y : Z) : byte_of_Z (z + y * 256) = byte_of_Z z.
Proof. unfold byte_of_Z. now rewrite Z_mod_plus_full. Qed.

Lemma shiftr_bytes (z : Z) (j : nat) :
  Z.shiftr z (8 * Z.of_nat j) = z / 256 ^ Z.of_nat j.
Proof.
  rewrite Z.shiftr_div_pow2 by lia. rewrite Z.pow_mul_r by lia. reflexivity.
Qed.

(** Writing the value back as bytes, highest first, gives the bytes. *)
Lemma bytes_of_uint256 (l : list byte) :
  map (fun k => byte_of_Z
                  (Z.shiftr (Spec.uint256 l)
                     (8 * (Z.of_nat (length l) - 1 - Z.of_nat k))))
    (seq 0 (length l)) = l.
Proof.
  induction l as [|b rest IH]; [reflexivity|].
  set (m := length rest) in *.
  pose proof (uint256_range rest) as Hu. fold m in Hu.
  assert (Hpos : forall j : nat, 0 < 256 ^ Z.of_nat j) by (intros j; apply Z.pow_pos_nonneg; lia).
  cbn [length Spec.uint256]. fold m. cbn [seq map]. f_equal.
  - replace (Z.of_nat (S m) - 1 - Z.of_nat 0) with (Z.of_nat m) by lia.
    rewrite shiftr_bytes, Z.div_add_l by (specialize (Hpos m); lia).
    rewrite Z.div_small by lia. rewrite Z.add_0_r. apply byte_of_Z_of_byte.
  - rewrite <- seq_shift, map_map. etransitivity; [|exact IH].
    apply map_ext_in. intros k Hk. apply in_seq in Hk.
    replace (Z.of_nat (S m) - 1 - Z.of_nat (S k)) with (Z.of_nat (m - 1 - k)) by lia.
    replace (Z.of_nat m - 1 - Z.of_nat k) with (Z.of_nat (m - 1 - k)) by lia.
    rewrite !shiftr_bytes.
    replace (Z_of_byte b * 256 ^ Z.of_nat m)
      with (Z_of_byte b * 256 ^ Z.of_nat k * 256 * 256 ^ Z.of_nat (m - 1 - k)).
    + rewrite Z.div_add_l by (specialize (Hpos (m - 1 - k)%nat); lia).
      rewrite Z.add_comm. apply byte_of_Z_add_mul.
    + assert (E : 256 ^ Z.of_nat m
                  = 256 ^ Z.of_nat k * 256 * 256 ^ Z.of_nat (m - 1 - k)).
      { replace (Z.of_nat m) with (Z.of_nat k + 1 + Z.of_nat (m - 1 - k)) at 1 by lia.
        rewrite !Z.pow_add_r by lia. ring. }
      rewrite E. ring.
Qed.

Lemma word32_uint256 (t : list byte) :
  length t = common.HashLength -> Sample.word32 (Spec.uint256 t) = t.
Proof.
  intros Hlen. pose proof (bytes_of_uint256 t) as H.
  rewrite Hlen in H. exact H.
Qed.

(** C4: a log with topics [sigHash; from; to; tokenId] decodes to the
    address in the low-order 20 bytes of [to] and to the unsigned 256-bit
    integer of [tokenId], that is the big-endian value of its 32 bytes (the
    number which, written back as 32 bytes, is the topic); the data payload
    plays no part and cannot make the decode fail. *)
Theorem decode_from_topics (delog : types.Log) (t0 t1 t2 t3 : list byte) :
  types.Topics delog = [t0; t1; t2; t3] ->
  trackingService.decodeTransferLog delog
    = Returned (common.BytesToAddress t2, Some (Spec.uint256 t3), None)
  /\ Spec.uint256 t3 = common.Hash_Big t3
  /\ (forall data, trackingService.decodeTransferLog (with_Data delog data)
                   = trackingService.decodeTransferLog delog)
  /\ (length t2 = common.HashLength -> common.BytesToAddress t2 = drop 12 t2)
  /\ (length t3 = common.HashLength ->
      0 <= Spec.uint256 t3 < 2 ^ 256 /\ Sample.word32 (Spec.uint256 t3) = t3).
Proof.
  intros Ht.
  assert (Hd : forall d, types.Topics d = [t0; t1; t2; t3] ->
                 trackingService.decodeTransferLog d
                 = Returned (common.BytesToAddress t2, Some (Spec.uint256 t3), None)).
  { intros d Hd. rewrite <- Hash_Big_uint256.
    apply (decodeTransferLog_topics d t1 t2 t3); now rewrite Hd. }
  split; [now apply Hd|]. split; [symmetry; apply Hash_Big_uint256|]. split.
  - intros data. rewrite (Hd delog Ht). now apply Hd.
  - split; [apply BytesToAddress_word|]. intros Hlen. split.
    + rewrite <- Hash_Big_uint256. now apply Hash_Big_range.
    + now apply word32_uint256.
Qed.

Lemma decode_from_topics_witness :
  types.Topics (Sample.transfer 104 0 Sample.ownerX Sample.ownerY 7)
  = [Sample.sigHash; Sample.word32 Sample.ownerX; Sample.word32 Sample.ownerY;
     Sample.word32 7]
  /\ trackingService.decodeTransferLog (Sample.transfer 104 0 Sample.ownerX Sample.ownerY 7)
     = Returned (repeat x22 20, Some 7, None).
Proof.
  split; [reflexivity|].
  rewrite (proj1 (decode_from_topics
                    (Sample.transfer 104 0 Sample.ownerX Sample.ownerY 7)
                    Sample.sigHash (Sample.word32 Sample.ownerX)
                    (Sample.word32 Sample.ownerY) (Sample.word32 7) eq_refl)).
  vm_compute. reflexivity.
Defined.

(** C2, as the code has it: the decoder checks neither the first topic nor
    the number of topics.  Every log with at least four topics decodes,
    whatever its first topic, to the fact built from its third and fourth
    topics; it is not rejected. *)
Theorem decode_ignores_first_topic (delog : types.Log) :
  (4 <= length (types.Topics delog))%nat ->
  (exists t2 t3,
     types.Topics delog !! 2%nat = Some t2 /\
     types.Topics delog !! 3%nat = Some t3 /\
     trackingService.decodeTransferLog delog
     = Returned (common.BytesToAddress t2, Some (common.Hash_Big t3), None))
  /\ ~ Spec.decode_rejected (trackingService.decodeTransferLog delog).
Proof.
  intros Hlen. destruct (decodeTransferLog_ge4 delog Hlen) as (t2 & t3 & H2 & H3 & Hd).
  split; [now exists t2, t3|].
  rewrite Hd. intros (a & e & Habs). discriminate Habs.
Qed.

Lemma decode_ignores_first_topic_witness :
  (4 <= length (types.Topics Sample.otherEvent))%nat
  /\ ~ Spec.decode_rejected (trackingService.decodeTransferLog Sample.otherEvent).
Proof.
  split; [cbn; lia|].
  apply (decode_ignores_first_topic Sample.otherEvent). cbn; lia.
Defined.

(** C2 as stated fails: a log whose first topic is not the signature hash
    violates the decoder's precondition, yet it is decoded into a fact. *)
Lemma decode_accepts_other_event :
  Spec.decode_precondition Sample.sigHash Sample.otherEvent = false
  /\ trackingService.decodeTransferLog Sample.otherEvent
     = Returned (common.BytesToAddress (Sample.word32 Sample.ownerY), Some 7, None)
  /\ ~ Spec.decode_rejected (trackingService.decodeTransferLog Sample.otherEvent).
Proof.
  split; [vm_compute; reflexivity|]. split; [vm_compute; reflexivity|].
  intros (a & e & Habs). vm_compute in Habs. discriminate Habs.
Qed.

(** ** The collection under [UpdateOne] *)

Lemma matches_filter_of (nft : nftModel.NFT) (d : gmap string mongo.bson) :
  mongo.matches (nftModel.filter_of nft) d = true
  <-> key_of d = Some (mongo.BInt (nftModel.NftID nft)).
Proof.
  unfold mongo.matches, nftModel.filter_of, key_of.
  rewrite bool_decide_eq_true, map_Forall_singleton. reflexivity.
Qed.

Lemma matches_filter_of_false (nft : nftModel.NFT) (d : gmap string mongo.bson) :
  mongo.matches (nftModel.filter_of nft) d = false
  <-> key_of d <> Some (mongo.BInt (nftModel.NftID nft)).
Proof.
  rewrite <- matches_filter_of. destruct (mongo.matches _ d); split; congruence.
Qed.

Lemma set_of_no_key (nft : nftModel.NFT) : nftModel.set_of nft !! "nftId"%string = None.
Proof. reflexivity. Qed.

Lemma set_of_no_id (nft : nftModel.NFT) : nftModel.set_of nft !! "_id"%string = None.
Proof. reflexivity. Qed.

Lemma key_of_set_union (nft : nftModel.NFT) (d : gmap string mongo.bson) :
  key_of (nftModel.set_of nft ∪ d) = key_of d.
Proof. unfold key_of. apply lookup_union_r, set_of_no_key. Qed.

Lemma key_of_inserted (nft : nftModel.NFT) (oid : N) :
  key_of (inserted nft oid) = Some (mongo.BInt (nftModel.NftID nft)).
Proof. reflexivity. Qed.

Lemma set_of_subseteq_inserted (nft : nftModel.NFT) (oid : N) :
  nftModel.set_of nft ⊆ inserted nft oid.
Proof.
  unfold inserted. apply insert_subseteq_r; [apply set_of_no_id|].
  rewrite <- (assoc_L (∪)). apply map_union_subseteq_l.
Qed.

Section UpdateFirst.
Variables filter set : gmap string mongo.bson.

Lemma update_first_none (ds : list (gmap string mongo.bson)) :
  Forall (fun d => mongo.matches filter d = false) ds ->
  mongo.update_first filter set ds = None.
Proof.
  induction 1 as [|d ds Hd _ IH]; [reflexivity|].
  cbn [mongo.update_first]. now rewrite Hd, IH.
Qed.

Lemma update_first_at (pre post : list (gmap string mongo.bson))
  (d : gmap string mongo.bson) :
  Forall (fun d => mongo.matches filter d = false) pre ->
  mongo.matches filter d = true ->
  mongo.update_first filter set (pre ++ d :: post) = Some (pre ++ (set ∪ d) :: post).
Proof.
  intros Hpre Hd. induction Hpre as [|x pre Hx _ IH]; cbn [app mongo.update_first].
  - now rewrite Hd.
  - now rewrite Hx, IH.
Qed.

Lemma update_first_split (ds : list (gmap string mongo.bson)) :
  Forall (fun d => mongo.matches filter d = false) ds
  \/ exists pre d post,
       ds = pre ++ d :: post
       /\ Forall (fun d => mongo.matches filter d = false) pre
       /\ mongo.matches filter d = true.
Proof.
  induction ds as [|x ds IH]; [left; constructor|].
  destruct (mongo.matches filter x) eqn:Hx.
  - right. exists [], x, ds. split_and!; [reflexivity | constructor | exact Hx].
  - destruct IH as [IH | (pre & d & post & -> & Hpre & Hd)].
    + left. now constructor.
    + right. exists (x :: pre), d, post.
      split_and!; [reflexivity | now constructor | exact Hd].
Qed.
End UpdateFirst.

(** The two ways an upsert goes: no document carries the key and one is
    appended, or the first document carrying it is updated in place. *)
Lemma upsert_insert (nft : nftModel.NFT) (c : mongo.Collection) :
  Forall (fun d => key_of d <> Some (mongo.BInt (nftModel.NftID nft))) (mongo.docs c) ->
  upsert nft c
  = {| mongo.docs := mongo.docs c ++ [inserted nft (mongo.next_oid c)];
       mongo.next_oid := N.succ (mongo.next_oid c) |}.
Proof.
  intros H. unfold upsert, mongo.UpdateOne.
  rewrite update_first_none; [reflexivity|].
  eapply Forall_impl; [exact H|]. intros d. apply matches_filter_of_false.
Qed.

Lemma upsert_update (nft : nftModel.NFT) (c : mongo.Collection)
  (pre post : list (gmap string mongo.bson)) (d : gmap string mongo.bson) :
  mongo.docs c = pre ++ d :: post ->
  Forall (fun d => key_of d <> Some (mongo.BInt (nftModel.NftID nft))) pre ->
  key_of d = Some (mongo.BInt (nftModel.NftID nft)) ->
  upsert nft c
  = {| mongo.docs := pre ++ (nftModel.set_of nft ∪ d) :: post;
       mongo.next_oid := mongo.next_oid c |}.
Proof.
  intros Hc Hpre Hd. unfold upsert, mongo.UpdateOne.
  rewrite Hc, update_first_at; [reflexivity| |now apply matches_filter_of].
  eapply Forall_impl; [exact Hpre|]. intros x. apply matches_filter_of_false.
Qed.

Lemma upsert_cases (nft : nftModel.NFT) (c : mongo.Collection) :
  (Forall (fun d => key_of d <> Some (mongo.BInt (nftModel.NftID nft))) (mongo.docs c)
   /\ upsert nft c
      = {| mongo.docs := mongo.docs c ++ [inserted nft (mongo.next_oid c)];
           mongo.next_oid := N.succ (mongo.next_oid c) |})
  \/ (exists pre d post,
        mongo.docs c = pre ++ d :: post
        /\ Forall (fun d => key_of d <> Some (mongo.BInt (nftModel.NftID nft))) pre
        /\ key_of d = Some (mongo.BInt (nftModel.NftID nft))
        /\ upsert nft c
           = {| mongo.docs := pre ++ (nftModel.set_of nft ∪ d) :: post;
                mongo.next_oid := mongo.next_oid c |}).
Proof.
  destruct (update_first_split (nftModel.filter_of nft) (mongo.docs c))
    as [Hnone | (pre & d & post & Hc & Hpre & Hd)].
  - assert (Forall (fun d => key_of d <> Some (mongo.BInt (nftModel.NftID nft)))
              (mongo.docs c)) as H.
    { eapply Forall_impl; [exact Hnone|]. intros x. apply matches_filter_of_false. }
    left. split; [exact H | now apply upsert_insert].
  - assert (Forall (fun d => key_of d <> Some (mongo.BInt (nftModel.NftID nft))) pre) as H.
    { eapply Forall_impl; [exact Hpre|]. intros x. apply matches_filter_of_false. }
    apply matches_filter_of in Hd.
    right. exists pre, d, post. split_and!; try assumption.
    now apply upsert_update.
Qed.

(** After an upsert the first document carrying the key holds every field
    of the fact. *)
Lemma upsert_shape (nft : nftModel.NFT) (c : mongo.Collection) :
  exists pre d post,
    mongo.docs (upsert nft c) = pre ++ d :: post
    /\ Forall (fun d => key_of d <> Some (mongo.BInt (nftModel.NftID nft))) pre
    /\ key_of d = Some (mongo.BInt (nftModel.NftID nft))
    /\ nftModel.set_of nft ⊆ d.
Proof.
  destruct (upsert_cases nft c) as [(Hnone & ->) | (pre & d & post & Hc & Hpre & Hd & ->)].
  - exists (mongo.docs c), (inserted nft (mongo.next_oid c)), [].
    split_and!; [now rewrite app_nil_r || reflexivity | exact Hnone
                | apply key_of_inserted | apply set_of_subseteq_inserted].
  - exists pre, (nftModel.set_of nft ∪ d), post.
    split_and!; [reflexivity | exact Hpre | now rewrite key_of_set_union
                | apply map_union_subseteq_l].
Qed.

(** The keys after an upsert: those before, in place, and at most one new
    key at the end, which no earlier document carries. *)
Lemma upsert_keys (nft : nftModel.NFT) (c : mongo.Collection) :
  exists extra,
    key_of <$> mongo.docs (upsert nft c) = (key_of <$> mongo.docs c) ++ extra
    /\ (extra = []
        \/ (extra = [Some (mongo.BInt (nftModel.NftID nft))]
            /\ Some (mongo.BInt (nftModel.NftID nft)) ∉ key_of <$> mongo.docs c)).
Proof.
  destruct (upsert_cases nft c) as [(Hnone & ->) | (pre & d & post & Hc & Hpre & Hd & ->)].
  - exists [Some (mongo.BInt (nftModel.NftID nft))]. cbn [mongo.docs]. split.
    + now rewrite fmap_app.
    + right. split; [reflexivity|].
      intros (d & Hk & Hin)%list_elem_of_fmap.
      rewrite Forall_forall in Hnone. now apply (Hnone d Hin).
  - exists []. cbn [mongo.docs]. split; [|now left].
    rewrite Hc, app_nil_r, !fmap_app, !fmap_cons. now rewrite key_of_set_union.
Qed.

Lemma upsert_unique (nft : nftModel.NFT) (c : mongo.Collection) :
  unique_nftId c -> unique_nftId (upsert nft c).
Proof.
  unfold unique_nftId. intros Hu.
  destruct (upsert_keys nft c) as (extra & -> & [-> | [-> Hfresh]]).
  - now rewrite app_nil_r.
  - apply NoDup_app. split; [exact Hu|]. split; [|apply NoDup_singleton].
    intros k Hk ->%list_elem_of_singleton. contradiction.
Qed.

Lemma upsert_idem (nft : nftModel.NFT) (c : mongo.Collection) :
  upsert nft (upsert nft c) = upsert nft c.
Proof.
  destruct (upsert_shape nft c) as (pre & d & post & Hdocs & Hpre & Hd & Hsub).
  rewrite (upsert_update nft (upsert nft c) pre post d Hdocs Hpre Hd).
  rewrite (map_subseteq_union _ _ Hsub), <- Hdocs.
  now destruct (upsert nft c).
Qed.

(** ** [CreateUpdateNFT] *)

Lemma CreateUpdateNFT_done (nft : nftModel.NFT) (s : Sys) :
  nftModel.CreateUpdateNFT None nft s
  = (Returned None,
     {| coll := upsert nft (coll s); logged := logged s; issued := issued s |}).
Proof. reflexivity. Qed.

Lemma CreateUpdateNFT_failed (e : error) (nft : nftModel.NFT) (s : Sys) :
  nftModel.CreateUpdateNFT (Some e) nft s
  = (Returned (Some e),
     {| coll := coll s;
        logged := logged s ++
          [ {| format := "Failed to insert NFT data into MongoDB: %v";
               args := [ArgError e] |} ];
        issued := issued s |}).
Proof. reflexivity. Qed.

Lemma CreateUpdateNFT_coll (driverErr : option error) (nft : nftModel.NFT) (s : Sys) :
  coll (exec (nftModel.CreateUpdateNFT driverErr nft) s)
  = match driverErr with
    | None => upsert nft (coll s)
    | Some _ => coll s
    end.
Proof. destruct driverErr; reflexivity. Qed.

Lemma upsertTimes_coll (n : nat) (nft : nftModel.NFT) (s : Sys) :
  coll (exec (upsertTimes (S n) nft) s) = upsert nft (coll s).
Proof.
  revert s. induction n as [|n IH]; intros s.
  - reflexivity.
  - change (exec (upsertTimes (S (S n)) nft) s)
      with (exec (upsertTimes (S n) nft)
              {| coll := upsert nft (coll s); logged := logged s; issued := issued s |}).
    rewrite IH. cbn [coll]. apply upsert_idem.
Qed.

Lemma upsertAll_cons (v : option error) (nft : nftModel.NFT)
  (ops : list (option error * nftModel.NFT)) (s : Sys) :
  exec (upsertAll ((v, nft) :: ops)) s
  = exec (upsertAll ops) (exec (nftModel.CreateUpdateNFT v nft) s).
Proof. destruct v; reflexivity. Qed.

(** Calls that the driver reports as failed change nothing, so the same
    holds of any sequence of calls of which at least one is executed. *)
Lemma upsertAll_same_coll (nft : nftModel.NFT) (verdicts : list (option error)) (s : Sys) :
  coll (exec (upsertAll ((fun v => (v, nft)) <$> verdicts)) s)
  = if bool_decide (None ∈ verdicts) then upsert nft (coll s) else coll s.
Proof.
  revert s. induction verdicts as [|v vs IH]; intros s; [reflexivity|].
  rewrite fmap_cons, upsertAll_cons, IH, CreateUpdateNFT_coll. destruct v as [e|].
  - rewrite (bool_decide_ext (None ∈ Some e :: vs) (None ∈ vs)); [reflexivity|].
    rewrite elem_of_cons. split; [intros [?|?]; [discriminate|assumption] | now right].
  - rewrite (bool_decide_eq_true_2 (None ∈ None :: vs)) by apply list_elem_of_here.
    destruct (bool_decide (None ∈ vs)); [apply upsert_idem | reflexivity].
Qed.

Lemma filter_key_none (k : Z) (ds : list (gmap string mongo.bson)) :
  Forall (fun d => key_of d <> Some (mongo.BInt k)) ds ->
  filter (fun d => key_of d = Some (mongo.BInt k)) ds = [].
Proof.
  induction 1 as [|d ds Hd _ IH]; [reflexivity|].
  now rewrite filter_cons_False.
Qed.

(** The time stamp is part of the receiver: the same log processed again
    at a later time is a different upsert and replaces [timeStamp]. *)
Remark reprocessing_restamps :
  let delog := Sample.transfer 104 0 Sample.ownerX Sample.ownerY 7 in
  let at_ t := {| now := t; updateOneErr := None |} in
  let once := exec (trackingService.processTransferLog (at_ 5000) delog)
                (sys_of mongo.empty) in
  let twice := exec (trackingService.processTransferLog (at_ 6000) delog) once in
  (fun d => d !! "timeStamp"%string) <$> mongo.docs (coll once)
    = [Some (mongo.BDateTime 5000)]
  /\ (fun d => d !! "timeStamp"%string) <$> mongo.docs (coll twice)
     = [Some (mongo.BDateTime 6000)]
  /\ (fun d => map_to_list (delete "timeStamp"%string d)) <$> mongo.docs (coll twice)
     = (fun d => map_to_list (delete "timeStamp"%string d)) <$> mongo.docs (coll once).
Proof. vm_compute. split_and!; reflexivity. Qed.

Lemma records_for_at (k : Z) (pre post : list (gmap string mongo.bson))
  (d : gmap string mongo.bson) (oid : N) :
  Forall (fun d => key_of d <> Some (mongo.BInt k)) pre ->
  Forall (fun d => key_of d <> Some (mongo.BInt k)) post ->
  key_of d = Some (mongo.BInt k) ->
  records_for k {| mongo.docs := pre ++ d :: post; mongo.next_oid := oid |} = [d].
Proof.
  intros Hpre Hpost Hd. unfold records_for. cbn [mongo.docs].
  rewrite filter_app, filter_cons_True by exact Hd.
  now rewrite (filter_key_none k pre Hpre), (filter_key_none k post Hpost).
Qed.

Lemma unique_after (k : option mongo.bson) (pre post : list (gmap string mongo.bson))
  (d : gmap string mongo.bson) :
  NoDup (key_of <$> (pre ++ d :: post)) -> key_of d = k ->
  Forall (fun d => key_of d <> k) post.
Proof.
  rewrite fmap_app, fmap_cons. intros (_ & _ & Hnd)%NoDup_app Hd.
  apply NoDup_cons in Hnd as [Hnotin _].
  apply Forall_forall. intros x Hx Hk. apply Hnotin.
  apply list_elem_of_fmap. exists x. split; [congruence | exact Hx].
Qed.

(** C7: two facts for the same token applied one after the other leave
    exactly one document for the token, and its owner, contract,
    transaction hash and time stamp are those of the second fact. *)
Theorem upsert_last_fact_wins (x y : nftModel.NFT) (s : Sys) :
  unique_nftId (coll s) ->
  nftModel.NftID x = nftModel.NftID y ->
  nftModel.OwnerAddress x <> nftModel.OwnerAddress y ->
  exists d,
    records_for (nftModel.NftID y)
      (coll (exec (nftModel.CreateUpdateNFT None x;; nftModel.CreateUpdateNFT None y) s))
    = [d]
    /\ d !! "nftId"%string = Some (mongo.BInt (nftModel.NftID y))
    /\ d !! "ownerAddress"%string = Some (mongo.BString (nftModel.OwnerAddress y))
    /\ d !! "contractAddress"%string = Some (mongo.BString (nftModel.ContractAddress y))
    /\ d !! "txHash"%string = Some (mongo.BString (nftModel.TxHash y))
    /\ d !! "timeStamp"%string = Some (mongo.BDateTime (nftModel.TimeStamp y)).
Proof.
  intros Hu Hk _.
  change (coll (exec (nftModel.CreateUpdateNFT None x;; nftModel.CreateUpdateNFT None y) s))
    with (upsert y (upsert x (coll s))).
  pose proof (upsert_unique x _ Hu) as Hu1.
  destruct (upsert_shape x (coll s)) as (pre & d & post & Hdocs & Hpre & Hd & _).
  rewrite Hk in Hpre, Hd.
  rewrite (upsert_update y (upsert x (coll s)) pre post d Hdocs Hpre Hd).
  unfold unique_nftId in Hu1. rewrite Hdocs in Hu1.
  pose proof (unique_after _ pre post d Hu1 Hd) as Hpost.
  exists (nftModel.set_of y ∪ d). split_and!.
  - apply records_for_at; [exact Hpre | exact Hpost | now rewrite key_of_set_union].
  - fold (key_of (nftModel.set_of y ∪ d)). now rewrite key_of_set_union.
  - now apply lookup_union_Some_l.
  - now apply lookup_union_Some_l.
  - now apply lookup_union_Some_l.
  - now apply lookup_union_Some_l.
Qed.

Lemma upsert_last_fact_wins_witness :
  exists d,
    records_for 7
      (coll (exec (nftModel.CreateUpdateNFT None Sample.nftX;;
                   nftModel.CreateUpdateNFT None Sample.nftY) (sys_of mongo.empty)))
    = [d]
    /\ d !! "ownerAddress"%string
       = Some (mongo.BString "0x2222222222222222222222222222222222222222").
Proof.
  destruct (upsert_last_fact_wins Sample.nftX Sample.nftY (sys_of mongo.empty))
    as (d & Hrec & _ & Howner & _).
  - apply NoDup_nil_2.
  - reflexivity.
  - discriminate.
  - exists d. split; [exact Hrec | exact Howner].
Defined.

Lemma upsertAll_unique (ops : list (option error * nftModel.NFT)) (s : Sys) :
  unique_nftId (coll s) -> unique_nftId (coll (exec (upsertAll ops) s)).
Proof.
  revert s. induction ops as [|[v nft] ops IH]; intros s Hu; [exact Hu|].
  rewrite upsertAll_cons. apply IH. rewrite CreateUpdateNFT_coll.
  destruct v; [exact Hu | now apply upsert_unique].
Qed.

(** C8: in every store reached from the empty one by [CreateUpdateNFT]
    calls (executed or failed) no two documents carry the same [nftId]; a
    further call leaves the [nftId] of every document as it is, and a
    document it adds carries the [nftId] of the call. *)
Theorem nftId_unique_and_stable (ops : list (option error * nftModel.NFT))
  (driverErr : option error) (nft : nftModel.NFT) :
  let s := exec (upsertAll ops) (sys_of mongo.empty) in
  let s' := exec (nftModel.CreateUpdateNFT driverErr nft) s in
  unique_nftId (coll s)
  /\ (forall i d, mongo.docs (coll s) !! i = Some d ->
        exists d', mongo.docs (coll s') !! i = Some d' /\ key_of d' = key_of d)
  /\ (forall i d', mongo.docs (coll s) !! i = None ->
        mongo.docs (coll s') !! i = Some d' ->
        key_of d' = Some (mongo.BInt (nftModel.NftID nft))).
Proof.
  intros s s'.
  assert (Hu : unique_nftId (coll s)) by (apply upsertAll_unique, NoDup_nil_2).
  split; [exact Hu|].
  assert (Hkeys : exists extra,
             key_of <$> mongo.docs (coll s') = (key_of <$> mongo.docs (coll s)) ++ extra
             /\ (extra = [] \/ extra = [Some (mongo.BInt (nftModel.NftID nft))])).
  { unfold s'. rewrite CreateUpdateNFT_coll. destruct driverErr.
    - exists []. split; [now rewrite app_nil_r | now left].
    - destruct (upsert_keys nft (coll s)) as (extra & Hk & [-> | [-> _]]);
        exists extra || (eexists; split; [exact Hk|]; auto). }
  destruct Hkeys as (extra & Hk & Hextra). split.
  - intros i d Hi.
    assert (Hki : (key_of <$> mongo.docs (coll s')) !! i = Some (key_of d)).
    { rewrite Hk. apply lookup_app_l_Some. now rewrite list_lookup_fmap, Hi. }
    rewrite list_lookup_fmap in Hki.
    destruct (mongo.docs (coll s') !! i) as [d'|]; [|discriminate].
    exists d'. split; [reflexivity|]. now inversion Hki.
  - intros i d' Hnone Hi.
    assert (Hki : (key_of <$> mongo.docs (coll s')) !! i = Some (key_of d'))
      by now rewrite list_lookup_fmap, Hi.
    rewrite Hk in Hki. apply lookup_ge_None in Hnone.
    rewrite lookup_app_r in Hki by now rewrite length_fmap.
    destruct Hextra as [-> | ->].
    + now rewrite lookup_nil in Hki.
    + apply list_elem_of_lookup_2, list_elem_of_singleton in Hki. now symmetry.
Qed.

(** ** [BigIntToInt] *)

Lemma wrap_signed_64_small (z : Z) :
  - 2 ^ 63 <= z <= 2 ^ 63 - 1 -> wrap_signed 64 z = z.
Proof.
  intros Hz. unfold wrap_signed.
  change (64 - 1) with 63. rewrite Z.mod_small; lia.
Qed.

(** C5: a non-negative token identifier that fits the 64-bit [int] is
    returned as it is; one that does not fit is refused with the range
    error, never returned truncated. *)
Theorem BigIntToInt_nonneg (b : Z) :
  0 <= b ->
  (b <= 2 ^ (nftModel.intSize - 1) - 1 -> nftModel.BigIntToInt b = (b, None))
  /\ (2 ^ (nftModel.intSize - 1) - 1 < b ->
      nftModel.BigIntToInt b = (0, Some "big.Int value is out of int range"%string)).
Proof.
  intros Hb. unfold nftModel.BigIntToInt, nftModel.BigIntToInt_at, nftModel.IsInt64,
    nftModel.Int64, nftModel.intSize.
  change (64 - 1) with 63.
  change (wrap_signed 64 (wrap_signed 64 (Z.lnot 0))) with (-1).
  split; intros Hfit.
  - rewrite !wrap_signed_64_small by lia.
    replace (- 2 ^ 63 <=? b) with true by (symmetry; apply Z.leb_le; lia).
    replace (b <=? 2 ^ 63 - 1) with true by (symmetry; apply Z.leb_le; lia).
    replace (-1 <=? b) with true by (symmetry; apply Z.leb_le; lia).
    reflexivity.
  - replace (b <=? 2 ^ 63 - 1) with false by (symmetry; apply Z.leb_gt; lia).
    now rewrite andb_false_r.
Qed.

Lemma BigIntToInt_nonneg_witness :
  0 <= 7
  /\ nftModel.BigIntToInt 7 = (7, None)
  /\ nftModel.BigIntToInt (2 ^ 63) = (0, Some "big.Int value is out of int range"%string).
Proof.
  split; [lia|]. split.
  - apply (BigIntToInt_nonneg 7); [lia | vm_compute; discriminate].
  - apply (BigIntToInt_nonneg (2 ^ 63)); [lia | vm_compute; reflexivity].
Defined.

(** The check of [BigIntToInt] does not compare against the width of
    [int]: built for a 32-bit [int] it lets a 33-bit identifier through
    and the conversion truncates it; and on any width it refuses the
    negative values below -1 other than the smallest [int64]. *)
Remark BigIntToInt_check_edges :
  nftModel.BigIntToInt_at 32 (2 ^ 32 + 5) = (5, None)
  /\ nftModel.BigIntToInt (-2) = (0, Some "big.Int value is out of int range"%string)
  /\ nftModel.BigIntToInt (- 2 ^ 63) = (- 2 ^ 63, None).
Proof. vm_compute. auto. Qed.

(** ** Requests and store effects of the per-log path *)

Lemma exec_bind {A B} (m : M A) (f : A -> M B) (s : Sys) :
  exec (m ≫= f) s
  = match m s with
    | (Returned a, s') => exec (f a) s'
    | (Panicked _, s') => s'
    end.
Proof. unfold exec, mbind, M_bind. now destruct (m s) as [[a|r] s']. Qed.

Lemma run_bind {A B} (m : M A) (f : A -> M B) (s : Sys) :
  run (m ≫= f) s
  = match m s with
    | (Returned a, s') => run (f a) s'
    | (Panicked r, _) => Panicked r
    end.
Proof. unfold run, mbind, M_bind. now destruct (m s) as [[a|r] s']. Qed.

Lemma keeps_issued_bind {A B} (m : M A) (f : A -> M B) :
  keeps_issued m -> (forall a, keeps_issued (f a)) -> keeps_issued (m ≫= f).
Proof.
  intros Hm Hf s. rewrite exec_bind. specialize (Hm s). unfold exec in Hm.
  destruct (m s) as [[a|r] s']; cbn [snd] in Hm; [|exact Hm].
  now rewrite Hf.
Qed.

Lemma keeps_issued_ret {A} (a : A) : keeps_issued (mret a).
Proof. intros s. reflexivity. Qed.

Lemma keeps_issued_Printf (fmt : string) (a : list LogArg) : keeps_issued (Printf fmt a).
Proof. intros s. reflexivity. Qed.

Lemma keeps_issued_lift {A} (o : outcome A) : keeps_issued (lift o).
Proof. intros s. reflexivity. Qed.

Lemma keeps_issued_panic {A} (r : string) : keeps_issued (panic (A := A) r).
Proof. intros s. reflexivity. Qed.

Lemma keeps_issued_CreateUpdateNFT (v : option error) (nft : nftModel.NFT) :
  keeps_issued (nftModel.CreateUpdateNFT v nft).
Proof. intros s. destruct v; reflexivity. Qed.

Create HintDb keeps.
#[local] Hint Resolve keeps_issued_ret keeps_issued_Printf keeps_issued_lift
  keeps_issued_panic keeps_issued_CreateUpdateNFT : keeps.

Lemma keeps_issued_processTransferLog (env : CallEnv) (delog : types.Log) :
  keeps_issued (trackingService.processTransferLog env delog).
Proof.
  unfold trackingService.processTransferLog.
  apply keeps_issued_bind; [auto with keeps|]. intros [[to tokenId] err].
  destruct err as [e|].
  { apply keeps_issued_bind; intros; auto with keeps. }
  destruct tokenId as [tokenId|]; [|auto with keeps].
  destruct (nftModel.BigIntToInt tokenId) as [n [e|]].
  { apply keeps_issued_bind; intros; auto with keeps. }
  apply keeps_issued_bind; [auto with keeps|]. intros _.
  apply keeps_issued_bind; [auto with keeps|]. intros _.
  apply keeps_issued_bind; [auto with keeps|]. intros err.
  apply keeps_issued_bind; [destruct err; auto with keeps|]. intros _.
  apply keeps_issued_bind; [auto with keeps|]. intros _. auto with keeps.
Qed.

Lemma keeps_issued_processLogs (failed : string) (env : nat -> CallEnv) (i : nat)
  (logs : list types.Log) :
  keeps_issued (trackingService.processLogs failed env i logs).
Proof.
  revert i. induction logs as [|delog logs IH]; intros i; cbn [trackingService.processLogs].
  - auto with keeps.
  - apply keeps_issued_bind; [apply keeps_issued_processTransferLog|]. intros err.
    apply keeps_issued_bind; [destruct err; auto with keeps|]. intros _. apply IH.
Qed.

Lemma processTransferLog_short (env : CallEnv) (delog : types.Log) (s : Sys) :
  (length (types.Topics delog) < 4)%nat ->
  trackingService.processTransferLog env delog s
  = (Panicked "runtime error: index out of range", s).
Proof.
  intros Hlen. unfold trackingService.processTransferLog, mbind, M_bind, lift.
  now rewrite (decodeTransferLog_lt4 delog Hlen).
Qed.

Lemma processTransferLog_decoded (env : CallEnv) (delog : types.Log) (s : Sys)
  (to : list byte) (tokenId : Z) :
  trackingService.decodeTransferLog delog = Returned (to, Some tokenId, None) ->
  run (trackingService.processTransferLog env delog) s
  = Returned (match nftModel.BigIntToInt tokenId with
              | (_, Some e) => Some (Errorf "failed to convert tokenId to int" e)
              | (_, None) => None
              end)
  /\ coll (exec (trackingService.processTransferLog env delog) s)
     = storeAfterLog env delog (coll s).
Proof.
  intros Hdec. unfold storeAfterLog, run, exec.
  unfold trackingService.processTransferLog, mbind, M_bind, lift.
  rewrite Hdec.
  destruct (nftModel.BigIntToInt tokenId) as [n [e|]]; [split; reflexivity|].
  destruct (updateOneErr env) as [e|]; split; reflexivity.
Qed.

(** C10: once the decode and the conversion of the token id have
    succeeded, [processTransferLog] returns nil whether the driver executed
    the upsert or reported a failure (and then the store is as before);
    the only errors it returns are those of the decode and of the
    conversion. *)
Theorem processTransferLog_hides_store_failure (env : CallEnv) (delog : types.Log)
  (s : Sys) :
  (forall to tokenId n,
     trackingService.decodeTransferLog delog = Returned (to, Some tokenId, None) ->
     nftModel.BigIntToInt tokenId = (n, None) ->
     run (trackingService.processTransferLog env delog) s = Returned None
     /\ (forall e, updateOneErr env = Some e ->
           coll (exec (trackingService.processTransferLog env delog) s) = coll s))
  /\ (forall err,
        run (trackingService.processTransferLog env delog) s = Returned (Some err) ->
        (exists cause, err = Errorf "failed to decode Transfer event log" cause)
        \/ (exists cause, err = Errorf "failed to convert tokenId to int" cause)).
Proof.
  split.
  - intros to tokenId n Hdec Hconv.
    destruct (processTransferLog_decoded env delog s to tokenId Hdec) as [Hrun Hcoll].
    rewrite Hconv in Hrun. split; [exact Hrun|].
    intros e He. rewrite Hcoll. unfold storeAfterLog. now rewrite Hdec, Hconv, He.
  - intros err Hrun.
    destruct (Nat.lt_ge_cases (length (types.Topics delog)) 4) as [Hlt | Hge].
    + unfold run in Hrun. rewrite (processTransferLog_short env delog s Hlt) in Hrun.
      discriminate Hrun.
    + destruct (decodeTransferLog_ge4 delog Hge) as (t2 & t3 & _ & _ & Hdec).
      destruct (processTransferLog_decoded env delog s _ _ Hdec) as [Hrun' _].
      rewrite Hrun in Hrun'.
      destruct (nftModel.BigIntToInt (common.Hash_Big t3)) as [n [e|]];
        [|discriminate Hrun'].
      right. exists e. now inversion Hrun'.
Qed.

(** ** Batches *)

Lemma processLogs_cons (failed : string) (env : nat -> CallEnv) (i : nat)
  (delog : types.Log) (rest : list types.Log) (s : Sys) :
  (4 <= length (types.Topics delog))%nat ->
  exists s',
    coll s' = storeAfterLog (env i) delog (coll s)
    /\ trackingService.processLogs failed env i (delog :: rest) s
       = trackingService.processLogs failed env (S i) rest s'.
Proof.
  intros Hge.
  destruct (decodeTransferLog_ge4 delog Hge) as (t2 & t3 & _ & _ & Hdec).
  destruct (processTransferLog_decoded (env i) delog s _ _ Hdec) as [Hrun Hcoll].
  unfold run, exec in Hrun, Hcoll. cbn [trackingService.processLogs].
  unfold mbind at 1, M_bind at 1.
  destruct (trackingService.processTransferLog (env i) delog s) as [o s1].
  cbn [fst snd] in Hrun, Hcoll. subst o.
  destruct (nftModel.BigIntToInt (common.Hash_Big t3)) as [n [e|]].
  - eexists. split; [|reflexivity]. exact Hcoll.
  - exists s1. split; [exact Hcoll | reflexivity].
Qed.

(** A batch in which every log has its four topics is processed to the
    end: each log is attempted in order, a log whose conversion or upsert
    fails leaves the store as it is, and the loop returns. *)
Lemma processLogs_completes (failed : string) (env : nat -> CallEnv) (i : nat)
  (logs : list types.Log) (s : Sys) :
  Forall (fun delog => (4 <= length (types.Topics delog))%nat) logs ->
  run (trackingService.processLogs failed env i logs) s = Returned tt
  /\ coll (exec (trackingService.processLogs failed env i logs) s)
     = storeAfterLogs env i logs (coll s).
Proof.
  intros Hall. revert i s. induction Hall as [|delog logs Hge _ IH]; intros i s.
  - split; reflexivity.
  - destruct (processLogs_cons failed env i delog logs s Hge) as (s' & Hcoll & Heq).
    unfold run, exec in *. rewrite Heq. cbn [storeAfterLogs]. rewrite <- Hcoll.
    apply IH.
Qed.

(** A log with fewer than four topics stops the batch where it stands:
    the logs after it are not attempted. *)
Lemma processLogs_short (failed : string) (env : nat -> CallEnv) (i : nat)
  (delog : types.Log) (rest : list types.Log) (s : Sys) :
  (length (types.Topics delog) < 4)%nat ->
  trackingService.processLogs failed env i (delog :: rest) s
  = (Panicked "runtime error: index out of range", s).
Proof.
  intros Hlt. cbn [trackingService.processLogs].
  unfold mbind at 1, M_bind at 1.
  now rewrite (processTransferLog_short (env i) delog s Hlt).
Qed.

(** In general: the logs before the short one are processed, the panic
    comes at the short one, and whatever follows it is not looked at. *)
Lemma processLogs_aborts (failed : string) (env : nat -> CallEnv) (i : nat)
  (pre rest : list types.Log) (short : types.Log) (s : Sys) :
  Forall (fun delog => (4 <= length (types.Topics delog))%nat) pre ->
  (length (types.Topics short) < 4)%nat ->
  run (trackingService.processLogs failed env i (pre ++ short :: rest)) s
  = Panicked "runtime error: index out of range"
  /\ coll (exec (trackingService.processLogs failed env i (pre ++ short :: rest)) s)
     = storeAfterLogs env i pre (coll s).
Proof.
  intros Hpre Hshort. revert i s.
  induction Hpre as [|delog pre Hge _ IH]; intros i s; cbn [app].
  - unfold run, exec. rewrite (processLogs_short failed env i short rest s Hshort).
    split; reflexivity.
  - destruct (processLogs_cons failed env i delog (pre ++ short :: rest) s Hge)
      as (s' & Hcoll & Heq).
    unfold run, exec in *. rewrite Heq. cbn [storeAfterLogs]. rewrite <- Hcoll.
    apply IH.
Qed.

Lemma processTransferLog_hides_store_failure_witness :
  run (trackingService.processTransferLog Sample.storeDown
         (Sample.transfer 104 0 Sample.ownerX Sample.ownerY 7)) (sys_of mongo.empty)
  = Returned None
  /\ coll (exec (trackingService.processTransferLog Sample.storeDown
                   (Sample.transfer 104 0 Sample.ownerX Sample.ownerY 7))
             (sys_of mongo.empty))
     = mongo.empty.
Proof.
  destruct (processTransferLog_hides_store_failure Sample.storeDown
              (Sample.transfer 104 0 Sample.ownerX Sample.ownerY 7) (sys_of mongo.empty))
    as [H _].
  destruct (H (common.BytesToAddress (Sample.word32 Sample.ownerY)) 7 7)
    as [Hrun Hcoll]; [vm_compute; reflexivity | vm_compute; reflexivity |].
  split; [exact Hrun|]. exact (Hcoll _ eq_refl).
Defined.

(** C9 at a batch of three logs whose second has three topics: the first
    log is stored, the second makes the index expression panic, and the
    third (token 9) is never attempted, although on its own it would be
    stored. *)
Theorem short_log_aborts_batch :
  let fetch := trackingService.fetchNewLogs Sample.tracker
                 (Sample.node Sample.batch3 110 6000) Sample.sigHash 105 in
  run fetch (sys_of mongo.empty) = Panicked "runtime error: index out of range"
  /\ key_of <$> mongo.docs (coll (exec fetch (sys_of mongo.empty)))
     = [Some (mongo.BInt 7)]
  /\ key_of <$> mongo.docs
       (storeAfterLogs (perLog (Sample.node Sample.batch3 110 6000)) 0
          [Sample.transfer 106 0 0 Sample.ownerX 7; Sample.transfer 108 0 0 Sample.ownerZ 9]
          mongo.empty)
     = [Some (mongo.BInt 7); Some (mongo.BInt 9)].
Proof. vm_compute. auto. Qed.

(** ** Fetches and the polling loop *)

Lemma fetchNewLogs_issued (t : trackingService.TransferEventTracker) (env : FetchEnv)
  (hash : list byte) (fromBlock : Z) (s : Sys) :
  issued (exec (trackingService.fetchNewLogs t env hash fromBlock) s)
  = issued s ++ match headerByNumber env with
                | inl head => [pollQuery t hash fromBlock head]
                | inr _ => []
                end.
Proof.
  unfold trackingService.fetchNewLogs.
  destruct (headerByNumber env) as [head|e].
  - rewrite exec_bind. unfold trackingService.FilterLogs at 1.
    fold (pollQuery t hash fromBlock head).
    destruct (filterLogs env (pollQuery t hash fromBlock head)) as [logs|e].
    + now rewrite keeps_issued_processLogs.
    + reflexivity.
  - cbn. now rewrite app_nil_r.
Qed.

Lemma pollLoop_cons (t : trackingService.TransferEventTracker) (hash : list byte)
  (latestBlock : Z) (tick : FetchEnv) (rest : list FetchEnv) (s : Sys) :
  trackingService.pollLoop t hash latestBlock (tick :: rest) s
  = match trackingService.fetchNewLogs t tick hash latestBlock s with
    | (Returned _, s1) => trackingService.pollLoop t hash latestBlock rest s1
    | (Panicked r, s1) => (Panicked r, s1)
    end.
Proof. reflexivity. Qed.


(** Whether or not the loop runs to the end, the requests it has sent are
    those of the first ticks, each from the same [latestBlock]. *)
Lemma pollLoop_issued_prefix (t : trackingService.TransferEventTracker) (hash : list byte)
  (latestBlock : Z) (ticks : list FetchEnv) (s : Sys) :
  exists n,
    issued (exec (trackingService.pollLoop t hash latestBlock ticks) s)
    = issued s ++ tickQueries t hash latestBlock (take n ticks).
Proof.
  revert s. induction ticks as [|tick rest IH]; intros s.
  - exists 0%nat. cbn. now rewrite app_nil_r.
  - unfold exec in *. rewrite pollLoop_cons.
    pose proof (fetchNewLogs_issued t tick hash latestBlock s) as Hq. unfold exec in Hq.
    destruct (trackingService.fetchNewLogs t tick hash latestBlock s) as [[u|r'] s1];
      cbn [fst snd] in *.
    + destruct (IH s1) as (n & Hn). exists (S n).
      rewrite Hn, Hq. cbn [take tickQueries flat_map]. now rewrite <- app_assoc.
    + exists 1%nat. rewrite Hq. cbn [take tickQueries flat_map]. now rewrite app_nil_r.
Qed.


(** C3, as the code has it: building the query cannot fail and there is
    no empty-range check.  A fetch whose header lookup succeeds sends
    exactly one request, from [fromBlock] to the head, however the two
    compare; only a failed header lookup sends none. *)
Theorem fetch_sent_for_any_range (t : trackingService.TransferEventTracker)
  (env : FetchEnv) (hash : list byte) (fromBlock : Z) (s : Sys) :
  issued (exec (trackingService.fetchNewLogs t env hash fromBlock) s)
  = issued s ++ match headerByNumber env with
                | inl head => [pollQuery t hash fromBlock head]
                | inr _ => []
                end.
Proof. apply fetchNewLogs_issued. Qed.

(** C3 as stated fails: with the lower bound already at the head (105),
    and even with the head below it (103), the request is sent, where the
    specification's planner sends none. *)
Lemma fetch_sent_for_empty_range :
  range_of <$> issued (exec (trackingService.fetchNewLogs Sample.tracker
                               (Sample.node Sample.chain 105 6000) Sample.sigHash 105)
                         (sys_of mongo.empty))
  = [(105, 105)]
  /\ range_of <$> issued (exec (trackingService.fetchNewLogs Sample.tracker
                                  (Sample.node Sample.chain 103 6000) Sample.sigHash 105)
                            (sys_of mongo.empty))
     = [(105, 103)]
  /\ Spec.poll_ranges 105 [105] = []
  /\ Spec.poll_ranges 105 [103] = [].
Proof. vm_compute. auto. Qed.

Lemma bind_returned {A B} (m : M A) (f : A -> M B) (s s' : Sys) (a : A) :
  m s = (Returned a, s') -> (m ≫= f) s = f a s'.
Proof. unfold mbind, M_bind. now intros ->. Qed.

Lemma run_exec {A} (m : M A) (s : Sys) (a : A) :
  run m s = Returned a -> m s = (Returned a, exec m s).
Proof. unfold run, exec. destruct (m s) as [o s']. cbn. now intros ->. Qed.

Lemma four_topics_Forall (logs : list types.Log) :
  forallb four_topics logs = true ->
  Forall (fun delog => (4 <= length (types.Topics delog))%nat) logs.
Proof.
  induction logs as [|delog logs IH]; cbn [forallb]; [constructor|].
  intros [Hd Hl]%andb_true_iff. constructor; [|now apply IH].
  now apply Nat.leb_le.
Qed.







(** A ticker interval of zero parses, and creating the ticker panics
    after the backfill. *)
Remark zero_interval_panics :
  run (trackingService.TrackTransferEvents Sample.tracker
         (fun name => if bool_decide (name = "FETCH_INTERVAL"%string) then "0s"%string
                      else Sample.getenv name)
         Sample.ParseDuration (Sample.node Sample.chain 105 5000) [])
    (sys_of mongo.empty)
  = Panicked "non-positive interval for NewTicker".
Proof. vm_compute. reflexivity. Qed.

(** * Further properties *)

(** ** The upsert, document by document *)

Lemma set_of_lookup_None (nft : nftModel.NFT) (f : string) :
  nftModel.set_of nft !! f = None <-> f ∉ setFields.
Proof.
  unfold nftModel.set_of, setFields.
  rewrite !lookup_insert_None, lookup_singleton_None.
  rewrite !not_elem_of_cons. pose proof (not_elem_of_nil f) as Hnil. split.
  - intros [[[H1 H2] H3] H4]. split_and!; congruence.
  - intros (H1 & H2 & H3 & H4 & _). split_and!; congruence.
Qed.

Lemma set_of_same_dom (a b : nftModel.NFT) (f : string) :
  nftModel.set_of a !! f = None <-> nftModel.set_of b !! f = None.
Proof. now rewrite !set_of_lookup_None. Qed.

Lemma set_union_absorb (a b : nftModel.NFT) (d : gmap string mongo.bson) :
  nftModel.set_of a ∪ (nftModel.set_of b ∪ d) = nftModel.set_of a ∪ d.
Proof.
  apply map_eq. intros f.
  destruct (nftModel.set_of a !! f) as [v|] eqn:E.
  - now rewrite !(lookup_union_Some_l _ _ _ _ E).
  - rewrite !(lookup_union_r _ _ _ E).
    apply lookup_union_r. exact (proj1 (set_of_same_dom a b f) E).
Qed.

Lemma has_token_false (k : Z) (c : mongo.Collection) :
  has_token k c = false
  <-> Forall (fun d => key_of d <> Some (mongo.BInt k)) (mongo.docs c).
Proof.
  unfold has_token. rewrite bool_decide_eq_false, Forall_forall, list_elem_of_fmap.
  split.
  - intros H d Hd Hk. apply H. now exists d.
  - intros H (d & Hk & Hd). now apply (H d Hd).
Qed.

Lemma has_token_true (k : Z) (c : mongo.Collection) :
  has_token k c = true ->
  exists pre d post,
    mongo.docs c = pre ++ d :: post
    /\ Forall (fun d => key_of d <> Some (mongo.BInt k)) pre
    /\ key_of d = Some (mongo.BInt k).
Proof.
  unfold has_token. rewrite bool_decide_eq_true. intros Hin.
  induction (mongo.docs c) as [|x ds IH]; [now apply elem_of_nil in Hin|].
  destruct (decide (key_of x = Some (mongo.BInt k))) as [Hx|Hx].
  - exists [], x, ds. now split_and!.
  - rewrite fmap_cons, elem_of_cons in Hin. destruct Hin as [Hin|Hin]; [congruence|].
    destruct (IH Hin) as (pre & d & post & -> & Hpre & Hd).
    exists (x :: pre), d, post. split_and!; [reflexivity | now constructor | exact Hd].
Qed.

(** The upsert as a function of whether the token is already filed *)
Lemma upsert_by_presence (nft : nftModel.NFT) (c : mongo.Collection) :
  if has_token (nftModel.NftID nft) c
  then exists pre d post,
         mongo.docs c = pre ++ d :: post
         /\ Forall (fun d => key_of d <> Some (mongo.BInt (nftModel.NftID nft))) pre
         /\ key_of d = Some (mongo.BInt (nftModel.NftID nft))
         /\ upsert nft c
            = {| mongo.docs := pre ++ (nftModel.set_of nft ∪ d) :: post;
                 mongo.next_oid := mongo.next_oid c |}
  else upsert nft c
       = {| mongo.docs := mongo.docs c ++ [inserted nft (mongo.next_oid c)];
            mongo.next_oid := N.succ (mongo.next_oid c) |}.
Proof.
  destruct (has_token (nftModel.NftID nft) c) eqn:E.
  - destruct (has_token_true _ _ E) as (pre & d & post & Hc & Hpre & Hd).
    exists pre, d, post. split_and!; try assumption. now apply upsert_update.
  - apply upsert_insert. now apply has_token_false.
Qed.

(** X1: an upsert for one token leaves the documents of every other token
    exactly as they are, at the place where they are. *)
Theorem upsert_other_tokens_untouched (v : option error) (nft : nftModel.NFT)
  (s : Sys) (i : nat) (d : gmap string mongo.bson) :
  mongo.docs (coll s) !! i = Some d ->
  key_of d <> Some (mongo.BInt (nftModel.NftID nft)) ->
  mongo.docs (coll (exec (nftModel.CreateUpdateNFT v nft) s)) !! i = Some d.
Proof.
  intros Hi Hk. rewrite CreateUpdateNFT_coll. destruct v as [e|]; [exact Hi|].
  destruct (upsert_cases nft (coll s))
    as [(_ & ->) | (pre & d0 & post & Hc & _ & Hd0 & ->)]; cbn [mongo.docs].
  - now apply lookup_app_l_Some.
  - rewrite Hc in Hi.
    destruct (decide (i = length pre)) as [->|Hne].
    + rewrite list_lookup_middle in Hi by reflexivity. congruence.
    + destruct (decide (i < length pre)%nat) as [Hlt|Hge].
      * rewrite lookup_app_l in Hi |- * by exact Hlt. exact Hi.
      * rewrite lookup_app_r in Hi |- * by lia.
        destruct (i - length pre)%nat as [|j] eqn:Ej; [lia|]. exact Hi.
Qed.

Lemma upsert_other_tokens_untouched_witness :
  mongo.docs (coll (exec (nftModel.CreateUpdateNFT None
                            {| nftModel.ID := 0%N; nftModel.NftID := 9;
                               nftModel.OwnerAddress := "0x33";
                               nftModel.ContractAddress := "0xcc";
                               nftModel.TokenUri := ""; nftModel.TxHash := "0xdd";
                               nftModel.TimeStamp := 3000 |})
                    (exec (nftModel.CreateUpdateNFT None Sample.nftX)
                       (sys_of mongo.empty)))) !! 0%nat
  = Some (inserted Sample.nftX 0).
Proof.
  apply (upsert_other_tokens_untouched None _ _ 0%nat (inserted Sample.nftX 0)).
  - reflexivity.
  - vm_compute. discriminate.
Defined.

(** X2: an upsert removes no document; the number of documents grows by
    one when the token was not filed and stays the same when it was. *)
Theorem upsert_count (nft : nftModel.NFT) (s : Sys) :
  length (mongo.docs (coll (exec (nftModel.CreateUpdateNFT None nft) s)))
  = (length (mongo.docs (coll s))
     + if has_token (nftModel.NftID nft) (coll s) then 0 else 1)%nat.
Proof.
  rewrite CreateUpdateNFT_coll.
  pose proof (upsert_by_presence nft (coll s)) as H.
  destruct (has_token (nftModel.NftID nft) (coll s)).
  - destruct H as (pre & d & post & Hc & _ & _ & ->). cbn [mongo.docs].
    rewrite Hc, !length_app. cbn [length]. lia.
  - rewrite H. cbn [mongo.docs]. rewrite length_app. cbn [length]. lia.
Qed.

(** X3: an upsert changes, in a document that was there, nothing but the
    four fields of its [$set]: the [_id], the [nftId] and any other field
    keep their values, whichever token the call is about. *)
Theorem upsert_keeps_other_fields (v : option error) (nft : nftModel.NFT)
  (s : Sys) (i : nat) (d : gmap string mongo.bson) (f : string) :
  mongo.docs (coll s) !! i = Some d ->
  f ∉ setFields ->
  exists d',
    mongo.docs (coll (exec (nftModel.CreateUpdateNFT v nft) s)) !! i = Some d'
    /\ d' !! f = d !! f.
Proof.
  intros Hi Hf. rewrite CreateUpdateNFT_coll. destruct v as [e|]; [now exists d|].
  destruct (upsert_cases nft (coll s))
    as [(_ & ->) | (pre & d0 & post & Hc & _ & Hd0 & ->)]; cbn [mongo.docs].
  - exists d. split; [now apply lookup_app_l_Some | reflexivity].
  - rewrite Hc in Hi.
    destruct (decide (i = length pre)) as [->|Hne].
    + rewrite list_lookup_middle in Hi |- * by reflexivity.
      injection Hi as <-. eexists. split; [reflexivity|].
      apply lookup_union_r. now apply set_of_lookup_None.
    + exists d. split; [|reflexivity].
      destruct (decide (i < length pre)%nat) as [Hlt|Hge].
      * rewrite lookup_app_l in Hi |- * by exact Hlt. exact Hi.
      * rewrite lookup_app_r in Hi |- * by lia.
        destruct (i - length pre)%nat as [|j] eqn:Ej; [lia|]. exact Hi.
Qed.

Lemma upsert_keeps_other_fields_witness :
  exists d',
    mongo.docs (coll (exec (nftModel.CreateUpdateNFT None Sample.nftY)
                        (exec (nftModel.CreateUpdateNFT None Sample.nftX)
                           (sys_of mongo.empty)))) !! 0%nat = Some d'
    /\ d' !! "_id"%string = Some (mongo.BObjectID 0).
Proof.
  destruct (upsert_keeps_other_fields None Sample.nftY
              (exec (nftModel.CreateUpdateNFT None Sample.nftX) (sys_of mongo.empty))
              0%nat (inserted Sample.nftX 0) "_id"%string) as (d' & Hd' & Hf).
  - reflexivity.
  - apply (bool_decide_unpack _). vm_compute. exact I.
  - exists d'. split; [exact Hd'|]. rewrite Hf. reflexivity.
Defined.

(** ** Sequences of upserts *)

Lemma upsertAll_applyFacts (ops : list (option error * nftModel.NFT)) (s : Sys) :
  coll (exec (upsertAll ops) s) = applyFacts (executed ops) (coll s).
Proof.
  revert s. induction ops as [|[v nft] ops IH]; intros s; [reflexivity|].
  rewrite upsertAll_cons, IH, CreateUpdateNFT_coll. now destruct v.
Qed.

Lemma applyFacts_snoc (facts : list nftModel.NFT) (f : nftModel.NFT)
  (c : mongo.Collection) :
  applyFacts (facts ++ [f]) c = upsert f (applyFacts facts c).
Proof. unfold applyFacts. now rewrite foldl_snoc. Qed.

Lemma applyFacts_unique (facts : list nftModel.NFT) (c : mongo.Collection) :
  unique_nftId c -> unique_nftId (applyFacts facts c).
Proof.
  revert c. induction facts as [|f facts IH]; intros c Hu; [exact Hu|].
  apply IH. now apply upsert_unique.
Qed.

Lemma set_of_holds (d : gmap string mongo.bson) (f : nftModel.NFT) :
  nftModel.set_of f ⊆ d -> key_of d = Some (mongo.BInt (nftModel.NftID f)) ->
  holds_fact d f.
Proof.
  intros Hsub Hk. unfold holds_fact. split; [exact Hk|].
  split_and!; (eapply lookup_weaken; [|exact Hsub]); reflexivity.
Qed.

Lemma records_for_upsert_same (f : nftModel.NFT) (c : mongo.Collection) :
  unique_nftId c ->
  exists d, records_for (nftModel.NftID f) (upsert f c) = [d] /\ holds_fact d f.
Proof.
  intros Hu. pose proof (upsert_unique f c Hu) as Hu1.
  destruct (upsert_shape f c) as (pre & d & post & Hdocs & Hpre & Hd & Hsub).
  unfold unique_nftId in Hu1. rewrite Hdocs in Hu1.
  pose proof (unique_after _ pre post d Hu1 Hd) as Hpost.
  exists d. split; [|now apply set_of_holds].
  destruct (upsert f c) as [ds oid]. cbn [mongo.docs] in Hdocs. subst ds.
  now apply records_for_at.
Qed.

Lemma records_for_upsert_other (k : Z) (f : nftModel.NFT) (c : mongo.Collection) :
  nftModel.NftID f <> k -> records_for k (upsert f c) = records_for k c.
Proof.
  intros Hne. unfold records_for.
  assert (Hk : forall d, key_of d = Some (mongo.BInt (nftModel.NftID f)) ->
                         key_of d <> Some (mongo.BInt k)) by (intros d ->; congruence).
  destruct (upsert_cases f c) as [(_ & ->) | (pre & d & post & Hc & _ & Hd & ->)];
    cbn [mongo.docs].
  - rewrite filter_app, filter_cons_False by apply Hk, key_of_inserted.
    now rewrite filter_nil, app_nil_r.
  - rewrite Hc, !filter_app, !filter_cons_False; [reflexivity | now apply Hk |].
    apply Hk. now rewrite key_of_set_union.
Qed.

Lemma lastFact_snoc (k : Z) (facts : list nftModel.NFT) (f : nftModel.NFT) :
  lastFact k (facts ++ [f])
  = if decide (nftModel.NftID f = k) then Some f else lastFact k facts.
Proof.
  unfold lastFact. rewrite filter_app, last_app.
  destruct (decide (nftModel.NftID f = k)) as [Hk|Hk].
  - now rewrite filter_cons_True, filter_nil by exact Hk.
  - now rewrite filter_cons_False, filter_nil by exact Hk.
Qed.

Lemma applyFacts_last (k : Z) (facts : list nftModel.NFT) (c : mongo.Collection) :
  unique_nftId c ->
  match lastFact k facts with
  | Some f => exists d, records_for k (applyFacts facts c) = [d] /\ holds_fact d f
  | None => records_for k (applyFacts facts c) = records_for k c
  end.
Proof.
  intros Hu. induction facts as [|f facts IH] using rev_ind; [reflexivity|].
  rewrite lastFact_snoc, applyFacts_snoc.
  destruct (decide (nftModel.NftID f = k)) as [<-|Hne].
  - apply records_for_upsert_same. now apply applyFacts_unique.
  - rewrite (records_for_upsert_other k f _ Hne). exact IH.
Qed.

Lemma inserted_supersede (a b : nftModel.NFT) (oid : N) :
  nftModel.NftID a = nftModel.NftID b ->
  nftModel.set_of a ∪ inserted b oid = inserted a oid.
Proof.
  intros Hk. unfold inserted, nftModel.setOnInsert_of, nftModel.filter_of.
  rewrite <- Hk. rewrite <- insert_union_r by apply set_of_no_id.
  now rewrite <- !(assoc_L (∪)), set_union_absorb.
Qed.

Lemma upsert_supersede (a b : nftModel.NFT) (c : mongo.Collection) :
  nftModel.NftID a = nftModel.NftID b -> upsert a (upsert b c) = upsert a c.
Proof.
  intros Hk.
  destruct (upsert_cases b c) as [(Hnone & Hb) | (pre & d & post & Hc & Hpre & Hd & Hb)].
  - rewrite <- Hk in Hnone. rewrite (upsert_insert a c Hnone).
    rewrite (upsert_update a (upsert b c) (mongo.docs c) []
               (inserted b (mongo.next_oid c))).
    + rewrite Hb. cbn [mongo.next_oid]. rewrite (inserted_supersede a b _ Hk).
      reflexivity.
    + rewrite Hb. cbn [mongo.docs]. reflexivity.
    + exact Hnone.
    + rewrite Hk. apply key_of_inserted.
  - rewrite <- Hk in Hpre, Hd.
    rewrite (upsert_update a c pre post d Hc Hpre Hd).
    rewrite (upsert_update a (upsert b c) pre post (nftModel.set_of b ∪ d)).
    + rewrite Hb. cbn [mongo.next_oid]. rewrite set_union_absorb. reflexivity.
    + rewrite Hb. reflexivity.
    + exact Hpre.
    + rewrite key_of_set_union. exact Hd.
Qed.

(** X4: a later fact for the same token supersedes an earlier one
    entirely: the two calls leave the collection as the later call alone
    does. *)
Theorem later_fact_supersedes (a b : nftModel.NFT) (s : Sys) :
  nftModel.NftID a = nftModel.NftID b ->
  coll (exec (nftModel.CreateUpdateNFT None b;; nftModel.CreateUpdateNFT None a) s)
  = coll (exec (nftModel.CreateUpdateNFT None a) s).
Proof.
  intros Hk.
  change (upsert a (upsert b (coll s)) = upsert a (coll s)).
  now apply upsert_supersede.
Qed.

Lemma later_fact_supersedes_witness :
  coll (exec (nftModel.CreateUpdateNFT None Sample.nftX;;
              nftModel.CreateUpdateNFT None Sample.nftY) (sys_of mongo.empty))
  = coll (exec (nftModel.CreateUpdateNFT None Sample.nftY) (sys_of mongo.empty)).
Proof. apply (later_fact_supersedes Sample.nftY Sample.nftX). reflexivity. Defined.

(** X5: after any sequence of [CreateUpdateNFT] calls on a collection with
    the unique index, a token named by an executed call has exactly one
    document, carrying the fields of the last executed call for it; a
    token that no executed call names has the documents it had. *)
Theorem sequence_last_fact_wins (ops : list (option error * nftModel.NFT))
  (k : Z) (s : Sys) :
  unique_nftId (coll s) ->
  match lastFact k (executed ops) with
  | Some f =>
      exists d, records_for k (coll (exec (upsertAll ops) s)) = [d] /\ holds_fact d f
  | None => records_for k (coll (exec (upsertAll ops) s)) = records_for k (coll s)
  end.
Proof.
  intros Hu. rewrite upsertAll_applyFacts. now apply applyFacts_last.
Qed.

Lemma sequence_last_fact_wins_witness :
  exists d,
    records_for 7
      (coll (exec (upsertAll [(None, Sample.nftX); (None, Sample.nftY);
                              (Some "timeout"%string, Sample.nftX)])
               (sys_of mongo.empty))) = [d]
    /\ holds_fact d Sample.nftY.
Proof.
  apply (sequence_last_fact_wins
           [(None, Sample.nftX); (None, Sample.nftY); (Some "timeout"%string, Sample.nftX)]
           7 (sys_of mongo.empty)).
  apply NoDup_nil_2.
Defined.

(** ** The conversion and the decoder on every input *)

Lemma BigIntToInt_cases (b : Z) :
  nftModel.BigIntToInt b
  = if ((-1 <=? b) && (b <=? 2 ^ 63 - 1)) || (b =? - 2 ^ 63)
    then (b, None) else (0, Some rangeErrorText).
Proof.
  unfold nftModel.BigIntToInt, nftModel.BigIntToInt_at, nftModel.IsInt64,
    nftModel.Int64, nftModel.intSize, rangeErrorText.
  change (wrap_signed 64 (wrap_signed 64 (Z.lnot 0))) with (-1).
  destruct (Z.leb_spec (- 2 ^ 63) b) as [Hlo|Hlo];
    destruct (Z.leb_spec b (2 ^ 63 - 1)) as [Hhi|Hhi]; cbn [andb].
  - rewrite !wrap_signed_64_small by lia.
    destruct (Z.leb_spec (-1) b) as [H1|H1]; cbn [orb andb]; [reflexivity|].
    destruct (Z.leb_spec b (- 2 ^ 63)) as [H2|H2];
      destruct (Z.eqb_spec b (- 2 ^ 63)) as [H3|H3]; try lia; reflexivity.
  - destruct (Z.leb_spec (-1) b); destruct (Z.eqb_spec b (- 2 ^ 63));
      cbn [orb andb]; try lia; reflexivity.
  - destruct (Z.leb_spec (-1) b); destruct (Z.eqb_spec b (- 2 ^ 63));
      cbn [orb andb]; try lia; reflexivity.
  - lia.
Qed.

(** X6: [BigIntToInt] on every integer, for the 64-bit [int]: it returns
    its argument unchanged exactly for -1 .. 2^63-1 and for -2^63, and the
    range error with value 0 for every other integer, the negative ones
    from -2 down to -2^63+1 included although they fit an [int]. *)
Theorem BigIntToInt_everywhere (b : Z) :
  nftModel.BigIntToInt b
  = if ((-1 <=? b) && (b <=? 2 ^ 63 - 1)) || (b =? - 2 ^ 63)
    then (b, None)
    else (0, Some "big.Int value is out of int range"%string).
Proof. apply BigIntToInt_cases. Qed.

Lemma decodeTransferLog_cases (delog : types.Log) :
  trackingService.decodeTransferLog delog
  = if four_topics delog
    then match types.Topics delog !! 2%nat, types.Topics delog !! 3%nat with
         | Some t2, Some t3 =>
             Returned (common.BytesToAddress t2, Some (common.Hash_Big t3), None)
         | _, _ => Panicked "runtime error: index out of range"
         end
    else Panicked "runtime error: index out of range".
Proof.
  unfold four_topics. destruct (Nat.leb_spec 4 (length (types.Topics delog))) as [H|H].
  - destruct (decodeTransferLog_ge4 delog H) as (t2 & t3 & -> & -> & ->). reflexivity.
  - now apply decodeTransferLog_lt4.
Qed.

(** X7: the decoder never returns an error.  On every log it either
    returns a fact (exactly when the log has at least four topics), with a
    20-byte address and a non-negative token id, or panics. *)
Theorem decoder_returns_fact_or_panics (delog : types.Log) :
  (forall a z e, trackingService.decodeTransferLog delog <> Returned (a, z, Some e))
  /\ ((exists r, trackingService.decodeTransferLog delog = Panicked r)
      <-> (length (types.Topics delog) < 4)%nat)
  /\ (forall a z err, trackingService.decodeTransferLog delog = Returned (a, z, err) ->
        length a = 20%nat /\ exists n, z = Some n /\ 0 <= n).
Proof.
  rewrite decodeTransferLog_cases. unfold four_topics.
  destruct (Nat.leb_spec 4 (length (types.Topics delog))) as [H|H].
  - destruct (decodeTransferLog_ge4 delog H) as (t2 & t3 & -> & -> & _).
    split_and!.
    + intros a z e. discriminate.
    + split; [intros [r Hr]; discriminate | lia].
    + intros a z err [= <- <- <-]. split; [apply length_BytesToAddress|].
      eexists. split; [reflexivity|]. unfold common.Hash_Big, common.SetBytes.
      apply (SetBytes_fold_range t3 0). lia.
  - split_and!.
    + intros a z e. discriminate.
    + split; [intros _; exact H | intros _; eauto].
    + intros a z err. discriminate.
Qed.

(** ** One log, from topics to document *)

Lemma processTransferLog_effect (env : CallEnv) (delog : types.Log) (s : Sys)
  (t2 t3 : list byte) :
  types.Topics delog !! 2%nat = Some t2 ->
  types.Topics delog !! 3%nat = Some t3 ->
  let tokenId := common.Hash_Big t3 in
  let fits := ((-1 <=? tokenId) && (tokenId <=? 2 ^ 63 - 1)) || (tokenId =? - 2 ^ 63) in
  run (trackingService.processTransferLog env delog) s
  = Returned (if fits then None
              else Some (Errorf "failed to convert tokenId to int" rangeErrorText))
  /\ coll (exec (trackingService.processTransferLog env delog) s)
     = if fits
       then match updateOneErr env with
            | None => upsert (nftOf env delog (common.BytesToAddress t2) tokenId) (coll s)
            | Some _ => coll s
            end
       else coll s.
Proof.
  intros H2 H3 tokenId fits.
  assert (Hge : (4 <= length (types.Topics delog))%nat).
  { apply lookup_lt_Some in H3. lia. }
  destruct (decodeTransferLog_ge4 delog Hge) as (t2' & t3' & H2' & H3' & Hdec).
  rewrite H2 in H2'. rewrite H3 in H3'. injection H2' as <-. injection H3' as <-.
  destruct (processTransferLog_decoded env delog s _ _ Hdec) as [Hrun Hcoll].
  rewrite Hrun, Hcoll. unfold storeAfterLog. rewrite Hdec.
  fold tokenId. rewrite (BigIntToInt_cases tokenId). fold fits.
  destruct fits; [|split; reflexivity].
  destruct (updateOneErr env); split; reflexivity.
Qed.

(** X8: a log whose token id, read from the fourth topic, is 2^63 or more
    is dropped: [processTransferLog] returns the conversion error and the
    store is not touched, whatever the driver would have answered. *)
Theorem token_beyond_int64_dropped (env : CallEnv) (delog : types.Log) (s : Sys)
  (t2 t3 : list byte) :
  types.Topics delog !! 2%nat = Some t2 ->
  types.Topics delog !! 3%nat = Some t3 ->
  2 ^ 63 <= common.Hash_Big t3 ->
  run (trackingService.processTransferLog env delog) s
  = Returned (Some "failed to convert tokenId to int: big.Int value is out of int range"%string)
  /\ coll (exec (trackingService.processTransferLog env delog) s) = coll s.
Proof.
  intros H2 H3 Hbig.
  destruct (processTransferLog_effect env delog s t2 t3 H2 H3) as [Hrun Hcoll].
  rewrite Hrun, Hcoll.
  replace (common.Hash_Big t3 <=? 2 ^ 63 - 1) with false
    by (symmetry; apply Z.leb_gt; lia).
  replace (common.Hash_Big t3 =? - 2 ^ 63) with false
    by (symmetry; apply Z.eqb_neq; lia).
  rewrite andb_false_r. split; reflexivity.
Qed.

Lemma token_beyond_int64_dropped_witness :
  coll (exec (trackingService.processTransferLog (perLog (Sample.node [] 0 0) 0)
                (Sample.transfer 104 0 Sample.ownerX Sample.ownerY (2 ^ 255)))
          (sys_of mongo.empty))
  = mongo.empty.
Proof.
  apply (token_beyond_int64_dropped (perLog (Sample.node [] 0 0) 0)
           (Sample.transfer 104 0 Sample.ownerX Sample.ownerY (2 ^ 255))
           (sys_of mongo.empty) (Sample.word32 Sample.ownerY) (Sample.word32 (2 ^ 255))).
  - reflexivity.
  - reflexivity.
  - vm_compute. discriminate.
Defined.

(** X9: a log with four topics whose token id fits, processed while the
    database answers, on a collection with the unique index: the call
    returns nil and the token has exactly one document, whose owner is the
    EIP-55 text of the address in the third topic, whose contract is that
    of the log's address, whose transaction hash is the hex text of the
    log's, and whose time stamp is the time of processing. *)
Theorem transfer_log_recorded (env : CallEnv) (delog : types.Log) (s : Sys)
  (t2 t3 : list byte) :
  types.Topics delog !! 2%nat = Some t2 ->
  types.Topics delog !! 3%nat = Some t3 ->
  common.Hash_Big t3 <= 2 ^ 63 - 1 ->
  updateOneErr env = None ->
  unique_nftId (coll s) ->
  run (trackingService.processTransferLog env delog) s = Returned None
  /\ exists d,
       records_for (common.Hash_Big t3)
         (coll (exec (trackingService.processTransferLog env delog) s)) = [d]
       /\ d !! "nftId"%string = Some (mongo.BInt (common.Hash_Big t3))
       /\ d !! "ownerAddress"%string
          = Some (mongo.BString (common.Address_Hex (common.BytesToAddress t2)))
       /\ d !! "contractAddress"%string
          = Some (mongo.BString (common.Address_Hex (types.Address delog)))
       /\ d !! "txHash"%string
          = Some (mongo.BString (common.Hash_Hex (types.TxHash delog)))
       /\ d !! "timeStamp"%string = Some (mongo.BDateTime (now env)).
Proof.
  intros H2 H3 Hfit Hdrv Hu.
  destruct (processTransferLog_effect env delog s t2 t3 H2 H3) as [Hrun Hcoll].
  assert (Hpos : 0 <= common.Hash_Big t3).
  { unfold common.Hash_Big, common.SetBytes. apply (SetBytes_fold_range t3 0). lia. }
  replace (-1 <=? common.Hash_Big t3) with true in Hrun, Hcoll
    by (symmetry; apply Z.leb_le; lia).
  replace (common.Hash_Big t3 <=? 2 ^ 63 - 1) with true in Hrun, Hcoll
    by (symmetry; apply Z.leb_le; lia).
  cbn [andb orb] in Hrun, Hcoll. rewrite Hdrv in Hcoll.
  split; [exact Hrun|]. rewrite Hcoll.
  destruct (records_for_upsert_same
              (nftOf env delog (common.BytesToAddress t2) (common.Hash_Big t3))
              (coll s) Hu) as (d & Hrec & Hd).
  exists d. split; [exact Hrec | exact Hd].
Qed.

Lemma transfer_log_recorded_witness :
  exists d,
    records_for 7
      (coll (exec (trackingService.processTransferLog (perLog (Sample.node [] 0 5000) 0)
                     (Sample.transfer 104 0 Sample.ownerX Sample.ownerY 7))
               (sys_of mongo.empty))) = [d]
    /\ d !! "ownerAddress"%string
       = Some (mongo.BString "0x2222222222222222222222222222222222222222").
Proof.
  destruct (transfer_log_recorded (perLog (Sample.node [] 0 5000) 0)
              (Sample.transfer 104 0 Sample.ownerX Sample.ownerY 7)
              (sys_of mongo.empty) (Sample.word32 Sample.ownerY) (Sample.word32 7))
    as (_ & d & Hrec & _ & Howner & _).
  - reflexivity.
  - reflexivity.
  - vm_compute. discriminate.
  - reflexivity.
  - apply NoDup_nil_2.
  - exists d. split; [exact Hrec|]. rewrite Howner. vm_compute. reflexivity.
Defined.

(** ** The address text that is stored *)

Lemma checksum_char_value (hash : list byte) (i : nat) :
  Forall (fun c => common.fromHexChar (common.checksum_char hash i c)
                   = common.fromHexChar c) common.hextable.
Proof.
  unfold common.checksum_char.
  repeat constructor;
    (destruct (7 <? common.nibble hash i); [vm_compute; reflexivity | ]);
    rewrite andb_false_r; reflexivity.
Qed.

Lemma hexdigit_in_table (n : Z) : 0 <= n < 16 -> common.hexdigit n ∈ common.hextable.
Proof.
  intros Hn. unfold common.hexdigit.
  apply list_elem_of_In, nth_In.
  change (length common.hextable) with 16%nat. lia.
Qed.

Lemma hexdigits_of_byte (b : byte) :
  common.hexdigit (Z_of_byte b / 16) ∈ common.hextable
  /\ common.hexdigit (Z_of_byte b mod 16) ∈ common.hextable.
Proof.
  pose proof (Z_of_byte_range b) as Hb.
  split; apply hexdigit_in_table.
  - split; [apply Z.div_pos; lia | apply Z.div_lt_upper_bound; lia].
  - apply Z.mod_pos_bound. lia.
Qed.

(** Decoding hexadecimal text does not depend on the case of its letters. *)
Lemma Hex2Bytes_recased (g : nat -> ascii -> ascii) (bs : list byte) :
  (forall i c, c ∈ common.hextable -> common.fromHexChar (g i c) = common.fromHexChar c) ->
  common.Hex2Bytes
    (string_of_list_ascii (imap g (list_ascii_of_string (common.hex_Encode bs))))
  = bs.
Proof.
  revert g. induction bs as [|b bs IH]; intros g Hg; [reflexivity|].
  destruct (hex_byte_roundtrip b) as (Hhi & Hlo & Hb).
  destruct (hexdigits_of_byte b) as [Hin1 Hin2].
  cbn [common.hex_Encode list_ascii_of_string imap string_of_list_ascii common.Hex2Bytes].
  rewrite (Hg 0%nat _ Hin1), Hhi.
  unfold compose at 1. rewrite (Hg 1%nat _ Hin2), Hlo, Hb.
  f_equal. apply IH. intros i c Hc. unfold compose. apply Hg, Hc.
Qed.

Lemma length_imap_digits (g : nat -> ascii -> ascii) (bs : list byte) :
  String.length
    (string_of_list_ascii (imap g (list_ascii_of_string (common.hex_Encode bs))))
  = (2 * length bs)%nat.
Proof.
  revert g. induction bs as [|b bs IH]; intros g; [reflexivity|].
  cbn [common.hex_Encode list_ascii_of_string imap string_of_list_ascii String.length
         length].
  rewrite IH. lia.
Qed.

Lemma FromHex_Address_Hex (a : list byte) :
  common.FromHex (common.Address_Hex a) = a.
Proof.
  unfold common.FromHex, common.Address_Hex.
  set (hash := crypto.Keccak256 _).
  set (body := string_of_list_ascii _).
  change ("0x" +:+ body) with (String "0"%char (String "x"%char body)).
  change (common.has0xPrefix (String "0"%char (String "x"%char body))) with true.
  cbn [String.length Nat.sub String.substring].
  rewrite Nat.sub_0_r, substring_whole.
  unfold body. rewrite length_imap_digits.
  replace (Nat.odd (2 * length a)) with false
    by (symmetry; rewrite <- Nat.negb_even, Nat.even_mul; reflexivity).
  apply Hex2Bytes_recased. intros i c Hc.
  pose proof (checksum_char_value hash i) as H.
  rewrite Forall_forall in H. now apply H.
Qed.

(** X10: the mixed-case (EIP-55) text under which an owner or contract is
    stored is 42 characters long and reads back, with [HexToAddress], as
    the 20-byte address it was made from. *)
Theorem stored_address_text_reads_back (a : list byte) :
  length a = common.AddressLength ->
  common.HexToAddress (common.Address_Hex a) = a
  /\ String.length (common.Address_Hex a) = 42%nat.
Proof.
  intros Hlen. split.
  - unfold common.HexToAddress. rewrite FromHex_Address_Hex.
    unfold common.BytesToAddress, common.AddressLength in *. rewrite Hlen.
    change (20 <? 20)%nat with false. cbv beta iota zeta. rewrite Hlen. reflexivity.
  - unfold common.Address_Hex.
    set (body := string_of_list_ascii _).
    change ("0x" +:+ body) with (String "0"%char (String "x"%char body)).
    cbn [String.length]. unfold body. rewrite length_imap_digits, Hlen. reflexivity.
Qed.

Lemma stored_address_text_reads_back_witness :
  common.HexToAddress (common.Address_Hex Sample.contract) = Sample.contract.
Proof.
  apply (stored_address_text_reads_back Sample.contract). reflexivity.
Defined.

(** ** Failures of the node *)

Lemma fetchNewLogs_failed (t : trackingService.TransferEventTracker) (env : FetchEnv)
  (hash : list byte) (fromBlock : Z) (s : Sys) :
  match headerByNumber env with
  | inr _ => True
  | inl head => exists e, filterLogs env (pollQuery t hash fromBlock head) = inr e
  end ->
  run (trackingService.fetchNewLogs t env hash fromBlock) s = Returned tt
  /\ coll (exec (trackingService.fetchNewLogs t env hash fromBlock) s) = coll s
  /\ length (logged (exec (trackingService.fetchNewLogs t env hash fromBlock) s))
     = S (length (logged s)).
Proof.
  unfold trackingService.fetchNewLogs. destruct (headerByNumber env) as [head|e].
  - fold (pollQuery t hash fromBlock head). intros [e He].
    rewrite run_bind, !exec_bind. unfold trackingService.FilterLogs.
    rewrite He. split_and!; [reflexivity..|].
    match goal with
    | |- length (logged ?x) = _ =>
        change (logged x)
          with (logged s ++ [ {| format := "Failed to fetch new Transfer events: %v\n";
                                 args := [ArgError e] |} ])
    end. rewrite length_app. cbn [length]. lia.
  - intros _. split_and!; [reflexivity..|].
    match goal with
    | |- length (logged ?x) = _ =>
        change (logged x)
          with (logged s ++ [ {| format := "Failed to get latest block header: %v\n";
                                 args := [ArgError e] |} ])
    end. rewrite length_app. cbn [length]. lia.
Qed.

(** X11: a fetch whose header lookup fails, or whose log request fails,
    leaves the store as it is, writes one line to the log and returns: the
    loop goes on to the next tick. *)
Theorem failed_fetch_changes_nothing (t : trackingService.TransferEventTracker)
  (env : FetchEnv) (hash : list byte) (fromBlock : Z) (s : Sys) :
  match headerByNumber env with
  | inr _ => True
  | inl head => exists e, filterLogs env (pollQuery t hash fromBlock head) = inr e
  end ->
  run (trackingService.fetchNewLogs t env hash fromBlock) s = Returned tt
  /\ coll (exec (trackingService.fetchNewLogs t env hash fromBlock) s) = coll s
  /\ length (logged (exec (trackingService.fetchNewLogs t env hash fromBlock) s))
     = S (length (logged s)).
Proof. apply fetchNewLogs_failed. Qed.

Lemma failed_fetch_changes_nothing_witness :
  coll (exec (trackingService.fetchNewLogs Sample.tracker
                {| headerByNumber := inr "connection refused"%string;
                   filterLogs := fun _ => inl Sample.chain;
                   perLog := fun _ => Sample.storeDown |}
                Sample.sigHash 105) (sys_of mongo.empty))
  = mongo.empty.
Proof.
  apply (failed_fetch_changes_nothing Sample.tracker
           {| headerByNumber := inr "connection refused"%string;
              filterLogs := fun _ => inl Sample.chain;
              perLog := fun _ => Sample.storeDown |}
           Sample.sigHash 105 (sys_of mongo.empty)).
  exact I.
Defined.

(** X12: when FROM_BLOCK is unset or is not a decimal 64-bit integer,
    [TrackTransferEvents] returns an error at once: nothing is asked of the
    node, nothing is written to the store or the log, and no tick is
    served. *)
Theorem bad_start_block_stops_before_any_effect
  (t : trackingService.TransferEventTracker) (getenv : string -> string)
  (ParseDuration : string -> Z + error) (startup : FetchEnv) (ticks : list FetchEnv)
  (s : Sys) :
  (getenv "FROM_BLOCK"%string = ""%string
   \/ exists e, strconv.ParseInt (getenv "FROM_BLOCK"%string) = inr e) ->
  exists err,
    trackingService.TrackTransferEvents t getenv ParseDuration startup ticks s
    = (Returned (Some err), s).
Proof.
  intros H. unfold trackingService.TrackTransferEvents.
  destruct (decide (getenv "FROM_BLOCK"%string = ""%string)) as [He|He].
  - rewrite (bool_decide_eq_true_2 _ He). eexists. reflexivity.
  - rewrite (bool_decide_eq_false_2 _ He).
    destruct H as [H|[e H]]; [contradiction|]. rewrite H. eexists. reflexivity.
Qed.

Lemma bad_start_block_stops_before_any_effect_witness :
  exists err,
    trackingService.TrackTransferEvents Sample.tracker
      (fun name => if bool_decide (name = "FROM_BLOCK"%string) then "0x64"%string
                   else ""%string)
      Sample.ParseDuration (Sample.node Sample.chain 105 5000)
      [Sample.node Sample.chain 110 6000] (sys_of mongo.empty)
    = (Returned (Some err), sys_of mongo.empty).
Proof.
  apply (bad_start_block_stops_before_any_effect Sample.tracker
           (fun name => if bool_decide (name = "FROM_BLOCK"%string) then "0x64"%string
                        else ""%string)).
  right. eexists. vm_compute. reflexivity.
Defined.

(** X13: when the node fails during the backfill (the header lookup, or
    the log request), [TrackTransferEvents] returns the node's error as it
    is, with the store untouched, and serves no tick. *)
Theorem backfill_failure_returns_node_error
  (t : trackingService.TransferEventTracker) (getenv : string -> string)
  (ParseDuration : string -> Z + error) (startup : FetchEnv) (ticks : list FetchEnv)
  (s : Sys) (startBlock : Z) (e : error) :
  let hash := crypto.Keccak256Hash trackingService.transferEventSignature in
  let track := trackingService.TrackTransferEvents t getenv ParseDuration startup ticks in
  getenv "FROM_BLOCK"%string <> ""%string ->
  strconv.ParseInt (getenv "FROM_BLOCK"%string) = inl startBlock ->
  (headerByNumber startup = inr e
   \/ exists head, headerByNumber startup = inl head
                   /\ filterLogs startup (pollQuery t hash startBlock head) = inr e) ->
  run track s = Returned (Some e)
  /\ coll (exec track s) = coll s
  /\ (length (issued (exec track s)) <= S (length (issued s)))%nat.
Proof.
  intros hash track Henv Hparse H. unfold track, trackingService.TrackTransferEvents.
  fold hash. rewrite (bool_decide_eq_false_2 _ Henv), Hparse.
  destruct H as [Hh | (head & Hh & Hf)]; rewrite Hh.
  - split_and!; [reflexivity..|].
    match goal with
    | |- (length (issued ?x) <= _)%nat => change (issued x) with (issued s)
    end. lia.
  - fold (pollQuery t hash startBlock head).
    rewrite run_bind, exec_bind. unfold trackingService.FilterLogs at 1 2 3.
    rewrite Hf. split_and!; [reflexivity..|].
    match goal with
    | |- (length (issued ?x) <= _)%nat =>
        change (issued x) with (issued s ++ [pollQuery t hash startBlock head])
    end. rewrite length_app. cbn [length]. lia.
Qed.

Lemma backfill_failure_returns_node_error_witness :
  run (trackingService.TrackTransferEvents Sample.tracker Sample.getenv
         Sample.ParseDuration
         {| headerByNumber := inr "connection refused"%string;
            filterLogs := fun _ => inl Sample.chain;
            perLog := fun _ => Sample.storeDown |}
         [Sample.node Sample.chain 110 6000]) (sys_of mongo.empty)
  = Returned (Some "connection refused"%string).
Proof.
  apply (backfill_failure_returns_node_error Sample.tracker Sample.getenv
           Sample.ParseDuration
           {| headerByNumber := inr "connection refused"%string;
              filterLogs := fun _ => inl Sample.chain;
              perLog := fun _ => Sample.storeDown |}
           [Sample.node Sample.chain 110 6000] (sys_of mongo.empty) 100
           "connection refused"%string).
  - vm_compute. discriminate.
  - vm_compute. reflexivity.
  - left. reflexivity.
Defined.

(** ** A batch of logs as a sequence of upserts *)

Lemma storeAfterLog_factOf (env : CallEnv) (delog : types.Log) (c : mongo.Collection) :
  storeAfterLog env delog c
  = match factOf env delog with
    | Some f => upsert f c
    | None => c
    end.
Proof.
  unfold storeAfterLog, factOf.
  destruct (trackingService.decodeTransferLog delog) as [[[to [z|]] [e|]]|r];
    try reflexivity.
  destruct (nftModel.BigIntToInt z) as [n [e|]]; [reflexivity|].
  destruct (updateOneErr env); reflexivity.
Qed.

Lemma storeAfterLogs_factsOf (env : nat -> CallEnv) (i : nat) (logs : list types.Log)
  (c : mongo.Collection) :
  storeAfterLogs env i logs c = applyFacts (factsOf env i logs) c.
Proof.
  revert i c. induction logs as [|delog logs IH]; intros i c; [reflexivity|].
  cbn [storeAfterLogs factsOf]. rewrite IH, storeAfterLog_factOf.
  destruct (factOf (env i) delog); reflexivity.
Qed.

(** X14: a batch of logs with four topics each, processed on a collection
    with the unique index, leaves for every token the single document of
    the last log of the batch that contributed a fact for it (decoded,
    converted and stored); tokens without such a log keep what they had. *)
Theorem batch_last_transfer_wins (failed : string) (env : nat -> CallEnv) (i : nat)
  (logs : list types.Log) (s : Sys) (k : Z) :
  forallb four_topics logs = true ->
  unique_nftId (coll s) ->
  run (trackingService.processLogs failed env i logs) s = Returned tt
  /\ match lastFact k (factsOf env i logs) with
     | Some f =>
         exists d,
           records_for k (coll (exec (trackingService.processLogs failed env i logs) s))
           = [d]
           /\ holds_fact d f
     | None =>
         records_for k (coll (exec (trackingService.processLogs failed env i logs) s))
         = records_for k (coll s)
     end.
Proof.
  intros Hfour Hu.
  destruct (processLogs_completes failed env i logs s (four_topics_Forall _ Hfour))
    as [Hrun Hcoll].
  split; [exact Hrun|]. rewrite Hcoll, storeAfterLogs_factsOf.
  now apply applyFacts_last.
Qed.

Lemma batch_last_transfer_wins_witness :
  exists d,
    records_for 7
      (coll (exec (trackingService.processLogs "%v" (perLog (Sample.node [] 0 5000)) 0
                     [Sample.transfer 101 0 0 Sample.ownerX 7;
                      Sample.transfer 104 0 Sample.ownerX Sample.ownerY 7;
                      Sample.transfer 108 0 0 Sample.ownerZ 9])
               (sys_of mongo.empty))) = [d]
    /\ d !! "ownerAddress"%string
       = Some (mongo.BString "0x2222222222222222222222222222222222222222").
Proof.
  destruct (batch_last_transfer_wins "%v" (perLog (Sample.node [] 0 5000)) 0
              [Sample.transfer 101 0 0 Sample.ownerX 7;
               Sample.transfer 104 0 Sample.ownerX Sample.ownerY 7;
               Sample.transfer 108 0 0 Sample.ownerZ 9]
              (sys_of mongo.empty) 7) as [_ H].
  - reflexivity.
  - apply NoDup_nil_2.
  - change (lastFact 7 _) with
      (Some (nftOf (perLog (Sample.node [] 0 5000) 1)
               (Sample.transfer 104 0 Sample.ownerX Sample.ownerY 7)
               (common.BytesToAddress (Sample.word32 Sample.ownerY)) 7)) in H.
    destruct H as (d & Hrec & _ & Howner & _).
    exists d. split; [exact Hrec|]. rewrite Howner. vm_compute. reflexivity.
Defined.

(** ** Processing a batch again *)

Lemma key_of_touch (f : nftModel.NFT) (d : gmap string mongo.bson) :
  key_of (touch f d) = key_of d.
Proof. unfold touch. case_decide; [apply key_of_set_union | reflexivity]. Qed.

Lemma touch_other (f : nftModel.NFT) (l : list (gmap string mongo.bson)) :
  Forall (fun d => key_of d <> Some (mongo.BInt (nftModel.NftID f))) l ->
  touch f <$> l = l.
Proof.
  induction 1 as [|d l Hd _ IH]; [reflexivity|].
  rewrite fmap_cons, IH. unfold touch. case_decide; [contradiction | reflexivity].
Qed.

(** On a collection with the unique index an upsert for a filed token is
    the [$set] applied to the documents of that token. *)
Lemma upsert_present (f : nftModel.NFT) (c : mongo.Collection) :
  unique_nftId c -> has_token (nftModel.NftID f) c = true ->
  upsert f c
  = {| mongo.docs := touch f <$> mongo.docs c; mongo.next_oid := mongo.next_oid c |}.
Proof.
  intros Hu Hhas. pose proof (upsert_by_presence f c) as H. rewrite Hhas in H.
  destruct H as (pre & d & post & Hc & Hpre & Hd & ->).
  unfold unique_nftId in Hu. rewrite Hc in Hu.
  pose proof (unique_after _ pre post d Hu Hd) as Hpost.
  rewrite Hc, fmap_app, fmap_cons, (touch_other f pre Hpre), (touch_other f post Hpost).
  unfold touch at 1. case_decide; [reflexivity | contradiction].
Qed.

Lemma keys_touch (f : nftModel.NFT) (l : list (gmap string mongo.bson)) :
  key_of <$> (touch f <$> l) = key_of <$> l.
Proof.
  induction l as [|d l IH]; [reflexivity|].
  rewrite !fmap_cons, IH, key_of_touch. reflexivity.
Qed.

Lemma applyFacts_present (facts : list nftModel.NFT) (c : mongo.Collection) :
  unique_nftId c ->
  Forall (fun f => has_token (nftModel.NftID f) c = true) facts ->
  applyFacts facts c
  = {| mongo.docs := refresh facts <$> mongo.docs c;
       mongo.next_oid := mongo.next_oid c |}.
Proof.
  revert c. induction facts as [|f facts IH]; intros c Hu Hall.
  - cbn. rewrite list_fmap_id. now destruct c.
  - apply Forall_cons in Hall as [Hf Hall].
    change (applyFacts (f :: facts) c) with (applyFacts facts (upsert f c)).
    rewrite (upsert_present f c Hu Hf). rewrite IH.
    + cbn [mongo.docs mongo.next_oid]. rewrite <- list_fmap_compose. reflexivity.
    + unfold unique_nftId. cbn [mongo.docs]. now rewrite keys_touch.
    + eapply Forall_impl; [exact Hall|]. intros g Hg.
      unfold has_token in *. cbn [mongo.docs]. now rewrite keys_touch.
Qed.

Lemma refresh_snoc (facts : list nftModel.NFT) (f : nftModel.NFT)
  (d : gmap string mongo.bson) :
  refresh (facts ++ [f]) d = touch f (refresh facts d).
Proof. unfold refresh. now rewrite foldl_snoc. Qed.

Lemma key_of_refresh (facts : list nftModel.NFT) (d : gmap string mongo.bson) :
  key_of (refresh facts d) = key_of d.
Proof.
  induction facts as [|f facts IH] using rev_ind; [reflexivity|].
  now rewrite refresh_snoc, key_of_touch.
Qed.

(** What a sequence of [$set]s leaves of a document: the last one that
    is about its token, over the document. *)
Lemma refresh_last (facts : list nftModel.NFT) (d : gmap string mongo.bson) :
  refresh facts d
  = match last (filter (fun f => key_of d = Some (mongo.BInt (nftModel.NftID f))) facts) with
    | Some f => nftModel.set_of f ∪ d
    | None => d
    end.
Proof.
  induction facts as [|f facts IH] using rev_ind; [reflexivity|].
  rewrite refresh_snoc, filter_app, last_app. unfold touch.
  rewrite key_of_refresh.
  destruct (decide (key_of d = Some (mongo.BInt (nftModel.NftID f)))) as [Hk|Hk].
  - rewrite filter_cons_True, filter_nil by exact Hk. cbn [last].
    rewrite IH. destruct (last _); [apply set_union_absorb | reflexivity].
  - rewrite filter_cons_False, filter_nil by exact Hk. cbn [last]. exact IH.
Qed.

Lemma last_filter_same (P P' : nftModel.NFT -> Prop)
  `{!forall f, Decision (P f)} `{!forall f, Decision (P' f)}
  (facts facts' : list nftModel.NFT) :
  Forall2 (fun f f' => same_but_time f f' /\ (P f <-> P' f')) facts facts' ->
  match last (filter P facts), last (filter P' facts') with
  | Some f, Some f' => same_but_time f f'
  | None, None => True
  | _, _ => False
  end.
Proof.
  induction 1 as [|f f' facts facts' [Hsame HP] _ IH]; [exact I|].
  destruct (decide (P f)) as [Hf|Hf].
  - rewrite (filter_cons_True P f facts Hf),
      (filter_cons_True P' f' facts' (proj1 HP Hf)), !last_cons.
    destruct (last (filter P facts)), (last (filter P' facts'));
      first [exact IH | contradiction | exact Hsame].
  - rewrite (filter_cons_False P f facts Hf),
      (filter_cons_False P' f' facts') by (intros H'; apply Hf, HP, H').
    exact IH.
Qed.

Lemma same_but_time_set (f f' : nftModel.NFT) :
  same_but_time f f' ->
  delete "timeStamp"%string (nftModel.set_of f)
  = delete "timeStamp"%string (nftModel.set_of f').
Proof.
  intros (_ & Ho & Hc & Ht). unfold nftModel.set_of. rewrite Ho, Hc, Ht.
  rewrite !delete_insert_ne by discriminate.
  rewrite !delete_singleton_eq. reflexivity.
Qed.

Lemma holds_fact_union (d : gmap string mongo.bson) (f : nftModel.NFT) :
  holds_fact d f -> nftModel.set_of f ∪ d = d.
Proof.
  intros (_ & Ho & Hc & Ht & Hs). apply map_subseteq_union, map_subseteq_spec.
  intros i x. unfold nftModel.set_of.
  rewrite !lookup_insert_Some, lookup_singleton_Some.
  intros [[<- <-] | [_ [[<- <-] | [_ [[<- <-] | [_ [<- <-]]]]]]]; assumption.
Qed.

Lemma records_for_member (k : Z) (c : mongo.Collection) (d x : gmap string mongo.bson) :
  records_for k c = [d] -> x ∈ mongo.docs c -> key_of x = Some (mongo.BInt k) -> x = d.
Proof.
  intros Hrec Hx Hk.
  assert (Hin : x ∈ records_for k c) by (apply list_elem_of_filter; now split).
  rewrite Hrec in Hin. now apply list_elem_of_singleton in Hin.
Qed.

Lemma records_for_has_token (k : Z) (c : mongo.Collection) (d : gmap string mongo.bson) :
  records_for k c = [d] -> has_token k c = true.
Proof.
  intros Hrec. unfold has_token. apply bool_decide_eq_true.
  assert (Hin : d ∈ records_for k c) by (rewrite Hrec; apply list_elem_of_here).
  apply list_elem_of_filter in Hin as [Hk Hin].
  apply list_elem_of_fmap. exists d. split; [now symmetry | exact Hin].
Qed.

Lemma same_but_time_sym (f f' : nftModel.NFT) :
  same_but_time f f' -> same_but_time f' f.
Proof. intros (H1 & H2 & H3 & H4). now split_and!. Qed.

Lemma applyFacts_again (facts facts' : list nftModel.NFT) (c : mongo.Collection) :
  unique_nftId c ->
  Forall2 same_but_time facts facts' ->
  untimed (applyFacts facts' (applyFacts facts c)) = untimed (applyFacts facts c)
  /\ mongo.next_oid (applyFacts facts' (applyFacts facts c))
     = mongo.next_oid (applyFacts facts c).
Proof.
  intros Hu Hsame. set (c1 := applyFacts facts c).
  assert (Hu1 : unique_nftId c1) by now apply applyFacts_unique.
  assert (Hpair : forall k,
             match lastFact k facts, lastFact k facts' with
             | Some f, Some f' => same_but_time f f'
             | None, None => True
             | _, _ => False
             end).
  { intros k. unfold lastFact. apply last_filter_same.
    eapply Forall2_impl; [exact Hsame|]. intros f f' Hff. split; [exact Hff|].
    destruct Hff as (Hk & _). now rewrite Hk. }
  assert (Hpresent : Forall (fun f => has_token (nftModel.NftID f) c1 = true) facts').
  { apply Forall_forall. intros f' Hf'.
    pose proof (Hpair (nftModel.NftID f')) as Hp.
    pose proof (applyFacts_last (nftModel.NftID f') facts c Hu) as Hlast.
    destruct (lastFact (nftModel.NftID f') facts) as [f|].
    - destruct Hlast as (d & Hrec & _). now apply (records_for_has_token _ _ d).
    - destruct (lastFact (nftModel.NftID f') facts') as [g|] eqn:Eg; [contradiction|].
      unfold lastFact in Eg. apply last_None in Eg.
      assert (Hin : f' ∈ filter (fun f => nftModel.NftID f = nftModel.NftID f') facts')
        by (apply list_elem_of_filter; now split).
      rewrite Eg in Hin. now apply elem_of_nil in Hin. }
  rewrite (applyFacts_present facts' c1 Hu1 Hpresent).
  split; [|reflexivity].
  unfold untimed. cbn [mongo.docs]. rewrite <- list_fmap_compose.
  apply list_fmap_ext. intros i d1 Hd1. unfold compose.
  rewrite refresh_last.
  destruct (last _) as [f'|] eqn:Ef'; [|reflexivity].
  assert (Hkey : key_of d1 = Some (mongo.BInt (nftModel.NftID f'))).
  { apply last_Some_elem_of, list_elem_of_filter in Ef'. tauto. }
  pose proof (Hpair (nftModel.NftID f')) as Hp.
  pose proof (applyFacts_last (nftModel.NftID f') facts c Hu) as Hlast.
  assert (Hl' : lastFact (nftModel.NftID f') facts' = Some f').
  { unfold lastFact. rewrite <- Ef'. f_equal. apply list_filter_iff.
    intros g. rewrite Hkey. split; [congruence | intros [=]; congruence]. }
  rewrite Hl' in Hp.
  destruct (lastFact (nftModel.NftID f') facts) as [f|]; [|contradiction].
  destruct Hlast as (d & Hrec & Hd).
  assert (d1 = d) as ->.
  { apply (records_for_member (nftModel.NftID f') c1); [exact Hrec | | exact Hkey].
    apply list_elem_of_lookup. now exists i. }
  rewrite delete_union, <- (same_but_time_set f f' Hp), <- delete_union.
  now rewrite (holds_fact_union d f Hd).
Qed.

Lemma factsOf_same_but_time (env env' : nat -> CallEnv) (i : nat)
  (logs : list types.Log) :
  (forall j, updateOneErr (env j) = None) ->
  (forall j, updateOneErr (env' j) = None) ->
  Forall2 same_but_time (factsOf env i logs) (factsOf env' i logs).
Proof.
  intros He He'. revert i. induction logs as [|delog logs IH]; intros i; [constructor|].
  cbn [factsOf]. unfold factOf. rewrite He, He'.
  destruct (trackingService.decodeTransferLog delog) as [[[to [z|]] [e|]]|r];
    try apply IH.
  destruct (nftModel.BigIntToInt z) as [n [e|]]; [apply IH|].
  constructor; [|apply IH]. unfold same_but_time. now split_and!.
Qed.

(** ** The same fact applied again *)

(** A second upsert that differs from the first in its time stamp at
    most: it is the second alone, and it rewrites the token's document in
    its [timeStamp] only. *)
Lemma upsert_again (f f' : nftModel.NFT) (c : mongo.Collection) :
  same_but_time f f' ->
  upsert f' (upsert f c) = upsert f' c
  /\ untimed (upsert f' (upsert f c)) = untimed (upsert f c)
  /\ mongo.next_oid (upsert f' (upsert f c)) = mongo.next_oid (upsert f c)
  /\ (upsert f' (upsert f c) = upsert f c
      <-> nftModel.TimeStamp f' = nftModel.TimeStamp f).
Proof.
  intros Hsame. pose proof Hsame as (Hk & Ho & Hc & Ht).
  split; [apply upsert_supersede; now symmetry|].
  destruct (upsert_shape f c) as (pre & d & post & Hdocs & Hpre & Hd & Hsub).
  rewrite Hk in Hpre, Hd.
  rewrite (upsert_update f' (upsert f c) pre post d Hdocs Hpre Hd).
  assert (Hts : d !! "timeStamp"%string
                = Some (mongo.BDateTime (nftModel.TimeStamp f))).
  { eapply lookup_weaken; [|exact Hsub]. reflexivity. }
  assert (Hts' : (nftModel.set_of f' ∪ d) !! "timeStamp"%string
                 = Some (mongo.BDateTime (nftModel.TimeStamp f'))).
  { apply lookup_union_Some_l. reflexivity. }
  split_and!.
  - unfold untimed. cbn [mongo.docs]. rewrite Hdocs, !fmap_app, !fmap_cons.
    do 2 f_equal. rewrite delete_union, <- (same_but_time_set f f' Hsame).
    rewrite <- delete_union. f_equal. now apply map_subseteq_union.
  - reflexivity.
  - split.
    + intros Heq. apply (f_equal mongo.docs) in Heq. cbn [mongo.docs] in Heq.
      rewrite Hdocs in Heq. apply app_inv_head in Heq. injection Heq as Heq.
      rewrite Heq, Hts in Hts'. congruence.
    + intros Heq.
      assert (Hset : nftModel.set_of f' = nftModel.set_of f).
      { unfold nftModel.set_of. now rewrite Ho, Hc, Ht, Heq. }
      rewrite Hset, (map_subseteq_union _ _ Hsub), <- Hdocs.
      now destruct (upsert f c).
Qed.

Lemma storeAfterLog_stored (env : CallEnv) (delog : types.Log) (c : mongo.Collection)
  (t2 t3 : list byte) :
  types.Topics delog !! 2%nat = Some t2 ->
  types.Topics delog !! 3%nat = Some t3 ->
  common.Hash_Big t3 <= 2 ^ 63 - 1 ->
  updateOneErr env = None ->
  storeAfterLog env delog c
  = upsert (nftOf env delog (common.BytesToAddress t2) (common.Hash_Big t3)) c.
Proof.
  intros H2 H3 Hfit Hdrv.
  destruct (processTransferLog_effect env delog (sys_of c) t2 t3 H2 H3) as [_ Hcoll].
  assert (Hge : (4 <= length (types.Topics delog))%nat).
  { apply lookup_lt_Some in H3. lia. }
  destruct (decodeTransferLog_ge4 delog Hge) as (t2' & t3' & H2' & H3' & Hdec).
  destruct (processTransferLog_decoded env delog (sys_of c) _ _ Hdec) as [_ Hstore].
  rewrite Hstore in Hcoll. cbn [coll sys_of] in Hcoll. rewrite Hcoll.
  assert (Hpos : 0 <= common.Hash_Big t3).
  { unfold common.Hash_Big, common.SetBytes. apply (SetBytes_fold_range t3 0). lia. }
  replace (-1 <=? common.Hash_Big t3) with true by (symmetry; apply Z.leb_le; lia).
  replace (common.Hash_Big t3 <=? 2 ^ 63 - 1) with true by (symmetry; apply Z.leb_le; lia).
  cbn [andb orb]. now rewrite Hdrv.
Qed.

(** The same log any number of times in a batch: the store is that of
    the last pass alone. *)
Lemma storeAfterLogs_replicate (env : nat -> CallEnv) (delog : types.Log)
  (t2 t3 : list byte) (n i : nat) (c : mongo.Collection) :
  types.Topics delog !! 2%nat = Some t2 ->
  types.Topics delog !! 3%nat = Some t3 ->
  common.Hash_Big t3 <= 2 ^ 63 - 1 ->
  (forall j, updateOneErr (env j) = None) ->
  storeAfterLogs env i (replicate (S n) delog) c
  = upsert (nftOf (env (i + n)%nat) delog (common.BytesToAddress t2)
              (common.Hash_Big t3)) c.
Proof.
  intros H2 H3 Hfit Hdrv. revert i c. induction n as [|n IH]; intros i c.
  - cbn [replicate storeAfterLogs]. rewrite Nat.add_0_r.
    now apply storeAfterLog_stored.
  - change (replicate (S (S n)) delog) with (delog :: replicate (S n) delog).
    cbn [storeAfterLogs]. rewrite IH.
    rewrite (storeAfterLog_stored (env i) delog c t2 t3 H2 H3 Hfit (Hdrv i)).
    rewrite upsert_supersede by reflexivity.
    now rewrite Nat.add_succ_r.
Qed.

(** C6, as the code has it.  [CreateUpdateNFT] is idempotent for one
    receiver, its time stamp included: any number (at least one) of
    executed calls leaves the collection as a single call does.  A fact
    read from a log has no time stamp of its own: [processTransferLog]
    stamps the time of processing on every application.  So the same log
    applied any number of times, with the database answering, leaves the
    store as the last application alone does: the store after the first
    application with the token's [timeStamp] rewritten, no document
    added; the two stores are equal exactly when the last clock reading
    equals the first. *)
Theorem reapplied_fact_restamps (failed : string) (env : nat -> CallEnv)
  (delog : types.Log) (s : Sys) (t2 t3 : list byte) (n m : nat) (nft : nftModel.NFT) :
  types.Topics delog !! 2%nat = Some t2 ->
  types.Topics delog !! 3%nat = Some t3 ->
  common.Hash_Big t3 <= 2 ^ 63 - 1 ->
  (forall j, updateOneErr (env j) = None) ->
  let once := coll (exec (trackingService.processTransferLog (env 0%nat) delog) s) in
  let again :=
    coll (exec (trackingService.processLogs failed env 0 (replicate (S n) delog)) s) in
  coll (exec (upsertTimes (S m) nft) s)
  = coll (exec (nftModel.CreateUpdateNFT None nft) s)
  /\ run (trackingService.processLogs failed env 0 (replicate (S n) delog)) s
     = Returned tt
  /\ again = coll (exec (trackingService.processTransferLog (env n) delog) s)
  /\ untimed again = untimed once
  /\ mongo.next_oid again = mongo.next_oid once
  /\ (again = once <-> now (env n) = now (env 0%nat)).
Proof.
  intros H2 H3 Hfit Hdrv once again.
  split; [apply upsertTimes_coll|].
  assert (Hge : (4 <= length (types.Topics delog))%nat).
  { apply lookup_lt_Some in H3. lia. }
  destruct (processLogs_completes failed env 0 (replicate (S n) delog) s) as [Hrun Hcoll].
  { apply Forall_replicate. exact Hge. }
  split; [exact Hrun|].
  assert (Hstore : forall e, updateOneErr e = None ->
            coll (exec (trackingService.processTransferLog e delog) s)
            = upsert (nftOf e delog (common.BytesToAddress t2) (common.Hash_Big t3))
                (coll s)).
  { intros e He.
    destruct (decodeTransferLog_ge4 delog Hge) as (t2' & t3' & _ & _ & Hdec).
    destruct (processTransferLog_decoded e delog s _ _ Hdec) as [_ ->].
    now apply storeAfterLog_stored. }
  unfold again, once. rewrite Hcoll.
  rewrite (storeAfterLogs_replicate env delog t2 t3 n 0 (coll s) H2 H3 Hfit Hdrv).
  rewrite !Hstore by apply Hdrv. cbn [Nat.add].
  set (f := nftOf (env 0%nat) delog (common.BytesToAddress t2) (common.Hash_Big t3)).
  set (f' := nftOf (env n) delog (common.BytesToAddress t2) (common.Hash_Big t3)).
  assert (Hsame : same_but_time f f') by (now split_and!).
  destruct (upsert_again f f' (coll s) Hsame) as (E1 & E2 & E3 & E4).
  rewrite <- E1. split_and!; [reflexivity | exact E2 | exact E3 | exact E4].
Qed.

Lemma reapplied_fact_restamps_witness :
  let env := fun j : nat => {| now := 5000 + Z.of_nat j; updateOneErr := None |} in
  let delog := Sample.transfer 104 0 Sample.ownerX Sample.ownerY 7 in
  untimed (coll (exec (trackingService.processLogs "%v" env 0 (replicate 3 delog))
                   (sys_of mongo.empty)))
  = untimed (coll (exec (trackingService.processTransferLog (env 0%nat) delog)
                     (sys_of mongo.empty)))
  /\ coll (exec (trackingService.processLogs "%v" env 0 (replicate 3 delog))
             (sys_of mongo.empty))
     <> coll (exec (trackingService.processTransferLog (env 0%nat) delog)
                (sys_of mongo.empty)).
Proof.
  intros env delog.
  assert (Hfit : common.Hash_Big (Sample.word32 7) <= 2 ^ 63 - 1)
    by (vm_compute; discriminate).
  destruct (reapplied_fact_restamps "%v" env delog (sys_of mongo.empty)
              (Sample.word32 Sample.ownerY) (Sample.word32 7) 2 2 Sample.nftX
              eq_refl eq_refl Hfit (fun _ => eq_refl))
    as (_ & _ & _ & Hsame & _ & Hiff).
  split; [exact Hsame|].
  intros Heq. apply Hiff in Heq. vm_compute in Heq. discriminate Heq.
Defined.

(** The identical fact applied twice, at two times: the second pass
    changes the record, so the store is not that after the first. *)
Lemma reapplied_fact_differs :
  let delog := Sample.transfer 104 0 Sample.ownerX Sample.ownerY 7 in
  let at_ t := {| now := t; updateOneErr := None |} in
  let once := exec (trackingService.processTransferLog (at_ 5000) delog)
                (sys_of mongo.empty) in
  let twice := exec (trackingService.processTransferLog (at_ 6000) delog) once in
  coll twice <> coll once
  /\ (fun d => d !! "timeStamp"%string) <$> mongo.docs (coll once)
     = [Some (mongo.BDateTime 5000)]
  /\ (fun d => d !! "timeStamp"%string) <$> mongo.docs (coll twice)
     = [Some (mongo.BDateTime 6000)].
Proof.
  intros delog at_ once twice.
  assert (H1 : (fun d => d !! "timeStamp"%string) <$> mongo.docs (coll once)
               = [Some (mongo.BDateTime 5000)]) by (vm_compute; reflexivity).
  assert (H2 : (fun d => d !! "timeStamp"%string) <$> mongo.docs (coll twice)
               = [Some (mongo.BDateTime 6000)]) by (vm_compute; reflexivity).
  split_and!; [|exact H1 | exact H2].
  intros Heq. rewrite Heq, H1 in H2. discriminate H2.
Qed.

(** X15: processing the same batch a second time, as the overlapping poll
    ranges make the tracker do, changes nothing in the store but time
    stamps: with the database answering both times, the documents after
    the second pass are, their [timeStamp] fields apart, those after the
    first, and no document is added. *)
Theorem reprocessing_changes_only_time_stamps (failed failed' : string)
  (env env' : nat -> CallEnv) (logs : list types.Log) (s : Sys) :
  forallb four_topics logs = true ->
  (forall j, updateOneErr (env j) = None) ->
  (forall j, updateOneErr (env' j) = None) ->
  unique_nftId (coll s) ->
  let s1 := exec (trackingService.processLogs failed env 0 logs) s in
  let s2 := exec (trackingService.processLogs failed' env' 0 logs) s1 in
  untimed (coll s2) = untimed (coll s1)
  /\ mongo.next_oid (coll s2) = mongo.next_oid (coll s1).
Proof.
  intros Hfour He He' Hu s1 s2.
  pose proof (four_topics_Forall _ Hfour) as Hall.
  destruct (processLogs_completes failed env 0 logs s Hall) as [_ Hc1].
  destruct (processLogs_completes failed' env' 0 logs s1 Hall) as [_ Hc2].
  fold s1 in Hc1. fold s2 in Hc2.
  rewrite Hc2, Hc1, !storeAfterLogs_factsOf.
  apply applyFacts_again; [exact Hu|]. now apply factsOf_same_but_time.
Qed.

Lemma reprocessing_changes_only_time_stamps_witness :
  let s1 := exec (trackingService.processLogs "%v" (perLog (Sample.node [] 0 5000)) 0
                    Sample.chain) (sys_of mongo.empty) in
  let s2 := exec (trackingService.processLogs "%v" (perLog (Sample.node [] 0 6000)) 0
                    Sample.chain) s1 in
  untimed (coll s2) = untimed (coll s1).
Proof.
  apply (reprocessing_changes_only_time_stamps "%v" "%v"
           (perLog (Sample.node [] 0 5000)) (perLog (Sample.node [] 0 6000))
           Sample.chain (sys_of mongo.empty)).
  - reflexivity.
  - intros j. reflexivity.
  - intros j. reflexivity.
  - apply NoDup_nil_2.
Defined.

(** ** The ticker *)

Lemma TrackTransferEvents_to_ticker (t : trackingService.TransferEventTracker)
  (getenv : string -> string) (ParseDuration : string -> Z + error)
  (startup : FetchEnv) (ticks : list FetchEnv) (s : Sys)
  (startBlock latestBlock : Z) (historicalLogs : list types.Log) (d : Z) :
  let hash := crypto.Keccak256Hash trackingService.transferEventSignature in
  let interval := getenv "FETCH_INTERVAL"%string in
  getenv "FROM_BLOCK"%string <> ""%string ->
  strconv.ParseInt (getenv "FROM_BLOCK"%string) = inl startBlock ->
  headerByNumber startup = inl latestBlock ->
  filterLogs startup (pollQuery t hash startBlock latestBlock) = inl historicalLogs ->
  forallb four_topics historicalLogs = true ->
  ParseDuration (if bool_decide (interval = ""%string) then "10m"%string else interval)
  = inl d ->
  exists s1,
    issued s1 = issued s ++ [pollQuery t hash startBlock latestBlock]
    /\ coll s1 = storeAfterLogs (perLog startup) 0 historicalLogs (coll s)
    /\ trackingService.TrackTransferEvents t getenv ParseDuration startup ticks s
       = (trackingService.NewTicker d;;
          trackingService.pollLoop t hash latestBlock ticks) s1.
Proof.
  intros hash interval Henv Hparse Hhead Hlogs Hfour Hd.
  unfold trackingService.TrackTransferEvents. fold hash.
  rewrite (bool_decide_eq_false_2 _ Henv), Hparse, Hhead.
  fold (pollQuery t hash startBlock latestBlock).
  erewrite bind_returned by reflexivity. rewrite Hlogs.
  match goal with
  | |- context [(trackingService.processLogs ?f ?e ?i ?l ≫= _) ?s0] =>
      destruct (processLogs_completes f e i l s0 (four_topics_Forall _ Hfour))
        as [Hrun Hcoll];
      pose proof (keeps_issued_processLogs f e i l s0) as Hkeep;
      rewrite (bind_returned _ _ _ _ _ (run_exec _ _ _ Hrun));
      set (s1 := exec (trackingService.processLogs f e i l) s0) in *
  end.
  cbn [coll issued] in Hcoll, Hkeep. fold interval. rewrite Hd.
  erewrite bind_returned by reflexivity.
  exists s1. split_and!; [exact Hkeep | exact Hcoll | reflexivity].
Qed.

(** X16: an interval that parses to zero or to a negative duration makes
    the creation of the ticker panic, after the backfill has been carried
    out: the store holds the backfill's result, and no tick is served. *)
Theorem nonpositive_interval_panics (t : trackingService.TransferEventTracker)
  (getenv : string -> string) (ParseDuration : string -> Z + error)
  (startup : FetchEnv) (ticks : list FetchEnv) (s : Sys)
  (startBlock latestBlock : Z) (historicalLogs : list types.Log) (d : Z) :
  let hash := crypto.Keccak256Hash trackingService.transferEventSignature in
  let interval := getenv "FETCH_INTERVAL"%string in
  let track := trackingService.TrackTransferEvents t getenv ParseDuration startup ticks in
  getenv "FROM_BLOCK"%string <> ""%string ->
  strconv.ParseInt (getenv "FROM_BLOCK"%string) = inl startBlock ->
  headerByNumber startup = inl latestBlock ->
  filterLogs startup (pollQuery t hash startBlock latestBlock) = inl historicalLogs ->
  forallb four_topics historicalLogs = true ->
  ParseDuration (if bool_decide (interval = ""%string) then "10m"%string else interval)
  = inl d ->
  d <= 0 ->
  run track s = Panicked "non-positive interval for NewTicker"
  /\ coll (exec track s) = storeAfterLogs (perLog startup) 0 historicalLogs (coll s)
  /\ issued (exec track s) = issued s ++ [pollQuery t hash startBlock latestBlock].
Proof.
  intros hash interval track Henv Hparse Hhead Hlogs Hfour Hd Hneg.
  destruct (TrackTransferEvents_to_ticker t getenv ParseDuration startup ticks s
              startBlock latestBlock historicalLogs d Henv Hparse Hhead Hlogs Hfour Hd)
    as (s1 & Hissued & Hcoll & Heq).
  fold hash in Hissued, Heq. unfold track, run, exec. rewrite Heq.
  unfold mbind, M_bind, trackingService.NewTicker.
  replace (0 <? d) with false by (symmetry; apply Z.ltb_ge; lia).
  cbn [fst snd panic]. now split_and!.
Qed.

Lemma nonpositive_interval_panics_witness :
  run (trackingService.TrackTransferEvents Sample.tracker
         (fun name => if bool_decide (name = "FETCH_INTERVAL"%string) then "0s"%string
                      else Sample.getenv name)
         Sample.ParseDuration (Sample.node Sample.chain 105 5000)
         [Sample.node Sample.chain 110 6000])
    (sys_of mongo.empty)
  = Panicked "non-positive interval for NewTicker".
Proof.
  apply (nonpositive_interval_panics Sample.tracker
           (fun name => if bool_decide (name = "FETCH_INTERVAL"%string) then "0s"%string
                        else Sample.getenv name)
           Sample.ParseDuration (Sample.node Sample.chain 105 5000)
           [Sample.node Sample.chain 110 6000] (sys_of mongo.empty) 100 105
           [Sample.transfer 101 0 0 Sample.ownerX 7;
            Sample.transfer 104 0 Sample.ownerX Sample.ownerY 7] 0).
  - vm_compute. discriminate.
  - vm_compute. reflexivity.
  - reflexivity.
  - vm_compute. reflexivity.
  - reflexivity.
  - vm_compute. reflexivity.
  - lia.
Defined.

(** ** The constructor *)

Lemma parseAddrs_filter (addrStrings : list string) (acc : list (list byte)) (s : Sys) :
  run (trackingService.parseAddrs addrStrings acc) s
  = Returned (acc ++ filter (fun a => a <> trackingService.zeroAddress)
                       (common.HexToAddress <$> addrStrings))
  /\ coll (exec (trackingService.parseAddrs addrStrings acc) s) = coll s
  /\ issued (exec (trackingService.parseAddrs addrStrings acc) s) = issued s.
Proof.
  revert acc s. induction addrStrings as [|addr rest IH]; intros acc s.
  - cbn. rewrite app_nil_r. now split_and!.
  - cbn [trackingService.parseAddrs]. rewrite fmap_cons.
    destruct (decide (common.HexToAddress addr = trackingService.zeroAddress)) as [Hz|Hz].
    + rewrite (bool_decide_eq_true_2 _ Hz), filter_cons_False by (intros H; now apply H).
      rewrite run_bind, exec_bind. unfold Printf at 1 2 3.
      match goal with
      | |- run _ ?s' = _ /\ _ => destruct (IH acc s') as (H1 & H2 & H3)
      end.
      split_and!; [exact H1 | exact H2 | exact H3].
    + rewrite (bool_decide_eq_false_2 _ Hz), filter_cons_True by exact Hz.
      destruct (IH (acc ++ [common.HexToAddress addr]) s) as (H1 & H2 & H3).
      rewrite H1, <- app_assoc. now split_and!.
Qed.

Lemma CreateIndexes_cases (driverErr : option error) (s : Sys) :
  if bool_decide (driverErr = None /\ unique_nftId (coll s))
  then run (nftModel.CreateIndexes driverErr) s = Returned tt
  else run (nftModel.CreateIndexes driverErr) s = Panicked "os.Exit(1)".
Proof.
  unfold nftModel.CreateIndexes, run, unique_nftId.
  destruct driverErr as [e|].
  - rewrite bool_decide_eq_false_2 by (intros [H _]; discriminate). reflexivity.
  - change (key_of <$> mongo.docs (coll s))
      with ((fun d : gmap string mongo.bson => d !! "nftId"%string) <$> mongo.docs (coll s)).
    destruct (decide (NoDup ((fun d : gmap string mongo.bson => d !! "nftId"%string)
                               <$> mongo.docs (coll s)))) as [Hn|Hn].
    + rewrite (bool_decide_eq_true_2 _ Hn), bool_decide_eq_true_2 by now split.
      reflexivity.
    + rewrite (bool_decide_eq_false_2 _ Hn), bool_decide_eq_false_2 by (intros [_ H]; auto).
      reflexivity.
Qed.

Lemma CreateIndexes_coll (driverErr : option error) (s : Sys) :
  coll (exec (nftModel.CreateIndexes driverErr) s) = coll s
  /\ issued (exec (nftModel.CreateIndexes driverErr) s) = issued s.
Proof.
  unfold nftModel.CreateIndexes, exec. destruct driverErr; [now split|].
  case_bool_decide; now split.
Qed.

(** X17: [NewTransferEventTracker] exits the process, before reading any
    other setting, unless the collection is there, the driver creates the
    index and no two documents of the collection carry the same [nftId].
    So whenever it returns, with a tracker or with an error, the unique
    index holds of the collection, which it has not changed. *)
Theorem constructor_returns_only_with_unique_index (getenv : string -> string)
  (boot : trackingService.Bootstrap) (s : Sys) :
  let new := trackingService.NewTransferEventTracker getenv boot in
  coll (exec new s) = coll s
  /\ if bool_decide (trackingService.GetCollection boot (getenv "DB_NAME"%string)
                       "NFT"%string = true
                     /\ trackingService.createIndexErr boot = None
                     /\ unique_nftId (coll s))
     then exists r, run new s = Returned r
     else run new s = Panicked "os.Exit(1)".
Proof.
  intros new. unfold new, trackingService.NewTransferEventTracker.
  destruct (trackingService.GetCollection boot (getenv "DB_NAME"%string) "NFT"%string)
    eqn:Hc.
  2:{ split; [reflexivity|].
      rewrite bool_decide_eq_false_2 by (intros [H _]; discriminate). reflexivity. }
  rewrite run_bind, exec_bind. cbn [mret M_ret].
  rewrite run_bind, exec_bind.
  pose proof (CreateIndexes_cases (trackingService.createIndexErr boot) s) as Hidx.
  pose proof (CreateIndexes_coll (trackingService.createIndexErr boot) s) as [Hic _].
  unfold run, exec in Hidx, Hic.
  destruct (nftModel.CreateIndexes (trackingService.createIndexErr boot) s) as [o s1].
  cbn [fst snd] in Hidx, Hic.
  destruct (decide (trackingService.createIndexErr boot = None /\ unique_nftId (coll s)))
    as [Hb|Hb].
  - rewrite (bool_decide_eq_true_2 _ Hb) in Hidx. subst o.
    rewrite (bool_decide_eq_true_2
               (true = true /\ trackingService.createIndexErr boot = None
                /\ unique_nftId (coll s))) by (destruct Hb; now split_and!).
    rewrite <- Hic. clear Hic Hb.
    destruct (bool_decide (getenv "ETH_RPC_ENDPOINT"%string = ""%string));
      [split; [reflexivity | eexists; reflexivity]|].
    destruct (trackingService.Dial boot _);
      [split; [reflexivity | eexists; reflexivity]|].
    destruct (bool_decide (getenv "CONTRACT_ADDRESSES"%string = ""%string));
      [split; [reflexivity | eexists; reflexivity]|].
    destruct (trackingService.Unmarshal boot _) as [addrs|e];
      [|split; [reflexivity | eexists; reflexivity]].
    rewrite run_bind, exec_bind.
    destruct (parseAddrs_filter addrs [] s1) as (Hr & Hcoll & _).
    unfold run, exec in Hr, Hcoll.
    destruct (trackingService.parseAddrs addrs [] s1) as [o2 s2].
    cbn [fst snd] in Hr, Hcoll. subst o2.
    destruct (bool_decide (_ = [])); (split; [exact Hcoll | eexists; reflexivity]).
  - rewrite (bool_decide_eq_false_2 _ Hb) in Hidx. subst o.
    rewrite (bool_decide_eq_false_2
               (true = true /\ trackingService.createIndexErr boot = None
                /\ unique_nftId (coll s)))
      by (intros (_ & H1 & H2); apply Hb; now split).
    split; [exact Hic | reflexivity].
Qed.

(** X18: when the collection, the index, the endpoint and the client are
    in order and CONTRACT_ADDRESSES parses to a list of strings, the
    tracker is made of the addresses that [HexToAddress] reads from them,
    in order, without those that read as the zero address (text that is
    not hexadecimal reads so); each kept address has 20 bytes.  If none is
    kept the constructor returns an error instead of a tracker. *)
Theorem constructor_keeps_nonzero_addresses (getenv : string -> string)
  (boot : trackingService.Bootstrap) (s : Sys) (addrStrings : list string) :
  trackingService.GetCollection boot (getenv "DB_NAME"%string) "NFT"%string = true ->
  trackingService.createIndexErr boot = None ->
  unique_nftId (coll s) ->
  getenv "ETH_RPC_ENDPOINT"%string <> ""%string ->
  trackingService.Dial boot (getenv "ETH_RPC_ENDPOINT"%string) = None ->
  getenv "CONTRACT_ADDRESSES"%string <> ""%string ->
  trackingService.Unmarshal boot (getenv "CONTRACT_ADDRESSES"%string) = inl addrStrings ->
  let valid := filter (fun a => a <> trackingService.zeroAddress)
                 (common.HexToAddress <$> addrStrings) in
  run (trackingService.NewTransferEventTracker getenv boot) s
  = Returned
      (if bool_decide (valid = [])
       then (None,
             Some "no valid contract addresses found in CONTRACT_ADDRESSES environment variable"%string)
       else (Some {| trackingService.contractAddrs := valid |}, None))
  /\ Forall (fun a => length a = 20%nat /\ a <> trackingService.zeroAddress) valid.
Proof.
  intros Hc Hidx Hu Hrpc Hdial Haddr Hjson valid. split.
  - unfold trackingService.NewTransferEventTracker. rewrite Hc, Hidx.
    rewrite run_bind. cbn [mret M_ret]. rewrite run_bind.
    pose proof (CreateIndexes_cases None s) as Hi.
    rewrite bool_decide_eq_true_2 in Hi by now split.
    rewrite (run_exec _ _ _ Hi).
    rewrite (bool_decide_eq_false_2 _ Hrpc), Hdial, (bool_decide_eq_false_2 _ Haddr), Hjson.
    rewrite run_bind.
    match goal with
    | |- context [trackingService.parseAddrs addrStrings [] ?s0] =>
        destruct (parseAddrs_filter addrStrings [] s0) as (Hr & _ & _);
        rewrite (run_exec _ _ _ Hr)
    end.
    cbn [app]. fold valid. case_bool_decide; reflexivity.
  - apply Forall_forall. intros a Ha. unfold valid in Ha.
    apply list_elem_of_filter in Ha as [Hnz Ha].
    apply list_elem_of_fmap in Ha as (x & -> & _).
    split; [apply length_BytesToAddress | exact Hnz].
Qed.

Lemma constructor_keeps_nonzero_addresses_witness :
  run (trackingService.NewTransferEventTracker Fixture.getenv Fixture.boot)
    (sys_of mongo.empty)
  = Returned (Some {| trackingService.contractAddrs := [Sample.contract] |}, None).
Proof.
  destruct (constructor_keeps_nonzero_addresses Fixture.getenv Fixture.boot
              (sys_of mongo.empty)
              ["0xbc4ca0eda7647a8ab7c2061c2e118a18a936f13d"; "not an address"; "0x0"]%string)
    as [H _].
  - reflexivity.
  - reflexivity.
  - apply NoDup_nil_2.
  - vm_compute. discriminate.
  - reflexivity.
  - vm_compute. discriminate.
  - reflexivity.
  - rewrite H. vm_compute. reflexivity.
Defined.

(** ** Reading the collection *)

Lemma bson_leb_total (x y : option mongo.bson) :
  nftModel.bson_leb x y = false -> nftModel.bson_leb y x = true.
Proof.
  destruct x as [[a|a|a|a]|], y as [[b|b|b|b]|]; cbn;
    try (intros H; apply Z.leb_gt in H; apply Z.leb_le; lia);
    try discriminate; try reflexivity.
  - intros H. destruct (String.leb_total a b) as [H'|H']; congruence.
  - intros H. apply N.leb_gt in H. apply N.leb_le. lia.
Qed.

Lemma insert_desc_perm (field : string) (x : gmap string mongo.bson)
  (l : list (gmap string mongo.bson)) :
  nftModel.insert_desc field x l ≡ₚ x :: l.
Proof.
  induction l as [|y l IH]; cbn [nftModel.insert_desc]; [reflexivity|].
  destruct (nftModel.bson_leb _ _); [reflexivity|].
  rewrite IH. apply Permutation_swap.
Qed.

Lemma sort_desc_perm (field : string) (l : list (gmap string mongo.bson)) :
  nftModel.sort_desc field l ≡ₚ l.
Proof.
  induction l as [|x l IH]; [reflexivity|].
  unfold nftModel.sort_desc in *. cbn [foldr].
  now rewrite insert_desc_perm, IH.
Qed.

Lemma insert_desc_sorted (field : string) (x : gmap string mongo.bson)
  (l : list (gmap string mongo.bson)) :
  Sorted (fun a b => nftModel.bson_leb (b !! field) (a !! field) = true) l ->
  Sorted (fun a b => nftModel.bson_leb (b !! field) (a !! field) = true)
    (nftModel.insert_desc field x l).
Proof.
  induction 1 as [|y l Hs IH Hhd]; cbn [nftModel.insert_desc].
  - repeat constructor.
  - destruct (nftModel.bson_leb (y !! field) (x !! field)) eqn:E.
    + constructor; [now constructor | constructor; exact E].
    + constructor; [exact IH|].
      destruct Hhd as [|z l' Hz]; cbn [nftModel.insert_desc].
      * constructor. now apply bson_leb_total.
      * destruct (nftModel.bson_leb (z !! field) (x !! field));
          constructor; [now apply bson_leb_total | exact Hz].
Qed.

Lemma sort_desc_sorted (field : string) (l : list (gmap string mongo.bson)) :
  Sorted (fun a b => nftModel.bson_leb (b !! field) (a !! field) = true)
    (nftModel.sort_desc field l).
Proof.
  induction l as [|x l IH]; [constructor|].
  unfold nftModel.sort_desc in *. cbn [foldr]. now apply insert_desc_sorted.
Qed.

Lemma matches_empty (d : gmap string mongo.bson) : mongo.matches ∅ d = true.
Proof. unfold mongo.matches. apply bool_decide_eq_true, map_Forall_empty. Qed.

Lemma filter_all {A} (f : A -> bool) (l : list A) :
  (forall x, f x = true) -> List.filter f l = l.
Proof.
  intros Hf. induction l as [|x l IH]; [reflexivity|].
  cbn [List.filter]. now rewrite Hf, IH.
Qed.

Lemma Find_all (c : mongo.Collection) :
  nftModel.Find ∅ c = nftModel.sort_desc "nftId" (mongo.docs c).
Proof. unfold nftModel.Find. now rewrite (filter_all _ _ matches_empty). Qed.

Lemma elem_of_Find (filter d : gmap string mongo.bson) (c : mongo.Collection) :
  d ∈ nftModel.Find filter c <-> d ∈ mongo.docs c /\ mongo.matches filter d = true.
Proof.
  unfold nftModel.Find. rewrite sort_desc_perm.
  rewrite !list_elem_of_In. apply filter_In.
Qed.

(** A read changes neither the store nor the requests sent to the node;
    it returns, and with an error it returns the nil slice. *)
Lemma drain_shape (codec : nftModel.BsonCodec) (env : nftModel.ReadEnv) (i : nat)
  (pending : list (gmap string mongo.bson)) (acc : list nftModel.NFT) (s : Sys) :
  coll (exec (nftModel.drain codec env i pending acc) s) = coll s
  /\ issued (exec (nftModel.drain codec env i pending acc) s) = issued s
  /\ exists nfts err,
       run (nftModel.drain codec env i pending acc) s = Returned (nfts, err)
       /\ (err <> None -> nfts = []).
Proof.
  revert i acc. induction pending as [|d rest IH]; intros i acc;
    cbn [nftModel.drain]; destruct (nftModel.cursorErr env i) as [e|].
  - split_and!; [reflexivity..|]. exists [], (Some e). split; [reflexivity | auto].
  - split_and!; [reflexivity..|]. exists acc, None. split; [reflexivity | congruence].
  - split_and!; [reflexivity..|]. exists [], (Some e). split; [reflexivity | auto].
  - destruct (nftModel.Decode codec d) as [nft|e]; [apply IH|].
    split_and!; [reflexivity..|]. exists [], (Some e). split; [reflexivity | auto].
Qed.

Lemma findAndDrain_shape (codec : nftModel.BsonCodec) (env : nftModel.ReadEnv)
  (filter : gmap string mongo.bson) (s : Sys) :
  coll (exec (nftModel.findAndDrain codec env filter) s) = coll s
  /\ issued (exec (nftModel.findAndDrain codec env filter) s) = issued s
  /\ (exists nfts err,
        run (nftModel.findAndDrain codec env filter) s = Returned (nfts, err)
        /\ (err <> None -> nfts = []))
  /\ (forall e, nftModel.findErr env = Some e ->
        run (nftModel.findAndDrain codec env filter) s = Returned ([], Some e)).
Proof.
  unfold nftModel.findAndDrain, run, exec. destruct (nftModel.findErr env) as [e|].
  - split_and!; [reflexivity..| |].
    + exists [], (Some e). split; [reflexivity | auto].
    + intros e' [= <-]. reflexivity.
  - destruct (drain_shape codec env 0 (nftModel.Find filter (coll s)) [] s)
      as (H1 & H2 & H3).
    split_and!; [exact H1 | exact H2 | exact H3 | discriminate].
Qed.

(** X19: [GetAllNfts] and [GetWalletNfts] never change the store and never
    panic; whenever they return an error the slice they return is nil, so
    no partial result is handed on; a failed [Find] is returned as it is. *)
Theorem reads_return_nil_on_error (codec : nftModel.BsonCodec) (env : nftModel.ReadEnv)
  (walletAddress : string) (s : Sys) :
  let all := nftModel.GetAllNfts codec env in
  let wallet := nftModel.GetWalletNfts codec env walletAddress in
  coll (exec all s) = coll s
  /\ coll (exec wallet s) = coll s
  /\ (exists nfts err,
        run all s = Returned (nfts, err) /\ (err <> None -> nfts = []))
  /\ (exists nfts err,
        run wallet s = Returned (nfts, err) /\ (err <> None -> nfts = []))
  /\ (forall e, nftModel.findErr env = Some e ->
        run all s = Returned ([], Some e) /\ run wallet s = Returned ([], Some e)).
Proof.
  intros all wallet. unfold all, wallet, nftModel.GetAllNfts, nftModel.GetWalletNfts.
  destruct (findAndDrain_shape codec env ∅ s) as (A1 & _ & A3 & A4).
  destruct (findAndDrain_shape codec env
              {[ "ownerAddress"%string := mongo.BString walletAddress ]} s)
    as (W1 & _ & W3 & W4).
  split_and!; try assumption. intros e He. split; [now apply A4 | now apply W4].
Qed.

Lemma Decode_inserted (codec : nftModel.BsonCodec) (f : nftModel.NFT) (oid : N) :
  nftModel.ToLower codec "timeStamp" = "timestamp"%string ->
  nftModel.Decode codec (inserted f oid) = inl (docNFT (inserted f oid)).
Proof.
  destruct codec as [lower other], f as [i k o c u t ts]. cbn [nftModel.ToLower].
  intros Hlow. unfold nftModel.Decode.
  set (elems := map_to_list _). vm_compute in elems. subst elems.
  vm_compute. rewrite Hlow. vm_compute. reflexivity.
Qed.

Lemma docNFT_inserted (f : nftModel.NFT) (oid : N) :
  docNFT (inserted f oid)
  = {| nftModel.ID := oid; nftModel.NftID := nftModel.NftID f;
       nftModel.OwnerAddress := nftModel.OwnerAddress f;
       nftModel.ContractAddress := nftModel.ContractAddress f;
       nftModel.TokenUri := "";
       nftModel.TxHash := nftModel.TxHash f;
       nftModel.TimeStamp := nftModel.TimeStamp f |}.
Proof. destruct f. reflexivity. Qed.

Lemma written_fields (d : gmap string mongo.bson) :
  written d ->
  key_of d = Some (mongo.BInt (nftModel.NftID (docNFT d)))
  /\ d !! "ownerAddress"%string
     = Some (mongo.BString (nftModel.OwnerAddress (docNFT d)))
  /\ nftModel.TokenUri (docNFT d) = ""%string.
Proof. intros (f & oid & ->). destruct f. now split_and!. Qed.

Lemma upsert_written (f : nftModel.NFT) (c : mongo.Collection) :
  Forall written (mongo.docs c) -> Forall written (mongo.docs (upsert f c)).
Proof.
  intros Hall.
  destruct (upsert_cases f c) as [(_ & ->) | (pre & d & post & Hc & _ & Hd & ->)];
    cbn [mongo.docs].
  - apply Forall_app. split; [exact Hall|]. repeat constructor. now exists f, (mongo.next_oid c).
  - rewrite Hc in Hall. apply Forall_app in Hall as [Hpre Hrest].
    apply Forall_cons in Hrest as [(g & oid & ->) Hpost].
    apply Forall_app. split; [exact Hpre|]. constructor; [|exact Hpost].
    exists f, oid. apply inserted_supersede.
    rewrite key_of_inserted in Hd. congruence.
Qed.

Lemma applyFacts_written (facts : list nftModel.NFT) (c : mongo.Collection) :
  Forall written (mongo.docs c) -> Forall written (mongo.docs (applyFacts facts c)).
Proof.
  revert c. induction facts as [|f facts IH]; intros c Hc; [exact Hc|].
  apply IH. now apply upsert_written.
Qed.

Lemma storeOf_coll (ops : list (option error * nftModel.NFT)) :
  coll (storeOf ops) = applyFacts (executed ops) mongo.empty.
Proof. unfold storeOf. apply upsertAll_applyFacts. Qed.

Lemma storeOf_written (ops : list (option error * nftModel.NFT)) :
  Forall written (mongo.docs (coll (storeOf ops))).
Proof. rewrite storeOf_coll. apply applyFacts_written. constructor. Qed.

Lemma storeOf_unique (ops : list (option error * nftModel.NFT)) :
  unique_nftId (coll (storeOf ops)).
Proof. rewrite storeOf_coll. apply applyFacts_unique, NoDup_nil_2. Qed.

Lemma drain_decoded (codec : nftModel.BsonCodec) (env : nftModel.ReadEnv) (i : nat)
  (pending : list (gmap string mongo.bson)) (acc : list nftModel.NFT) (s : Sys) :
  (forall j, nftModel.cursorErr env j = None) ->
  Forall (fun d => nftModel.Decode codec d = inl (docNFT d)) pending ->
  nftModel.drain codec env i pending acc s
  = (Returned (acc ++ (docNFT <$> pending), None), s).
Proof.
  intros Hcur Hall. revert i acc.
  induction Hall as [|d rest Hd _ IH]; intros i acc; cbn [nftModel.drain]; rewrite Hcur.
  - now rewrite app_nil_r.
  - rewrite Hd, IH, fmap_cons, <- app_assoc. reflexivity.
Qed.

Lemma filter_sublist {A} (f : A -> bool) (l : list A) : List.filter f l `sublist_of` l.
Proof.
  induction l as [|x l IH]; [constructor|].
  cbn [List.filter]. destruct (f x); now constructor.
Qed.

(** The documents a read delivers from a collection written by the
    upsert: written documents, no key twice, largest key first. *)
Lemma Find_written (filter : gmap string mongo.bson) (c : mongo.Collection) :
  Forall written (mongo.docs c) -> unique_nftId c ->
  Forall written (nftModel.Find filter c)
  /\ descending (docNFT <$> nftModel.Find filter c).
Proof.
  intros Hall Hu.
  assert (Hw : Forall written (nftModel.Find filter c)).
  { apply Forall_forall. intros d Hd. apply elem_of_Find in Hd as [Hd _].
    rewrite Forall_forall in Hall. now apply Hall. }
  split; [exact Hw|].
  assert (Hnd : NoDup (key_of <$> nftModel.Find filter c)).
  { unfold nftModel.Find. rewrite sort_desc_perm.
    eapply sublist_NoDup; [exact Hu | apply fmap_sublist, filter_sublist]. }
  pose proof (sort_desc_sorted "nftId"
                (List.filter (mongo.matches filter) (mongo.docs c))) as Hs.
  fold (nftModel.Find filter c) in Hs.
  induction Hs as [|a l Hsl IH Hhd]; [constructor|].
  apply Forall_cons in Hw as [Ha Hl].
  rewrite fmap_cons in Hnd. apply NoDup_cons in Hnd as [Hnotin Hnd].
  rewrite fmap_cons. constructor; [now apply IH|].
  destruct Hhd as [|b l' Hab]; [constructor|]. rewrite fmap_cons. constructor.
  apply Forall_cons in Hl as [Hb _].
  destruct (written_fields a Ha) as (Hka & _), (written_fields b Hb) as (Hkb & _).
  generalize dependent (nftModel.NftID (docNFT a)).
  generalize dependent (nftModel.NftID (docNFT b)).
  intros kb Hkb ka Hka. unfold key_of in Hka, Hkb.
  rewrite Hka, Hkb in Hab. cbn [nftModel.bson_leb] in Hab.
  apply Z.leb_le in Hab.
  assert (ka <> kb).
  { intros Heq. apply Hnotin. rewrite fmap_cons. apply elem_of_cons. left.
    unfold key_of. rewrite Hka, Hkb. now rewrite Heq. }
  lia.
Qed.

Lemma findAndDrain_written (codec : nftModel.BsonCodec) (env : nftModel.ReadEnv)
  (filter : gmap string mongo.bson) (s : Sys) :
  nftModel.ToLower codec "timeStamp" = "timestamp"%string ->
  reads_ok env ->
  Forall written (mongo.docs (coll s)) ->
  nftModel.findAndDrain codec env filter s
  = (Returned (docNFT <$> nftModel.Find filter (coll s), None), s).
Proof.
  intros Hlow [Hfind Hcur] Hall. unfold nftModel.findAndDrain. rewrite Hfind.
  rewrite drain_decoded; [reflexivity | exact Hcur |].
  apply Forall_forall. intros d Hd. apply elem_of_Find in Hd as [Hd _].
  rewrite Forall_forall in Hall. destruct (Hall d Hd) as (f & oid & ->).
  now apply Decode_inserted.
Qed.

Lemma holds_fact_docNFT (d : gmap string mongo.bson) (f : nftModel.NFT) :
  holds_fact d f ->
  nftModel.NftID (docNFT d) = nftModel.NftID f
  /\ nftModel.OwnerAddress (docNFT d) = nftModel.OwnerAddress f
  /\ nftModel.ContractAddress (docNFT d) = nftModel.ContractAddress f
  /\ nftModel.TxHash (docNFT d) = nftModel.TxHash f
  /\ nftModel.TimeStamp (docNFT d) = nftModel.TimeStamp f.
Proof.
  intros (H1 & H2 & H3 & H4 & H5). unfold docNFT. cbn.
  rewrite H1, H2, H3, H4, H5. now split_and!.
Qed.

Lemma records_for_elem (k : Z) (c : mongo.Collection) (d : gmap string mongo.bson) :
  records_for k c = [d] -> d ∈ mongo.docs c /\ key_of d = Some (mongo.BInt k).
Proof.
  intros Hrec.
  assert (Hin : d ∈ records_for k c) by (rewrite Hrec; apply list_elem_of_here).
  apply list_elem_of_filter in Hin. tauto.
Qed.

(** X20: read back from a store that the tracker's upserts have written,
    with the database answering, [GetAllNfts] returns one record per
    document, largest token id first and no id twice; a token named by an
    executed upsert is listed with the owner, contract, transaction hash
    and time stamp of the last such upsert and an empty token URI, and no
    other token is listed. *)
Theorem GetAllNfts_lists_last_facts (codec : nftModel.BsonCodec)
  (env : nftModel.ReadEnv) (ops : list (option error * nftModel.NFT)) (k : Z) :
  nftModel.ToLower codec "timeStamp" = "timestamp"%string ->
  reads_ok env ->
  exists nfts,
    run (nftModel.GetAllNfts codec env) (storeOf ops) = Returned (nfts, None)
    /\ descending nfts
    /\ length nfts = length (mongo.docs (coll (storeOf ops)))
    /\ match lastFact k (executed ops) with
       | Some f =>
           exists n, n ∈ nfts
                     /\ nftModel.NftID n = k
                     /\ nftModel.OwnerAddress n = nftModel.OwnerAddress f
                     /\ nftModel.ContractAddress n = nftModel.ContractAddress f
                     /\ nftModel.TxHash n = nftModel.TxHash f
                     /\ nftModel.TimeStamp n = nftModel.TimeStamp f
                     /\ nftModel.TokenUri n = ""%string
       | None => forall n, n ∈ nfts -> nftModel.NftID n <> k
       end.
Proof.
  intros Hlow Henv.
  pose proof (storeOf_written ops) as Hw. pose proof (storeOf_unique ops) as Hu.
  exists (docNFT <$> nftModel.Find ∅ (coll (storeOf ops))).
  unfold nftModel.GetAllNfts, run.
  rewrite (findAndDrain_written codec env ∅ _ Hlow Henv Hw).
  destruct (Find_written ∅ _ Hw Hu) as [_ Hdesc].
  split_and!; [reflexivity | exact Hdesc | |].
  - rewrite length_fmap, Find_all. apply Permutation_length, sort_desc_perm.
  - pose proof (applyFacts_last k (executed ops) mongo.empty NoDup_nil_2) as Hlast.
    rewrite <- storeOf_coll in Hlast.
    destruct (lastFact k (executed ops)) as [f|].
    + destruct Hlast as (d & Hrec & Hd).
      destruct (records_for_elem _ _ _ Hrec) as [Hin Hk].
      destruct (holds_fact_docNFT d f Hd) as (N1 & N2 & N3 & N4 & N5).
      rewrite Forall_forall in Hw.
      destruct (written_fields d (Hw d Hin)) as (Hk' & _ & Huri).
      exists (docNFT d). split_and!; try assumption.
      * apply list_elem_of_fmap. exists d. split; [reflexivity|].
        apply elem_of_Find. split; [exact Hin | apply matches_empty].
      * rewrite Hk in Hk'. congruence.
    + intros n Hn Hkn. apply list_elem_of_fmap in Hn as (d & -> & Hd).
      apply elem_of_Find in Hd as [Hd _].
      rewrite Forall_forall in Hw. destruct (written_fields d (Hw d Hd)) as (Hk & _).
      assert (Hin : d ∈ records_for k (coll (storeOf ops))).
      { apply list_elem_of_filter. split; [|exact Hd]. now rewrite Hk, Hkn. }
      rewrite Hlast in Hin. cbn in Hin. now apply elem_of_nil in Hin.
Qed.

Lemma GetAllNfts_lists_last_facts_witness :
  exists nfts,
    run (nftModel.GetAllNfts Fixture.codec Fixture.readEnv) (storeOf Fixture.twoFacts)
    = Returned (nfts, None)
    /\ exists n, n ∈ nfts /\ nftModel.NftID n = 7
                 /\ nftModel.OwnerAddress n = nftModel.OwnerAddress Sample.nftY.
Proof.
  destruct (GetAllNfts_lists_last_facts Fixture.codec Fixture.readEnv Fixture.twoFacts 7
              eq_refl (conj eq_refl (fun _ => eq_refl)))
    as (nfts & Hrun & _ & _ & Hlast).
  exists nfts. split; [exact Hrun|].
  assert (E : lastFact 7 (executed Fixture.twoFacts) = Some Sample.nftY)
    by (vm_compute; reflexivity).
  rewrite E in Hlast.
  destruct Hlast as (n & Hn & Hk & Ho & _). exists n. exact (conj Hn (conj Hk Ho)).
Defined.

Lemma matches_owner (w : string) (d : gmap string mongo.bson) :
  mongo.matches {[ "ownerAddress"%string := mongo.BString w ]} d = true
  <-> d !! "ownerAddress"%string = Some (mongo.BString w).
Proof.
  unfold mongo.matches. rewrite bool_decide_eq_true, map_Forall_singleton. reflexivity.
Qed.

(** X21: read back from a store that the tracker's upserts have written,
    [GetWalletNfts] lists a token exactly when the last executed upsert
    for it names the wallet as owner, by equality of the address text as
    stored; every record listed has that owner, and the list has the
    largest token id first and no id twice. *)
Theorem GetWalletNfts_lists_current_tokens (codec : nftModel.BsonCodec)
  (env : nftModel.ReadEnv) (ops : list (option error * nftModel.NFT))
  (walletAddress : string) :
  nftModel.ToLower codec "timeStamp" = "timestamp"%string ->
  reads_ok env ->
  exists nfts,
    run (nftModel.GetWalletNfts codec env walletAddress) (storeOf ops)
    = Returned (nfts, None)
    /\ descending nfts
    /\ (forall n, n ∈ nfts -> nftModel.OwnerAddress n = walletAddress)
    /\ (forall k, (exists n, n ∈ nfts /\ nftModel.NftID n = k)
                  <-> (exists f, lastFact k (executed ops) = Some f
                                 /\ nftModel.OwnerAddress f = walletAddress)).
Proof.
  intros Hlow Henv.
  pose proof (storeOf_written ops) as Hw. pose proof (storeOf_unique ops) as Hu.
  set (filter := {[ "ownerAddress"%string := mongo.BString walletAddress ]}
                 : gmap string mongo.bson).
  exists (docNFT <$> nftModel.Find filter (coll (storeOf ops))).
  unfold nftModel.GetWalletNfts, run. fold filter.
  rewrite (findAndDrain_written codec env filter _ Hlow Henv Hw).
  destruct (Find_written filter _ Hw Hu) as [_ Hdesc].
  rewrite Forall_forall in Hw.
  split_and!; [reflexivity | exact Hdesc | |].
  - intros n Hn. apply list_elem_of_fmap in Hn as (d & -> & Hd).
    apply elem_of_Find in Hd as [Hd Hm]. apply matches_owner in Hm.
    destruct (written_fields d (Hw d Hd)) as (_ & Ho & _). congruence.
  - intros k.
    pose proof (applyFacts_last k (executed ops) mongo.empty NoDup_nil_2) as Hlast.
    rewrite <- storeOf_coll in Hlast. split.
    + intros (n & Hn & Hk). apply list_elem_of_fmap in Hn as (d & -> & Hd).
      apply elem_of_Find in Hd as [Hd Hm]. apply matches_owner in Hm.
      destruct (written_fields d (Hw d Hd)) as (Hkey & _). rewrite Hk in Hkey.
      destruct (lastFact k (executed ops)) as [f|].
      * destruct Hlast as (d' & Hrec & Hd').
        assert (d = d') as <- by now apply (records_for_member k (coll (storeOf ops))).
        exists f. split; [reflexivity|].
        destruct Hd' as (_ & Ho & _). congruence.
      * assert (Hin : d ∈ records_for k (coll (storeOf ops)))
          by (apply list_elem_of_filter; now split).
        rewrite Hlast in Hin. cbn in Hin. now apply elem_of_nil in Hin.
    + intros (f & Hf & Ho). rewrite Hf in Hlast. destruct Hlast as (d & Hrec & Hd).
      destruct (records_for_elem _ _ _ Hrec) as [Hin Hk].
      destruct (holds_fact_docNFT d f Hd) as (N1 & _).
      exists (docNFT d). split.
      * apply list_elem_of_fmap. exists d. split; [reflexivity|].
        apply elem_of_Find. split; [exact Hin|]. apply matches_owner.
        destruct Hd as (_ & Hod & _). now rewrite Hod, Ho.
      * destruct Hd as (Hnft & _). unfold key_of in Hk. rewrite Hnft in Hk.
        rewrite N1. congruence.
Qed.

Lemma GetWalletNfts_lists_current_tokens_witness :
  exists nfts,
    run (nftModel.GetWalletNfts Fixture.codec Fixture.readEnv
           (nftModel.OwnerAddress Sample.nftX)) (storeOf Fixture.twoFacts)
    = Returned (nfts, None)
    /\ forall n, n ∈ nfts -> nftModel.OwnerAddress n = nftModel.OwnerAddress Sample.nftX.
Proof.
  destruct (GetWalletNfts_lists_current_tokens Fixture.codec Fixture.readEnv
              Fixture.twoFacts (nftModel.OwnerAddress Sample.nftX)
              eq_refl (conj eq_refl (fun _ => eq_refl)))
    as (nfts & Hrun & _ & Ho & _).
  exists nfts. split; [exact Hrun | exact Ho].
Defined.


(** ** The HTTP handlers *)

Lemma respond_fresh (Marshal : list nftModel.NFT -> string + error)
  (nfts : list nftModel.NFT) (s : Sys) :
  exists w,
    run (nftcontroller.respond Marshal nfts nftcontroller.newResponse) s = Returned w
    /\ nftcontroller.sent w = jsonOK
    /\ nftcontroller.body w = bodyFor Marshal nfts
    /\ coll (exec (nftcontroller.respond Marshal nfts nftcontroller.newResponse) s)
       = coll s.
Proof.
  unfold nftcontroller.respond, nftcontroller.Encode, bodyFor, run, exec.
  destruct (Marshal nfts) as [text|e]; eexists; split_and!; reflexivity.
Qed.

Lemma handler_shape (read : M (list nftModel.NFT * option error)) (fmt : string)
  (Marshal : list nftModel.NFT -> string + error) (s : Sys)
  (nfts : list nftModel.NFT) (err : option error) :
  run read s = Returned (nfts, err) ->
  coll (exec read s) = coll s ->
  let handler :=
    '(nfts, err) ← read;
    match err with
    | Some e => Printf fmt [ArgError e]
    | None => mret tt
    end;;
    nftcontroller.respond Marshal nfts nftcontroller.newResponse in
  exists w,
    run handler s = Returned w
    /\ nftcontroller.sent w = jsonOK
    /\ nftcontroller.body w = bodyFor Marshal nfts
    /\ coll (exec handler s) = coll s.
Proof.
  intros Hrun Hcoll handler. apply run_exec in Hrun.
  assert (Hstep : exists s', handler s
                  = nftcontroller.respond Marshal nfts nftcontroller.newResponse s'
                  /\ coll s' = coll s).
  { unfold handler. rewrite (bind_returned _ _ _ _ _ Hrun).
    destruct err as [e|].
    - eexists. split; [reflexivity|]. exact Hcoll.
    - eexists. split; [reflexivity|]. exact Hcoll. }
  destruct Hstep as (s' & Hh & Hs').
  destruct (respond_fresh Marshal nfts s') as (w & R1 & R2 & R3 & R4).
  exists w. unfold run, exec in *. rewrite Hh.
  split_and!; [exact R1 | exact R2 | exact R3 |]. now rewrite R4.
Qed.

(** X22: the handlers [GetAllNfts] and [GetWalletNfts] answer every
    request with status 200 and the header Content-Type "pkglication/json"
    (as the source spells it), whatever the read and the encoder do: a
    failed read is answered with the encoding of a nil slice, and when the
    encoder fails the body is the text of the 500 answer while the status
    that went out stays 200.  The store is not changed. *)
Theorem handlers_always_answer_200 (codec : nftModel.BsonCodec) (env : nftModel.ReadEnv)
  (Marshal : list nftModel.NFT -> string + error) (vars : gmap string string)
  (s : Sys) :
  let all := nftcontroller.GetAllNfts codec env Marshal nftcontroller.newResponse in
  let wallet :=
    nftcontroller.GetWalletNfts codec env Marshal vars nftcontroller.newResponse in
  let walletAddress := default ""%string (vars !! "walletAddress"%string) in
  (exists w nfts err,
     run all s = Returned w
     /\ run (nftModel.GetAllNfts codec env) s = Returned (nfts, err)
     /\ (err <> None -> nfts = [])
     /\ nftcontroller.sent w = jsonOK
     /\ nftcontroller.body w = bodyFor Marshal nfts
     /\ coll (exec all s) = coll s)
  /\ (exists w nfts err,
        run wallet s = Returned w
        /\ run (nftModel.GetWalletNfts codec env walletAddress) s = Returned (nfts, err)
        /\ (err <> None -> nfts = [])
        /\ nftcontroller.sent w = jsonOK
        /\ nftcontroller.body w = bodyFor Marshal nfts
        /\ coll (exec wallet s) = coll s).
Proof.
  intros all wallet walletAddress. split.
  - destruct (findAndDrain_shape codec env ∅ s) as (Hc & _ & (nfts & err & Hr & Hnil) & _).
    destruct (handler_shape (nftModel.GetAllNfts codec env) "Error in fecthing nfts: %v"
                Marshal s nfts err Hr Hc) as (w & H1 & H2 & H3 & H4).
    exists w, nfts, err. split_and!; assumption.
  - destruct (findAndDrain_shape codec env
                {[ "ownerAddress"%string := mongo.BString walletAddress ]} s)
      as (Hc & _ & (nfts & err & Hr & Hnil) & _).
    destruct (handler_shape (nftModel.GetWalletNfts codec env walletAddress)
                "Error in fetching nfts: %v" Marshal s nfts err Hr Hc)
      as (w & H1 & H2 & H3 & H4).
    exists w, nfts, err. split_and!; assumption.
Qed.
